(** * docker-downlocal: a shallow embedding of [DockerImageManager]

    The script pulls a container image (optionally through a registry
    mirror), saves it as a tar file, wraps the tar in a zip, moves the zip
    to a staging directory and removes the local image.

    Modelling conventions.
    - A Python [str] is a [string]; a character is a code point below 256
      (Latin-1), so that [\w], [\s], [str.strip], [str.lower] and
      [str.isdigit] are the tables CPython uses on that range.
    - [self] is the record [manager]; every method is a computation in the
      monad [M], which threads [self] and the outside world and carries
      Python's exceptions.  State changes made before a [raise] persist.
    - The outside world is a record [world]: the regular files by path
      (a flat name space: directories, permissions and links are not
      modelled), the lines the operator will type, the clock, and an
      oracle that answers every external command from the history of
      commands run so far.
    - The names the script makes itself (the configuration file, the tar
      and the zip file) are the keys under which [files] holds them.  The
      staging path comes from the configuration and can spell any
      directory, the working directory included; [locate] of the world
      says under which key a path spelled through it is held.
    - The command line reaches [run] as what [argparse] makes of it.
    - [int] converts at most 4300 digits, the default of CPython 3.11.
    - [KeyboardInterrupt] arrives where the script waits: at a prompt or
      during an external command.
    - [print] calls are left out: they change no state. *)

From Stdlib Require Import Ascii String DecimalString DecimalNat ZArith.
From stdpp Require Import gmap strings list fin_maps.

Local Open Scope Z_scope.

(** ** Characters *)

Module Chr.

Definition code (c : ascii) : nat := nat_of_ascii c.

Definition between (lo hi : nat) (c : ascii) : bool :=
  Nat.leb lo (code c) && Nat.leb (code c) hi.

Definition dquote : ascii := ascii_of_nat 34.
Definition newline : ascii := ascii_of_nat 10.

Definition is_lower_az := between 97 122.
Definition is_upper_az := between 65 90.
Definition is_digit09 := between 48 57.

(** [\s] on [str], and the characters [str.strip()] removes:
    TAB LF VT FF CR, FS GS RS US, SPACE, NEL, NBSP. *)
Definition is_space (c : ascii) : bool :=
  between 9 13 c || between 28 32 c
  || Nat.eqb (code c) 133 || Nat.eqb (code c) 160.

(** [\w] on [str]: [_] and whatever [str.isalnum] accepts. *)
Definition is_word (c : ascii) : bool :=
  is_lower_az c || is_upper_az c || is_digit09 c || Nat.eqb (code c) 95
  || Nat.eqb (code c) 170 || between 178 179 c || Nat.eqb (code c) 181
  || between 185 186 c || between 188 190 c
  || between 192 214 c || between 216 246 c || between 248 255 c.

(** The superscript digits 2, 3 and 1: [str.isdigit] accepts them, [int]
    does not read them. *)
Definition is_superscript (c : ascii) : bool :=
  between 178 179 c || Nat.eqb (code c) 185.

(** [str.isdigit] per character: 0-9 and the superscripts. *)
Definition is_digit (c : ascii) : bool :=
  is_digit09 c || is_superscript c.

(** [str.lower] per character. *)
Definition lower (c : ascii) : ascii :=
  if is_upper_az c || between 192 214 c || between 216 222 c
  then ascii_of_nat (code c + 32) else c.

(** The complement of the class in [[^a-zA-Z0-9_./-]]. *)
Definition name_char (c : ascii) : bool :=
  is_lower_az c || is_upper_az c || is_digit09 c
  || Ascii.eqb c "_" || Ascii.eqb c "." || Ascii.eqb c "/"
  || Ascii.eqb c "-".

(** The class in [[:/]]. *)
Definition colon_or_slash (c : ascii) : bool :=
  Ascii.eqb c ":" || Ascii.eqb c "/".

End Chr.

(** ** Strings: the [str] methods and regular expressions the script uses *)

Module Str.

Fixpoint map (f : ascii -> ascii) (s : string) : string :=
  match s with
  | EmptyString => EmptyString
  | String c s' => String (f c) (map f s')
  end.

Fixpoint forallb (p : ascii -> bool) (s : string) : bool :=
  match s with
  | EmptyString => true
  | String c s' => p c && forallb p s'
  end.

(** [c in s] for a one-character [c]. *)
Fixpoint contains (c : ascii) (s : string) : bool :=
  match s with
  | EmptyString => false
  | String a s' => Ascii.eqb a c || contains c s'
  end.

Definition is_empty (s : string) : bool :=
  match s with EmptyString => true | _ => false end.

(** Truth value of a [str]. *)
Definition truthy (s : string) : bool := negb (is_empty s).

(** [s.split(c)]: never empty, one more piece than there are [c]. *)
Fixpoint split (c : ascii) (s : string) : list string :=
  match s with
  | EmptyString => [EmptyString]
  | String a s' =>
      if Ascii.eqb a c then EmptyString :: split c s'
      else match split c s' with
           | h :: t => String a h :: t
           | [] => [String a EmptyString]
           end
  end.

(** [s.split(c, 1)]: at most one cut, at the first [c]. *)
Fixpoint split1 (c : ascii) (s : string) : list string :=
  match s with
  | EmptyString => [EmptyString]
  | String a s' =>
      if Ascii.eqb a c then [EmptyString; s']
      else match split1 c s' with
           | h :: t => String a h :: t
           | [] => [String a EmptyString]
           end
  end.

Fixpoint lstrip (s : string) : string :=
  match s with
  | EmptyString => EmptyString
  | String c s' => if Chr.is_space c then lstrip s' else s
  end.

Fixpoint rstrip (s : string) : string :=
  match s with
  | EmptyString => EmptyString
  | String c s' =>
      let r := rstrip s' in
      if Chr.is_space c && is_empty r then EmptyString else String c r
  end.

(** [s.strip()] *)
Definition strip (s : string) : string := rstrip (lstrip s).

(** [s.lower()] *)
Definition lower (s : string) : string := map Chr.lower s.

(** [any(p(c) for c in s)] *)
Fixpoint existsb (p : ascii -> bool) (s : string) : bool :=
  match s with
  | EmptyString => false
  | String c s' => p c || existsb p s'
  end.

(** [s.isdigit()] *)
Definition isdigit (s : string) : bool :=
  truthy s && forallb Chr.is_digit s.

Fixpoint int_acc (acc : Z) (s : string) : option Z :=
  match s with
  | EmptyString => Some acc
  | String c s' =>
      if Chr.is_digit09 c
      then int_acc (10 * acc + Z.of_nat (Chr.code c - 48)) s'
      else None
  end.

(** [sys.get_int_max_str_digits()]: the most digits [int] converts. *)
Definition int_max_str_digits : Z := 4300.

Definition within_digit_limit (s : string) : bool :=
  Z.of_nat (String.length s) <=? int_max_str_digits.

(** [int(s)] for an [s] that passed [isdigit]: [None] is [ValueError],
    which a superscript digit causes (below code point 256 the decimal
    digits are 0-9), and so does a text of more than [int_max_str_digits]
    characters, leading zeros included. *)
Definition int (s : string) : option Z :=
  if is_empty s then None
  else if within_digit_limit s then int_acc 0 s
  else None.

(** [re.sub(class, '_', s)] for a one-character class. *)
Definition sub_class (cls : ascii -> bool) (s : string) : string :=
  map (fun c => if cls c then "_"%char else c) s.

(** The longest prefix of [s] made of [p] characters, and the rest. *)
Fixpoint span (p : ascii -> bool) (s : string) : string * string :=
  match s with
  | EmptyString => (EmptyString, EmptyString)
  | String c s' =>
      if p c then let '(a, b) := span p s' in (String c a, b)
      else (EmptyString, s)
  end.

(** [s] without the prefix [p], when it starts with it. *)
Fixpoint drop_prefix (p s : string) : option string :=
  match p, s with
  | EmptyString, _ => Some s
  | String a p', String b s' =>
      if Ascii.eqb a b then drop_prefix p' s' else None
  | String _ _, EmptyString => None
  end.

(** [os.path.basename]: what follows the last [/]. *)
Fixpoint basename (s : string) : string :=
  match s with
  | EmptyString => EmptyString
  | String _ s' => if contains "/" s then basename s' else s
  end.

(** [os.path.join(a, b)] *)
Definition ends_with_slash (s : string) : bool :=
  match String.get (String.length s - 1) s with
  | Some c => Ascii.eqb c "/"
  | None => false
  end.

Definition path_join (a b : string) : string :=
  match b with
  | String "/" _ => b
  | _ => if is_empty a || ends_with_slash a then a +:+ b
         else a +:+ "/" +:+ b
  end.

(** Decimal rendering of a number, and [%02d]. *)
Definition dec (n : nat) : string := NilZero.string_of_uint (Nat.to_uint n).

Definition pad2 (n : nat) : string :=
  if Nat.ltb n 10 then "0" +:+ dec n else dec n.

End Str.

(** ** The two regular expressions *)

Module Re.

Definition digest_key : string :=
  String Chr.dquote ("digest" +:+ String Chr.dquote ":").

Definition quote : string := String Chr.dquote EmptyString.

(** An anchored match of ["digest":\s*"(\w+:\w+)"]; the result is
    group 1.  Neither [\s] nor [\w] contains the character that must
    follow the run, so the greedy run is the only candidate. *)
Definition match_digest_at (s : string) : option string :=
  r0 ← Str.drop_prefix digest_key s;
  r1 ← Str.drop_prefix quote (snd (Str.span Chr.is_space r0));
  let '(w1, r2) := Str.span Chr.is_word r1 in
  if Str.is_empty w1 then None else
  r3 ← Str.drop_prefix ":" r2;
  let '(w2, r4) := Str.span Chr.is_word r3 in
  if Str.is_empty w2 then None else
  _ ← Str.drop_prefix quote r4;
  Some (w1 +:+ ":" +:+ w2).

(** [re.search(r'"digest":\s*"(\w+:\w+)"', s)]: leftmost match. *)
Fixpoint search_digest (s : string) : option string :=
  match match_digest_at s with
  | Some g => Some g
  | None =>
      match s with
      | EmptyString => None
      | String _ s' => search_digest s'
      end
  end.

(** An anchored match of [job (\d+)]. *)
Definition match_job_at (s : string) : option string :=
  r0 ← Str.drop_prefix "job " s;
  let '(d, _) := Str.span Chr.is_digit09 r0 in
  if Str.is_empty d then None else Some d.

(** [re.search(r'job (\d+)', s)] *)
Fixpoint search_job (s : string) : option string :=
  match match_job_at s with
  | Some g => Some g
  | None =>
      match s with
      | EmptyString => None
      | String _ s' => search_job s'
      end
  end.

End Re.


(** ** Exceptions, the outside world and the monad of methods *)

(** The subclasses of [Exception] the script can meet. *)
Inductive error :=
| RuntimeError | CalledProcessError | OSError | FileNotFoundError
| IndexError | AttributeError | ValueError | EOFError | OverflowError
| FileExistsError | ConfigError
| InterpolationSyntaxError | InterpolationMissingOptionError
| InterpolationDepthError.

(** What a method can raise.  [KeyboardInterrupt] is no subclass of
    [Exception]: [except Exception] lets it through. *)
Inductive exn :=
| KeyboardInterrupt
| Exception (e : error).

(** How a method ends: it returns, it raises, or it ends the process
    with [sys.exit(code)].  [sys.exit] raises [SystemExit], which nothing
    in the script catches (there is no bare [except] and no [finally]),
    so it is an outcome of its own that every handler lets through. *)
Inductive result (A : Type) :=
| Ret (a : A)
| Raise (e : exn)
| Exit (code : Z).
Arguments Ret {A} a.
Arguments Raise {A} e.
Arguments Exit {A} code.

(** What a file holds, as far as the script can tell.  [Ini d] is a text
    [ConfigParser] reads without error, [d] being the options of its
    [DEFAULT] section as written, by lower-case name; [ZipEmpty] and
    [ZipOne] are archives of no member and of one named member; [Data] is
    anything else (a saved image, say).  [ConfigParser] raises on all but
    [Ini]. *)
Inductive content :=
| Ini (default : gmap string string)
| ZipEmpty
| ZipOne (arcname : string) (member : content)
| Data (bytes : string).

(** One line typed at a prompt, or Ctrl-C instead of it. *)
Inductive keyboard :=
| Line (s : string)
| CtrlC.

(** An external command: an argument vector for [subprocess.run], one
    for [subprocess.Popen], or a shell command line. *)
Inductive event :=
| Run (argv : list string)
| Popen (argv : list string)
| Shell (cmd : string).

(** How an external command ends: it exits, the operator interrupts it,
    or it cannot be started.  A command may change files. *)
Inductive proc :=
| Completed (returncode : Z) (stdout : string) (after : gmap string content)
| Interrupted (after : gmap string content)
| NotStarted.

Record datetime := {
  year : nat; month : nat; day : nat;
  hour : nat; minute : nat; second : nat
}.

Record world := {
  files : gmap string content;
  stdin : list keyboard;
  trace : list event;
  respond : list event -> event -> gmap string content -> proc;
  clock : list event -> datetime;
  locate : string -> string
}.

(** [self.image_info] *)
Record info := {
  original_name : string;
  original_tag : string;
  arch : string;
  mirror : option string;
  tar_name : string;
  zip_name : string;
  pulled_ref : string
}.

(** [self]; the attribute [config] is never read. *)
Record manager := {
  remote_path : string;
  registry_mirrors : list string;
  image_info : info
}.

Record state := {
  self : manager;
  env : world
}.

Definition M (A : Type) : Type := state -> result A * state.

#[export] Instance M_ret : MRet M := fun A a st => (Ret a, st).

#[export] Instance M_bind : MBind M := fun A B f m st =>
  match m st with
  | (Ret a, st') => f a st'
  | (Raise e, st') => (Raise e, st')
  | (Exit code, st') => (Exit code, st')
  end.

Definition raise {A} (e : exn) : M A := fun st => (Raise e, st).

(** [sys.exit(code)] *)
Definition sys_exit {A} (code : Z) : M A := fun st => (Exit code, st).

(** [try: body / except <classes>: handler].  [handler e] is [None] when
    no clause matches [e], which then propagates.  The handler runs
    outside the [try]. *)
Definition try_except {A} (body : M A) (handler : exn -> option (M A)) : M A :=
  fun st =>
    match body st with
    | (Ret a, st') => (Ret a, st')
    | (Raise e, st') =>
        match handler e with
        | Some h => h st'
        | None => (Raise e, st')
        end
    | (Exit code, st') => (Exit code, st')
    end.

(** [if b: body] *)
Definition when_ (b : bool) (body : M unit) : M unit :=
  if b then body else mret tt.

(** [except Exception as e: h] *)
Definition except_Exception {A} (h : error -> M A) (e : exn) : option (M A) :=
  match e with
  | Exception err => Some (h err)
  | KeyboardInterrupt => None
  end.

(** [except subprocess.CalledProcessError: h] *)
Definition except_CalledProcessError {A} (h : M A) (e : exn) : option (M A) :=
  match e with
  | Exception CalledProcessError => Some h
  | _ => None
  end.

(** *** Access to [self] *)

Definition with_info (f : info -> info) (m : manager) : manager :=
  {| remote_path := remote_path m;
     registry_mirrors := registry_mirrors m;
     image_info := f (image_info m) |}.

Definition with_self (f : manager -> manager) (st : state) : state :=
  {| self := f (self st); env := env st |}.

Definition with_env (f : world -> world) (st : state) : state :=
  {| self := self st; env := f (env st) |}.

Definition get_self : M manager := fun st => (Ret (self st), st).
Definition get_info : M info := fun st => (Ret (image_info (self st)), st).
Definition modify_self (f : manager -> manager) : M unit :=
  fun st => (Ret tt, with_self f st).
Definition modify_info (f : info -> info) : M unit :=
  modify_self (with_info f).

Definition set_original_name (v : string) : M unit :=
  modify_info (fun i =>
    {| original_name := v; original_tag := original_tag i; arch := arch i;
       mirror := mirror i; tar_name := tar_name i; zip_name := zip_name i;
       pulled_ref := pulled_ref i |}).

Definition set_original_tag (v : string) : M unit :=
  modify_info (fun i =>
    {| original_name := original_name i; original_tag := v; arch := arch i;
       mirror := mirror i; tar_name := tar_name i; zip_name := zip_name i;
       pulled_ref := pulled_ref i |}).

Definition set_arch (v : string) : M unit :=
  modify_info (fun i =>
    {| original_name := original_name i; original_tag := original_tag i;
       arch := v; mirror := mirror i; tar_name := tar_name i;
       zip_name := zip_name i; pulled_ref := pulled_ref i |}).

Definition set_mirror (v : option string) : M unit :=
  modify_info (fun i =>
    {| original_name := original_name i; original_tag := original_tag i;
       arch := arch i; mirror := v; tar_name := tar_name i;
       zip_name := zip_name i; pulled_ref := pulled_ref i |}).

Definition set_tar_name (v : string) : M unit :=
  modify_info (fun i =>
    {| original_name := original_name i; original_tag := original_tag i;
       arch := arch i; mirror := mirror i; tar_name := v;
       zip_name := zip_name i; pulled_ref := pulled_ref i |}).

Definition set_zip_name (v : string) : M unit :=
  modify_info (fun i =>
    {| original_name := original_name i; original_tag := original_tag i;
       arch := arch i; mirror := mirror i; tar_name := tar_name i;
       zip_name := v; pulled_ref := pulled_ref i |}).

Definition set_pulled_ref (v : string) : M unit :=
  modify_info (fun i =>
    {| original_name := original_name i; original_tag := original_tag i;
       arch := arch i; mirror := mirror i; tar_name := tar_name i;
       zip_name := zip_name i; pulled_ref := v |}).

Definition set_remote_path (v : string) : M unit :=
  modify_self (fun m =>
    {| remote_path := v; registry_mirrors := registry_mirrors m;
       image_info := image_info m |}).

Definition set_registry_mirrors (v : list string) : M unit :=
  modify_self (fun m =>
    {| remote_path := remote_path m; registry_mirrors := v;
       image_info := image_info m |}).

(** *** Access to the world *)

Definition with_files (f : gmap string content -> gmap string content)
    (w : world) : world :=
  {| files := f (files w); stdin := stdin w; trace := trace w;
     respond := respond w; clock := clock w; locate := locate w |}.

Definition with_stdin (l : list keyboard) (w : world) : world :=
  {| files := files w; stdin := l; trace := trace w;
     respond := respond w; clock := clock w; locate := locate w |}.

Definition log (ev : event) (w : world) : world :=
  {| files := files w; stdin := stdin w; trace := trace w ++ [ev];
     respond := respond w; clock := clock w; locate := locate w |}.

(** [os.path.exists] *)
Definition os_path_exists (p : string) : M bool :=
  fun st => (Ret (bool_decide (is_Some (files (env st) !! p))), st).

(** [os.remove] *)
Definition os_remove (p : string) : M unit :=
  fun st =>
    match files (env st) !! p with
    | Some _ => (Ret tt, with_env (with_files (delete p)) st)
    | None => (Raise (Exception FileNotFoundError), st)
    end.

(** Opening [p] for writing, writing [c] and closing. *)
Definition write_file (p : string) (c : content) : M unit :=
  fun st =>
    if Str.is_empty p then (Raise (Exception FileNotFoundError), st)
    else (Ret tt, with_env (with_files (insert p c)) st).

Definition read_file (p : string) : M content :=
  fun st =>
    match files (env st) !! p with
    | Some c => (Ret c, st)
    | None => (Raise (Exception FileNotFoundError), st)
    end.

(** [os.path.getsize]: only its failure on a missing file matters, the
    size is printed and dropped. *)
Definition os_path_getsize (p : string) : M unit :=
  _ ← read_file p; mret tt.

(** [os.makedirs(p, exist_ok=True)] for a [p] from the configuration:
    the empty path is refused, and so is a path that names a regular
    file.  The directory it makes holds no file yet. *)
Definition os_makedirs (p : string) : M unit :=
  fun st =>
    if Str.is_empty p then (Raise (Exception FileNotFoundError), st)
    else if bool_decide (is_Some (files (env st) !! locate (env st) p))
    then (Raise (Exception FileExistsError), st)
    else (Ret tt, st).

(** [shutil.move] of the file [src] onto the path [dst], spelled through
    the configuration: the file is renamed to whatever [dst] names and
    replaces what was there.  When [dst] names [src] itself the file
    stays where it is. *)
Definition shutil_move (src dst : string) : M unit :=
  fun st =>
    match files (env st) !! src with
    | Some c =>
        (Ret tt,
         with_env (with_files (fun fs =>
           <[locate (env st) dst := c]> (delete src fs))) st)
    | None => (Raise (Exception FileNotFoundError), st)
    end.

(** [datetime.now()] *)
Definition datetime_now : M datetime :=
  fun st => (Ret (clock (env st) (trace (env st))), st).

(** Running an external command and waiting for it. *)
Definition spawn (ev : event) : M (Z * string) :=
  fun st =>
    let w := env st in
    match respond w (trace w) ev (files w) with
    | Completed rc out fs =>
        (Ret (rc, out), with_env (fun w => with_files (fun _ => fs) (log ev w)) st)
    | Interrupted fs =>
        (Raise KeyboardInterrupt,
         with_env (fun w => with_files (fun _ => fs) (log ev w)) st)
    | NotStarted => (Raise (Exception OSError), with_env (log ev) st)
    end.

(** [subprocess.run(argv, capture_output=True, text=True)] *)
Definition subprocess_run (argv : list string) : M (Z * string) :=
  spawn (Run argv).

(** [subprocess.run(argv, check=True)] *)
Definition subprocess_run_check (argv : list string) : M unit :=
  r ← spawn (Run argv);
  if negb (fst r =? 0) then raise (Exception CalledProcessError) else mret tt.

(** What a prompt loop makes of one line: ask again, or leave the loop
    with a value or an exception. *)
Inductive decision (A : Type) :=
| Again
| Done (r : result A).
Arguments Again {A}.
Arguments Done {A} r.

(** [while True: line = input(...); ...]: lines are read until one is
    accepted.  The end of the input is [EOFError]. *)
Fixpoint input_until {A} (f : string -> decision A) (keys : list keyboard)
    : result A * list keyboard :=
  match keys with
  | [] => (Raise (Exception EOFError), [])
  | CtrlC :: rest => (Raise KeyboardInterrupt, rest)
  | Line s :: rest =>
      match f s with
      | Done r => (r, rest)
      | Again => input_until f rest
      end
  end.

Definition prompt_loop {A} (f : string -> decision A) : M A :=
  fun st =>
    let '(r, rest) := input_until f (stdin (env st)) in
    (r, with_env (with_stdin rest) st).

(** ** Dates *)

Module Date.

Definition is_leap (y : nat) : bool :=
  Nat.eqb (y mod 4) 0 && (negb (Nat.eqb (y mod 100) 0) || Nat.eqb (y mod 400) 0).

Definition days_in_month (y m : nat) : nat :=
  match m with
  | 2 => if is_leap y then 29 else 28
  | 4 | 6 | 9 | 11 => 30
  | _ => 31
  end%nat.

(** [d + timedelta(hours=24)]; [None] is the [OverflowError] past the
    last day of year 9999. *)
Definition plus_24h (d : datetime) : option datetime :=
  let at_date y m dd :=
    {| year := y; month := m; day := dd;
       hour := hour d; minute := minute d; second := second d |} in
  if Nat.ltb (day d) (days_in_month (year d) (month d))
  then Some (at_date (year d) (month d) (S (day d)))
  else if Nat.ltb (month d) 12
  then Some (at_date (year d) (S (month d)) 1%nat)
  else if Z.of_nat (year d) <? 9999
  then Some (at_date (S (year d)) 1%nat 1%nat)
  else None.

(** [strftime("%Y%m%d_%H%M%S")] *)
Definition stamp (d : datetime) : string :=
  Str.dec (year d) +:+ Str.pad2 (month d) +:+ Str.pad2 (day d) +:+ "_"
  +:+ Str.pad2 (hour d) +:+ Str.pad2 (minute d) +:+ Str.pad2 (second d).

(** [strftime("%H:%M %Y-%m-%d")] *)
Definition at_time (d : datetime) : string :=
  Str.pad2 (hour d) +:+ ":" +:+ Str.pad2 (minute d) +:+ " "
  +:+ Str.dec (year d) +:+ "-" +:+ Str.pad2 (month d) +:+ "-"
  +:+ Str.pad2 (day d).

End Date.

(** ** Reading an option of the configuration *)

Module Config.

Definition MAX_INTERPOLATION_DEPTH : nat := 10.

(** [accum.append(piece)] before what the rest of the value gives. *)
Definition emit (piece : string) (r : error + string) : error + string :=
  match r with
  | inl e => inl e
  | inr s => inr (piece +:+ s)
  end.

(** [BasicInterpolation._interpolate_some], the pieces of [accum] joined.
    [levels] counts the nested calls still allowed: it is
    [MAX_INTERPOLATION_DEPTH + 1 - depth].  The loop reads [rest] one
    character at a time: [key] is [None] in plain text, and [Some k]
    inside a reference, [k] being what was read of the name after [%(];
    this is the anchored match of [%\(([^)]+)\)s].  A [%] is followed by
    [%], or by a reference to an option of [map], whose value is
    interpolated in turn when it holds a [%]. *)
Fixpoint interpolate_some (levels : nat) (map : gmap string string)
    (rest : string) {struct levels} : error + string :=
  match levels with
  | O => inl InterpolationDepthError
  | S levels' =>
      (fix loop (key : option string) (rest : string) {struct rest}
           : error + string :=
         match key, rest with
         | None, EmptyString => inr EmptyString
         | None, String c r =>
             if Ascii.eqb c "%" then
               match r with
               | String c' r' =>
                   if Ascii.eqb c' "%" then emit "%" (loop None r')
                   else if Ascii.eqb c' "(" then loop (Some EmptyString) r'
                   else inl InterpolationSyntaxError
               | EmptyString => inl InterpolationSyntaxError
               end
             else emit (String c EmptyString) (loop None r)
         | Some k, EmptyString => inl InterpolationSyntaxError
         | Some k, String c r =>
             if Ascii.eqb c ")" then
               if Str.is_empty k then inl InterpolationSyntaxError else
               match r with
               | String c' r' =>
                   if Ascii.eqb c' "s" then
                     match map !! Str.lower k with
                     | None => inl InterpolationMissingOptionError
                     | Some v =>
                         if Str.contains "%" v then
                           match interpolate_some levels' map v with
                           | inl e => inl e
                           | inr piece => emit piece (loop None r')
                           end
                         else emit v (loop None r')
                     end
                   else inl InterpolationSyntaxError
               | EmptyString => inl InterpolationSyntaxError
               end
             else loop (Some (k +:+ String c EmptyString)) r
         end) None rest
  end.

(** [BasicInterpolation.before_get] *)
Definition before_get (defaults : gmap string string) (value : string)
    : error + string :=
  interpolate_some MAX_INTERPOLATION_DEPTH defaults value.

(** [config['DEFAULT'].get(option, fallback)]: the fallback when the
    option is missing, its value interpolated otherwise. *)
Definition get (defaults : gmap string string) (option fallback : string)
    : error + string :=
  match defaults !! Str.lower option with
  | None => inr fallback
  | Some value => before_get defaults value
  end.

End Config.

(** ** The program *)

Definition CONFIG_FILE : string := "config_docker-downlocal.conf".
Definition DOCKER_CLI : string := "docker".

(** [DockerImageManager.__init__] *)
Definition init_info : info :=
  {| original_name := ""; original_tag := "latest"; arch := "amd64";
     mirror := None; tar_name := ""; zip_name := ""; pulled_ref := "" |}.

Definition init : manager :=
  {| remote_path := ""; registry_mirrors := []; image_info := init_info |}.

(** The options written to a fresh configuration file.  The script adds
    a third key that starts with [#]; the line it makes is a comment to
    [ConfigParser], so it is no option of the file that is written. *)
Definition config_template : gmap string string :=
  {[ "remote_path" := "/tmp/docker-images";
     "registry_mirrors" :=
       "https://registry.docker-cn.com,https://mirror.baidubce.com" ]}.

Definition create_config_template : M unit :=
  write_file CONFIG_FILE (Ini config_template).

(** [ConfigParser().read(p)] followed by [config['DEFAULT']], for a [p]
    that exists. *)
Definition config_read (p : string) : M (gmap string string) :=
  c ← read_file p;
  match c with
  | Ini d => mret d
  | _ => raise (Exception ConfigError)
  end.

(** [[m.strip() for m in s.split(',') if m.strip()]] *)
Definition mirror_list (s : string) : list string :=
  List.map Str.strip
    (List.filter (fun m => Str.truthy (Str.strip m)) (Str.split "," s)).

(** [config['DEFAULT'].get(option, fallback)] in a method. *)
Definition config_get (config : gmap string string) (option fallback : string)
    : M string :=
  match Config.get config option fallback with
  | inr value => mret value
  | inl e => raise (Exception e)
  end.

Definition handle_config : M unit :=
  present ← os_path_exists CONFIG_FILE;
  when_ (negb present)
    (create_config_template ;; sys_exit 0) ;;
  config ← config_read CONFIG_FILE;
  path ← config_get config "remote_path" "/tmp/docker-images";
  set_remote_path path ;;
  entry ← config_get config "registry_mirrors" "";
  set_registry_mirrors (mirror_list entry).

Definition parse_image_input (image_input : string) : M unit :=
  (if Str.contains ":" image_input
   then match Str.split1 ":" image_input with
        | [name; tag] => set_original_name name ;; set_original_tag tag
        | _ => raise (Exception ValueError)
        end
   else set_original_name image_input) ;;
  i ← get_info;
  set_original_name
    (Str.sub_class (fun c => negb (Chr.name_char c)) (original_name i)).

Definition arch_map : gmap string string :=
  {[ "1" := "amd64"; "2" := "arm64"; "3" := "arm/v7" ]}.

Definition select_architecture : M unit :=
  a ← prompt_loop (fun line =>
         match arch_map !! Str.strip line with
         | Some a => Done (Ret a)
         | None => Again
         end);
  set_arch a.

(** One round of the mirror prompt: [Some m] picks a mirror, [None]
    declines.  [int] raises on a superscript digit that [isdigit] let
    through, and on a number of too many digits. *)
Definition mirror_choice (mirrors : list string) (line : string)
    : decision (option string) :=
  let choice := Str.lower (Str.strip line) in
  if String.eqb choice "n" then Done (Ret None)
  else if Str.isdigit choice then
    match Str.int choice with
    | None => Done (Raise (Exception ValueError))
    | Some n =>
        let index := n - 1 in
        if (0 <=? index) && (index <? Z.of_nat (length mirrors))
        then match mirrors !! Z.to_nat index with
             | Some m => Done (Ret (Some m))
             | None => Done (Raise (Exception IndexError))
             end
        else Again
    end
  else Again.

Definition select_mirror : M unit :=
  m ← get_self;
  match registry_mirrors m with
  | [] => mret tt
  | _ =>
      picked ← prompt_loop (mirror_choice (registry_mirrors m));
      match picked with
      | Some mir => set_mirror (Some mir)
      | None => mret tt
      end
  end.

(** Truth value of [self.image_info['mirror']]: [None] and the empty
    string are false. *)
Definition mirror_set (i : info) : bool :=
  match mirror i with
  | Some m => Str.truthy m
  | None => false
  end.

Definition get_pull_reference (i : info) : string :=
  let name := original_name i in
  match mirror i with
  | Some m =>
      if Str.truthy m then
        if negb (Str.contains "/" name)
        then m +:+ "/library/" +:+ name
        else m +:+ "/" +:+ name
      else name
  | None => name
  end.

(** [l[1]] and [m.group(1)] *)
Definition item1 (l : list string) : M string :=
  match l !! 1%nat with
  | Some x => mret x
  | None => raise (Exception IndexError)
  end.

Definition group1 (m : option string) : M string :=
  match m with
  | Some g => mret g
  | None => raise (Exception AttributeError)
  end.

(** The two queries of the version check. *)
Definition inspect_cmd (i : info) : list string :=
  [DOCKER_CLI; "inspect"; "--format"; "{{.Id}}";
   get_pull_reference i +:+ ":" +:+ original_tag i].

Definition manifest_cmd (i : info) : list string :=
  [DOCKER_CLI; "manifest"; "inspect";
   original_name i +:+ ":" +:+ original_tag i].

(** The body of the [try] in [check_image_update]. *)
Definition check_image_update_body : M bool :=
  i ← get_info;
  result ← subprocess_run (inspect_cmd i);
  if negb (fst result =? 0) then mret true else
  manifest ← subprocess_run (manifest_cmd i);
  if negb (fst manifest =? 0) then mret true else
  local_digest ← item1 (Str.split ":" (Str.strip (snd result)));
  remote_digest ← group1 (Re.search_digest (snd manifest));
  mret (negb (String.eqb local_digest remote_digest)).

Definition check_image_update : M bool :=
  try_except check_image_update_body
    (except_Exception (fun _ => mret true)).

Definition pull_image : M unit :=
  needed ← check_image_update;
  if negb needed then mret tt else
  i ← get_info;
  let pull_ref := get_pull_reference i +:+ ":" +:+ original_tag i in
  let platform := "linux/" +:+ arch i in
  process ← spawn (Popen [DOCKER_CLI; "pull"; "--platform"; platform; pull_ref]);
  if negb (fst process =? 0) then raise (Exception RuntimeError)
  else set_pulled_ref pull_ref.

Definition rename_image : M unit :=
  i ← get_info;
  if negb (mirror_set i) then mret tt else
  let original_ref := original_name i +:+ ":" +:+ original_tag i in
  try_except
    (subprocess_run_check [DOCKER_CLI; "tag"; pulled_ref i; original_ref] ;;
     subprocess_run_check [DOCKER_CLI; "rmi"; pulled_ref i])
    (except_CalledProcessError (raise (Exception CalledProcessError))) ;;
  set_pulled_ref original_ref.

Definition generate_filenames : M unit :=
  i ← get_info;
  let safe_name := Str.sub_class Chr.colon_or_slash (original_name i) in
  now ← datetime_now;
  let timestamp := Date.stamp now in
  let base_name :=
    safe_name +:+ "_" +:+ original_tag i +:+ "_" +:+ arch i
    +:+ "_" +:+ timestamp in
  set_tar_name (base_name +:+ ".tar") ;;
  set_zip_name (base_name +:+ ".zip").

Definition create_tar_package : M unit :=
  i ← get_info;
  subprocess_run_check [DOCKER_CLI; "save"; "-o"; tar_name i; pulled_ref i] ;;
  os_path_getsize (tar_name i).

(** The archive is created empty, then the tar is read into it; when the
    tar is missing the empty archive stays behind. *)
Definition compress_to_zip : M unit :=
  i ← get_info;
  try_except
    (write_file (zip_name i) ZipEmpty ;;
     tar ← read_file (tar_name i);
     write_file (zip_name i) (ZipOne (Str.basename (tar_name i)) tar) ;;
     os_path_getsize (zip_name i))
    (except_Exception (fun e => raise (Exception e))).

Definition transfer_zip_file : M unit :=
  m ← get_self;
  os_makedirs (remote_path m) ;;
  let dest := Str.path_join (remote_path m) (zip_name (image_info m)) in
  try_except
    (shutil_move (zip_name (image_info m)) dest)
    (except_Exception (fun e => raise (Exception e))).

Definition clean_temp_files : M unit :=
  i ← get_info;
  tar_there ← os_path_exists (tar_name i);
  when_ tar_there (os_remove (tar_name i)) ;;
  zip_there ← os_path_exists (zip_name i);
  when_ zip_there (os_remove (zip_name i)).

Definition check_container_usage : M bool :=
  i ← get_info;
  result ← subprocess_run
    [DOCKER_CLI; "ps"; "-a"; "-q"; "--filter"; "ancestor=" +:+ pulled_ref i];
  mret (Str.truthy (Str.strip (snd result))).

(** The shell line that books the removal with [at]. *)
Definition at_command (ref : string) (deletion_time : string) : string :=
  "echo " +:+ Re.quote +:+ DOCKER_CLI +:+ " rmi " +:+ ref +:+ Re.quote
  +:+ " | at " +:+ deletion_time.

Definition schedule_cleanup : M unit :=
  try_except
    (now ← datetime_now;
     i ← get_info;
     match Date.plus_24h now with
     | None => raise (Exception OverflowError)
     | Some later =>
         result ← spawn (Shell (at_command (pulled_ref i) (Date.at_time later)));
         if fst result =? 0
         then group1 (Re.search_job (snd result)) ;; mret tt
         else mret tt
     end)
    (except_Exception (fun _ => mret tt)).

Definition clean_image : M unit :=
  used ← check_container_usage;
  if (used : bool) then mret tt else
  i ← get_info;
  try_except
    (subprocess_run_check [DOCKER_CLI; "rmi"; pulled_ref i])
    (except_CalledProcessError schedule_cleanup).

(** The interactive question for the image name. *)
Definition ask_image : M string :=
  prompt_loop (fun line =>
    let input_str := Str.strip line in
    if Str.truthy input_str then Done (Ret input_str) else Again).

(** The body of the [try] in [run]; [image] is [args.image]. *)
Definition pipeline (image : option string) : M unit :=
  handle_config ;;
  (match image with
   | Some s => if Str.truthy s then parse_image_input s
               else input_str ← ask_image; parse_image_input input_str
   | None => input_str ← ask_image; parse_image_input input_str
   end) ;;
  select_architecture ;;
  select_mirror ;;
  pull_image ;;
  (i ← get_info; when_ (mirror_set i) rename_image) ;;
  generate_filenames ;;
  create_tar_package ;;
  compress_to_zip ;;
  transfer_zip_file ;;
  clean_image ;;
  clean_temp_files.

(** What [parser.parse_args()] makes of the command line: [-h] prints
    the help and ends the process with status 0, a command line the
    parser refuses ends it with status 2, and otherwise [args] is
    returned, of which the script reads [args.image]: the value of
    [-i] or [--image], [None] without it. *)
Inductive command_line :=
| Help
| Refused
| Args (image : option string).

Definition parse_args (argv : command_line) : M (option string) :=
  match argv with
  | Help => sys_exit 0
  | Refused => sys_exit 2
  | Args image => mret image
  end.

Definition run (argv : command_line) : M unit :=
  image ← parse_args argv;
  try_except (pipeline image)
    (fun e =>
       match e with
       | KeyboardInterrupt => Some (clean_temp_files ;; sys_exit 130)
       | Exception _ => Some (clean_temp_files ;; sys_exit 1)
       end).

(** The exit status of the process for an outcome of [run]; an
    exception nobody caught ends the interpreter with 130 or 1. *)
Definition exit_status (r : result unit) : Z :=
  match r with
  | Ret _ => 0
  | Exit code => code
  | Raise KeyboardInterrupt => 130
  | Raise (Exception _) => 1
  end.

Definition start (w : world) : state := {| self := init; env := w |}.

(** ** Sample worlds

    Concrete worlds on which the program is run in the examples below. *)

Module Sample.

(** How the container runtime answers one kind of command. *)
Inductive reply :=
| Answer (rc : Z) (out : string)
| Break
| Absent.

(** A runtime that answers by the verb of the command; [save] writes
    its output file when it succeeds, [at] is keyed as ["at"]. *)
Definition daemon (answer : string -> reply)
    (_ : list event) (ev : event) (fs : gmap string content) : proc :=
  let plain verb :=
    match answer verb with
    | Answer rc out => Completed rc out fs
    | Break => Interrupted fs
    | Absent => NotStarted
    end in
  match ev with
  | Run [_; "save"; _; p; _] =>
      match answer "save" with
      | Answer 0 out => Completed 0 out (<[p := Data "image"]> fs)
      | _ => plain "save"
      end
  | Run (_ :: verb :: _) => plain verb
  | Popen (_ :: verb :: _) => plain verb
  | Shell _ => plain "at"
  | _ => NotStarted
  end.

(** Every command succeeds and prints nothing, except those listed. *)
Definition answers (table : list (string * reply)) (verb : string) : reply :=
  match List.find (fun e => String.eqb (fst e) verb) table with
  | Some e => snd e
  | None => Answer 0 ""
  end.

Definition morning : datetime :=
  {| year := 2024; month := 3; day := 9;
     hour := 7; minute := 5; second := 0 |}.

(** A path as the working directory knows it: a leading [./] adds
    nothing. *)
Fixpoint from_here (p : string) : string :=
  match p with
  | String c (String c' r) =>
      if Ascii.eqb c "." && Ascii.eqb c' "/" then from_here r else p
  | _ => p
  end.

Definition config : gmap string string :=
  {[ "remote_path" := "/srv/stage";
     "registry_mirrors" := " https://m1.example , ,https://m2.example" ]}.

Definition world_with (fs : gmap string content) (table : list (string * reply))
    (keys : list keyboard) : world :=
  {| files := fs; stdin := keys; trace := [];
     respond := daemon (answers table); clock := fun _ => morning;
     locate := from_here |}.

(** A configured machine, and one on which the program never ran. *)
Definition configured := world_with {[ CONFIG_FILE := Ini config ]}.
Definition fresh := world_with ∅.

(** [nginx:latest] has been pulled and named. *)
Definition pulled : manager :=
  {| remote_path := "/srv/stage"; registry_mirrors := [];
     image_info :=
       {| original_name := "nginx"; original_tag := "latest";
          arch := "amd64"; mirror := None;
          tar_name := "nginx_latest_amd64_20240309_070500.tar";
          zip_name := "nginx_latest_amd64_20240309_070500.zip";
          pulled_ref := "nginx:latest" |} |}.

(** The same image behind a mirror, and a namespaced one. *)
Definition official : info :=
  {| original_name := "nginx"; original_tag := "latest";
     arch := "amd64"; mirror := Some "https://m1.example";
     tar_name := ""; zip_name := ""; pulled_ref := "" |}.

Definition namespaced : info :=
  {| original_name := "team/app"; original_tag := "latest";
     arch := "amd64"; mirror := Some "https://m1.example";
     tar_name := ""; zip_name := ""; pulled_ref := "" |}.

Definition line (s : string) : string := s +:+ String Chr.newline "".

(** A container uses the image: [ps] prints its id. *)
Definition in_use : state :=
  {| self := pulled;
     env := configured [("ps", Answer 0 (line "3f2a9c1b77aa"))] [] |}.

(** No container uses the image, but [rmi] fails; [at] accepts. *)
Definition stuck : state :=
  {| self := pulled;
     env := configured [("ps", Answer 0 ""); ("rmi", Answer 1 "");
                        ("at", Answer 0 (line "job 7 at Sun Mar 10 07:05:00 2024"))] [] |}.

(** [s] between double quotes. *)
Definition q (s : string) : string := Re.quote +:+ s +:+ Re.quote.

(** The manifest text [{"config": {"digest": "<d>"}}]. *)
Definition manifest (d : string) : string :=
  "{" +:+ Re.quote +:+ "config" +:+ Re.quote +:+ ": {" +:+ Re.digest_key
  +:+ " " +:+ Re.quote +:+ d +:+ Re.quote +:+ "}}".

(** The local image id and the remote digest are the same. *)
Definition up_to_date : state :=
  {| self := pulled;
     env := configured
              [("inspect", Answer 0 (line "sha256:0a1b2c3d"));
               ("manifest", Answer 0 (manifest "sha256:0a1b2c3d"))] [] |}.

(** The image is not there yet: [inspect] fails. *)
Definition not_local : state :=
  {| self := pulled; env := configured [("inspect", Answer 1 "")] [] |}.

(** The registry cannot be asked: [manifest inspect] fails. *)
Definition offline : state :=
  {| self := pulled;
     env := configured [("inspect", Answer 0 (line "sha256:0a1b2c3d"));
                        ("manifest", Answer 1 "")] [] |}.

(** [inspect] prints something that is no image id. *)
Definition garbled : state :=
  {| self := pulled;
     env := configured [("inspect", Answer 0 (line "unknown"))] [] |}.

(** The operator asks for [amd64] and for no mirror. *)
Definition plain_keys : list keyboard := [Line "1"; Line "n"].

(** A first pull on which the operator interrupts the usage query,
    and one on which the pull fails. *)
Definition interrupted : state :=
  start (configured [("inspect", Answer 1 ""); ("ps", Break)] plain_keys).

Definition pull_fails : state :=
  start (configured [("inspect", Answer 1 ""); ("pull", Answer 1 "")] plain_keys).

(** The operator asks for [arm/v7]; the runtime cannot save into a
    directory that does not exist. *)
Definition armv7 : state :=
  start (configured [("inspect", Answer 1 ""); ("save", Answer 1 "")]
           [Line "3"; Line "n"]).

(** A first pull that goes through. *)
Definition first_pull : state :=
  start (configured [("inspect", Answer 1 "")] plain_keys).

(** At the mirror menu, with two mirrors configured. *)
Definition at_menu (keys : list keyboard) : state :=
  {| self := {| remote_path := "/srv/stage";
                registry_mirrors := ["https://m1.example"; "https://m2.example"];
                image_info := image_info pulled |};
     env := configured [] keys |}.

(** A configuration whose mirror entry holds commas and spaces only. *)
Definition no_mirrors : gmap string string :=
  {[ "remote_path" := "/srv/stage"; "registry_mirrors" := " , ,, " ]}.

(** The configuration file is there but is no configuration. *)
Definition broken_config : state :=
  start (world_with {[ CONFIG_FILE := Data "not a configuration" ]} []
           plain_keys).

(** A first pull through the second mirror. *)
Definition mirrored_pull : state :=
  start (configured [("inspect", Answer 1 "")] [Line "1"; Line "2"]).

(** [nginx:latest] has been pulled through the first mirror. *)
Definition through_mirror : manager :=
  {| remote_path := "/srv/stage";
     registry_mirrors := ["https://m1.example"; "https://m2.example"];
     image_info :=
       {| original_name := "nginx"; original_tag := "latest";
          arch := "amd64"; mirror := Some "https://m1.example";
          tar_name := ""; zip_name := "";
          pulled_ref := "https://m1.example/library/nginx:latest" |} |}.

(** The runtime renames without trouble, or refuses the new tag. *)
Definition renaming : state :=
  {| self := through_mirror; env := configured [] [] |}.

Definition tag_refused : state :=
  {| self := through_mirror; env := configured [("tag", Answer 1 "")] [] |}.

(** The names are generated; the image is saved, or the runtime reports
    success without writing anything, or it fails. *)
Definition saving : state :=
  {| self := pulled; env := configured [] [] |}.

Definition save_writes_nothing : state :=
  {| self := pulled;
     env := {| files := ∅; stdin := []; trace := [];
               respond := fun _ _ fs => Completed 0 "" fs;
               clock := fun _ => morning; locate := from_here |} |}.

Definition save_fails : state :=
  {| self := pulled; env := configured [("save", Answer 1 "")] [] |}.

(** The tar file is there, ready to be wrapped. *)
Definition saved : state :=
  {| self := pulled;
     env := world_with {[ tar_name (image_info pulled) := Data "image" ]} [] [] |}.





(** A machine configured to stage into the working directory, with no
    mirror; the operator asks for [amd64]. *)
Definition config_here : gmap string string :=
  {[ "remote_path" := "."; "registry_mirrors" := "" ]}.

Definition staged_here : state :=
  start (world_with {[ CONFIG_FILE := Ini config_here ]}
           [("inspect", Answer 1 "")] [Line "1"]).

(** A number of [n] digits. *)
Fixpoint ones (n : nat) : string :=
  match n with
  | O => EmptyString
  | S n' => String "1" (ones n')
  end.

(** Options that refer to one another, ten deep and eleven deep. *)
Definition nested (last : string) : gmap string string :=
  {[ "a1" := "%(a2)s"; "a2" := "%(a3)s"; "a3" := "%(a4)s"; "a4" := "%(a5)s";
     "a5" := "%(a6)s"; "a6" := "%(a7)s"; "a7" := "%(a8)s"; "a8" := "%(a9)s";
     "a9" := "%(a10)s"; "a10" := last; "a11" := "100%%" ]}.

(** No container uses the image, and [rmi] removes it. *)
Definition unused : state :=
  {| self := pulled; env := configured [] [] |}.

(** [ps] fails and prints nothing. *)
Definition ps_fails : state :=
  {| self := pulled; env := configured [("ps", Answer 1 "")] [] |}.

(** The same machine one second later. *)
Definition a_second_later : state :=
  {| self := pulled;
     env := {| files := ∅; stdin := []; trace := [];
               respond := fun _ _ fs => Completed 0 "" fs;
               clock := fun _ =>
                 {| year := 2024; month := 3; day := 9;
                    hour := 7; minute := 5; second := 1 |};
               locate := from_here |} |}.

End Sample.

(** ** Vocabulary of the statements *)


(** First and last character of a string. *)
Definition first (s : string) : option ascii :=
  match s with
  | EmptyString => None
  | String c _ => Some c
  end.

Fixpoint last (s : string) : option ascii :=
  match s with
  | EmptyString => None
  | String c EmptyString => Some c
  | String _ s' => last s'
  end.

(** [s] neither starts nor ends with white space. *)
Definition trimmed (s : string) : Prop :=
  (forall c, first s = Some c -> Chr.is_space c = false)
  /\ (forall c, last s = Some c -> Chr.is_space c = false).


(** [clean] is [raw] with every character outside [[a-zA-Z0-9_./-]]
    replaced by an underscore, position by position. *)
Definition sanitized_from (raw clean : string) : Prop :=
  String.length clean = String.length raw
  /\ forall k c, String.get k raw = Some c ->
       String.get k clean = Some (if Chr.name_char c then c else "_"%char).

(** What [parse_image_input] leaves in [self.image_info]. *)
Definition parsed (name : string) (tag : option string) (i : info) : info :=
  {| original_name := Str.sub_class (fun c => negb (Chr.name_char c)) name;
     original_tag := default (original_tag i) tag;
     arch := arch i; mirror := mirror i; tar_name := tar_name i;
     zip_name := zip_name i; pulled_ref := pulled_ref i |}.

(** The commands run between two states. *)
Definition new_events (st st' : state) : list event :=
  drop (length (trace (env st))) (trace (env st')).

(** A removal was booked with [at]. *)
Definition scheduled (l : list event) : Prop :=
  exists ref time, Shell (at_command ref time) ∈ l.

(** The image was removed, or at least [rmi] was tried. *)
Definition removal_tried (l : list event) : Prop :=
  exists ref, Run [DOCKER_CLI; "rmi"; ref] ∈ l.

(** The documented pattern [<name>_<tag>_<arch>_<timestamp>] for the
    record [i], with [:] and [/] of the name replaced, at time [d]. *)
Definition base_name (i : info) (d : datetime) : string :=
  Str.sub_class Chr.colon_or_slash (original_name i) +:+ "_"
  +:+ original_tag i +:+ "_" +:+ arch i +:+ "_" +:+ Date.stamp d.

(** The two file names of [i] follow the pattern for some time. *)
Definition names_follow (i : info) : Prop :=
  exists d, tar_name i = base_name i d +:+ ".tar"
            /\ zip_name i = base_name i d +:+ ".zip".

(** What [generate_filenames] leaves in [self.image_info] at time [d]. *)
Definition named (d : datetime) (i : info) : info :=
  {| original_name := original_name i; original_tag := original_tag i;
     arch := arch i; mirror := mirror i;
     tar_name := base_name i d +:+ ".tar";
     zip_name := base_name i d +:+ ".zip";
     pulled_ref := pulled_ref i |}.

(** The views of [self.image_info] that steps of [run] leave alone. *)
Definition file_names (i : info) : string * string :=
  (tar_name i, zip_name i).

Definition identity (i : info) : string * string * (string * string) :=
  (original_name i, original_tag i, file_names i).

(** Stages of a run, seen on [self.image_info]: the image was parsed as
    [name] and [tag], the file names being still [t] and [z]; the file
    names were generated from them. *)
Definition parsed_as (name tag t z : string) (st : state) : Prop :=
  identity (image_info (self st))
  = (Str.sub_class (fun c => negb (Chr.name_char c)) name, tag, (t, z)).

Definition generated (name tag : string) (st : state) : Prop :=
  original_name (image_info (self st))
  = Str.sub_class (fun c => negb (Chr.name_char c)) name
  /\ original_tag (image_info (self st)) = tag
  /\ names_follow (image_info (self st)).

(** The steps of [pipeline] up to the generation of the file names, and
    the steps that follow it. *)
Definition naming (image : option string) : M unit :=
  handle_config ;;
  (match image with
   | Some s => if Str.truthy s then parse_image_input s
               else input_str ← ask_image; parse_image_input input_str
   | None => input_str ← ask_image; parse_image_input input_str
   end) ;;
  select_architecture ;;
  select_mirror ;;
  pull_image ;;
  (i ← get_info; when_ (mirror_set i) rename_image) ;;
  generate_filenames.

Definition delivery : M unit :=
  create_tar_package ;;
  compress_to_zip ;;
  transfer_zip_file ;;
  clean_image ;;
  clean_temp_files.

(** A method that leaves [self] alone. *)
Definition frames {A} (m : M A) : Prop :=
  forall st, self (snd (m st)) = self st.

(** A method that leaves the view [f] of [self.image_info] alone. *)
Definition keeps {A B} (f : info -> B) (m : M A) : Prop :=
  forall st, f (image_info (self (snd (m st)))) = f (image_info (self st)).

(** From [P], method [m] ends in [Q] when it returns and in [E] when it
    raises or exits. *)
Definition post {A} (m : M A) (P Q E : state -> Prop) : Prop :=
  forall st, P st ->
    match m st with
    | (Ret _, st') => Q st'
    | (Raise _, st') => E st'
    | (Exit _, st') => E st'
    end.

(** A method that leaves the view [f] of [self] alone. *)
Definition keeps_self {A B} (f : manager -> B) (m : M A) : Prop :=
  forall st, f (self (snd (m st))) = f (self st).

(** A method that never ends the process. *)
Definition no_exit {A} (m : M A) : Prop :=
  forall st code, fst (m st) <> Exit code.

(** The architectures the menu of [select_architecture] offers. *)
Definition known_archs : list string := ["amd64"; "arm64"; "arm/v7"].

(** What is left of the typed lines is an end of what was there. *)
Definition consumed (st st' : state) : Prop :=
  stdin (env st') `suffix_of` stdin (env st).

(** White space or a comma: what an empty mirror entry is made of. *)
Definition blank (c : ascii) : bool := Chr.is_space c || Ascii.eqb c ",".

(** The mirror in [self.image_info] is one of the configured mirrors and
    is not the empty string, or there is none. *)
Definition mirror_ok (m : manager) : Prop :=
  match mirror (image_info m) with
  | None => True
  | Some x => x ∈ registry_mirrors m /\ x <> ""
  end.

(** The mirror list and the mirror, as steps of [run] leave them alone. *)
Definition mirrors_view (m : manager) : list string * option string :=
  (registry_mirrors m, mirror (image_info m)).

(** Neither temporary file of [self.image_info] exists. *)
Definition no_temp_files (st : state) : Prop :=
  files (env st) !! tar_name (image_info (self st)) = None
  /\ files (env st) !! zip_name (image_info (self st)) = None.

(** The reference and the command of [pull_image] for the record [i]. *)
Definition pull_ref (i : info) : string :=
  get_pull_reference i +:+ ":" +:+ original_tag i.

Definition pull_cmd (i : info) : event :=
  Popen [DOCKER_CLI; "pull"; "--platform"; "linux/" +:+ arch i; pull_ref i].

(** The canonical reference [<name>:<tag>] of the record [i]. *)
Definition original_ref (i : info) : string :=
  original_name i +:+ ":" +:+ original_tag i.

(** The two commands of [rename_image]. *)
Definition tag_cmd (i : info) : event :=
  Run [DOCKER_CLI; "tag"; pulled_ref i; original_ref i].

Definition untag_cmd (i : info) : event :=
  Run [DOCKER_CLI; "rmi"; pulled_ref i].

(** The state after command [ev] has run and left the files [fs]. *)
Definition after_cmd (ev : event) (fs : gmap string content) (st : state)
    : state :=
  with_env (fun w => with_files (fun _ => fs) (log ev w)) st.

(** [self.image_info] with another [pulled_ref]. *)
Definition repulled (ref : string) (i : info) : info :=
  {| original_name := original_name i; original_tag := original_tag i;
     arch := arch i; mirror := mirror i; tar_name := tar_name i;
     zip_name := zip_name i; pulled_ref := ref |}.

(** The image is known to the runtime under its canonical name. *)
Definition canonical (st : state) : Prop :=
  pulled_ref (image_info (self st)) = original_ref (image_info (self st)).

(** The command of [create_tar_package]. *)
Definition save_cmd (i : info) : event :=
  Run [DOCKER_CLI; "save"; "-o"; tar_name i; pulled_ref i].

(** Where [transfer_zip_file] puts the archive. *)
Definition destination (m : manager) : string :=
  Str.path_join (remote_path m) (zip_name (image_info m)).

(** A time whose fields below the year take two digits. *)
Definition two_digit_fields (d : datetime) : Prop :=
  (month d < 100 /\ day d < 100 /\ hour d < 100 /\ minute d < 100
   /\ second d < 100)%nat.

(** * Properties *)

(** ** The helpers on sample inputs, as CPython answers on them *)

Example split_samples :
  Str.split "," "a,,b, " = ["a"; ""; "b"; " "]
  /\ Str.split "," "" = [""]
  /\ Str.split ":" "x" = ["x"]
  /\ Str.split1 ":" "a:b:c" = ["a"; "b:c"]
  /\ Str.split1 ":" ":" = [""; ""].
Proof. repeat split. Qed.

Example strip_samples :
  Str.strip (" " +:+ Sample.line " a b ") = "a b"
  /\ Str.strip (Sample.line " ") = ""
  /\ Str.lower "N" = "n"
  /\ Str.isdigit "01" = true /\ Str.int "01" = Some 1
  /\ Str.isdigit "" = false /\ Str.isdigit "1_2" = false
  /\ Str.isdigit (String (ascii_of_nat 185) "") = true
  /\ Str.int (String (ascii_of_nat 185) "") = None.
Proof. repeat split. Qed.

Example path_samples :
  Str.path_join "/tmp/x" "a.zip" = "/tmp/x/a.zip"
  /\ Str.path_join "/tmp/x/" "a.zip" = "/tmp/x/a.zip"
  /\ Str.path_join "" "a.zip" = "a.zip"
  /\ Str.path_join "/tmp" "/a.zip" = "/a.zip"
  /\ Str.basename "a/b/c.tar" = "c.tar"
  /\ Str.basename "c.tar" = "c.tar"
  /\ Str.basename "a/" = "".
Proof. repeat split. Qed.

Example sub_samples :
  Str.sub_class (fun c => negb (Chr.name_char c)) (Sample.line "a b/-._Z$")
  = "a_b/-._Z__"
  /\ Str.sub_class Chr.colon_or_slash "lib/nginx:x" = "lib_nginx_x".
Proof. repeat split. Qed.

Example search_digest_samples :
  Re.search_digest ("{" +:+ Re.digest_key +:+ " " +:+ Sample.q "sha256:abc" +:+ "}")
  = Some "sha256:abc"
  /\ Re.search_digest (Re.digest_key +:+ Sample.q "a:b:c") = None
  /\ Re.search_digest (Re.digest_key +:+ Sample.line " " +:+ Sample.q "a_1:z" +:+ "x")
     = Some "a_1:z"
  /\ Re.search_digest (Re.digest_key +:+ " " +:+ Sample.q "a:") = None
  /\ Re.search_digest (Re.digest_key +:+ Re.digest_key +:+ Sample.q "x:y")
     = Some "x:y"
  /\ Re.search_digest (Re.digest_key +:+ " " +:+ Sample.q ":a" +:+ " "
                       +:+ Re.digest_key +:+ Sample.q "q:r") = Some "q:r"
  /\ Re.search_digest (Re.digest_key +:+ " " +:+ Re.quote +:+ "a:b") = None
  /\ Re.search_job (Sample.line "warning" +:+ "job 12 at Tue") = Some "12"
  /\ Re.search_job "job x job 7a" = Some "7"
  /\ Re.search_job "jobs" = None.
Proof. vm_compute. repeat split. Qed.

Example date_samples :
  Date.stamp Sample.morning = "20240309_070500"
  /\ (Date.at_time <$> Date.plus_24h Sample.morning) = Some "07:05 2024-03-10"
  /\ (Date.at_time <$> Date.plus_24h
        {| year := 2024; month := 2; day := 28;
           hour := 23; minute := 59; second := 9 |}) = Some "23:59 2024-02-29"
  /\ (Date.at_time <$> Date.plus_24h
        {| year := 2023; month := 12; day := 31;
           hour := 0; minute := 0; second := 0 |}) = Some "00:00 2024-01-01".
Proof. vm_compute. repeat split. Qed.

(** ** Characters and strings *)

(** The class of [parse_image_input], one character at a time. *)
Lemma name_char_class (c : ascii) :
  Chr.name_char c =
  Str.contains c
    "abcdefghijklmnopqrstuvwxyzABCDEFGHIJKLMNOPQRSTUVWXYZ0123456789_./-".
Proof. destruct c as [[] [] [] [] [] [] [] []]; reflexivity. Qed.

Lemma is_empty_true (s : string) : Str.is_empty s = true <-> s = "".
Proof. destruct s; simpl; split; intros; done. Qed.

Lemma truthy_true (s : string) : Str.truthy s = true <-> s <> "".
Proof. destruct s; simpl; split; intros; done. Qed.

Lemma append_cons (c : ascii) (a b : string) :
  String c a +:+ b = String c (a +:+ b).
Proof. reflexivity. Qed.

Lemma append_nil (b : string) : "" +:+ b = b.
Proof. reflexivity. Qed.

Lemma map_length (f : ascii -> ascii) (s : string) :
  String.length (Str.map f s) = String.length s.
Proof. induction s as [|c s IH]; simpl; congruence. Qed.

Lemma map_get (f : ascii -> ascii) (s : string) (k : nat) :
  String.get k (Str.map f s) = option_map f (String.get k s).
Proof.
  revert k; induction s as [|c s IH]; intros k; simpl; [reflexivity|].
  destruct k; simpl; [reflexivity | apply IH].
Qed.

Lemma contains_app (c : ascii) (a b : string) :
  Str.contains c (a +:+ b) = Str.contains c a || Str.contains c b.
Proof.
  induction a as [|x a IH]; simpl; [reflexivity|].
  rewrite IH. apply orb_assoc.
Qed.

Lemma contains_map_false (c : ascii) (f : ascii -> ascii) (s : string) :
  (forall x, f x <> c) -> Str.contains c (Str.map f s) = false.
Proof.
  intros Hf. induction s as [|x s IH]; simpl; [reflexivity|].
  rewrite IH, orb_false_r. apply Ascii.eqb_neq, Hf.
Qed.

(** [split(c, 1)] cuts at the first [c], and only there. *)
Lemma split1_cut (c : ascii) (s : string) :
  Str.contains c s = true ->
  exists a b, Str.split1 c s = [a; b]
              /\ s = a +:+ String c b /\ Str.contains c a = false.
Proof.
  induction s as [|x s IH]; simpl; [discriminate|].
  destruct (Ascii.eqb x c) eqn:E; simpl.
  - intros _. apply Ascii.eqb_eq in E as ->.
    exists "", s. repeat split.
  - intros H. destruct (IH H) as (a & b & -> & -> & Ha).
    exists (String x a), b. simpl. rewrite E, Ha. repeat split.
Qed.

Lemma split1_whole (c : ascii) (s : string) :
  Str.contains c s = false -> Str.split1 c s = [s].
Proof.
  induction s as [|x s IH]; simpl; [reflexivity|].
  destruct (Ascii.eqb x c); simpl; [discriminate|].
  intros H. rewrite (IH H). reflexivity.
Qed.

(** The first cut is unique: the part before it holds no [c]. *)
Lemma cut_unique (c : ascii) (a b a' b' : string) :
  a +:+ String c b = a' +:+ String c b' ->
  Str.contains c a = false -> Str.contains c a' = false ->
  a = a' /\ b = b'.
Proof.
  revert a'. induction a as [|x a IH]; intros [|y a']; simpl.
  - intros [= ->]. auto.
  - intros [= <- _] _. rewrite Ascii.eqb_refl. discriminate.
  - intros [= -> _]. rewrite Ascii.eqb_refl. discriminate.
  - intros [= -> H] Ha Ha'.
    apply orb_false_elim in Ha as [_ Ha], Ha' as [_ Ha'].
    destruct (IH _ H Ha Ha') as [-> ->]. auto.
Qed.

(** The pieces of [split] hold no separator, and joining them with the
    separator gives the string back. *)

Lemma split_nonempty (c : ascii) (s : string) : Str.split c s <> [].
Proof.
  destruct s as [|x s]; simpl; [discriminate|].
  destruct (Ascii.eqb x c); [discriminate|].
  destruct (Str.split c s); discriminate.
Qed.

Lemma split_pieces (c : ascii) (s : string) :
  Forall (fun p => Str.contains c p = false) (Str.split c s).
Proof.
  induction s as [|x s IH]; simpl; [repeat constructor|].
  destruct (Ascii.eqb x c) eqn:E; [constructor; [reflexivity | exact IH]|].
  destruct (Str.split c s) as [|h t]; [repeat constructor; simpl; now rewrite E|].
  inversion IH; subst. constructor; [simpl; rewrite E; assumption | assumption].
Qed.


(** [strip] removes white space at both ends, and all of it. *)
Lemma lstrip_cut (s : string) :
  exists l, s = l +:+ Str.lstrip s /\ Str.forallb Chr.is_space l = true.
Proof.
  induction s as [|c s (l & Hl & Hs)]; simpl; [exists ""; auto|].
  destruct (Chr.is_space c) eqn:E.
  - exists (String c l). simpl. rewrite append_cons, E, Hs, <- Hl. auto.
  - exists "". auto.
Qed.

Lemma lstrip_first (s : string) (c : ascii) :
  first (Str.lstrip s) = Some c -> Chr.is_space c = false.
Proof.
  induction s as [|x s IH]; simpl; [discriminate|].
  destruct (Chr.is_space x) eqn:E; [exact IH|].
  simpl. intros [= <-]. exact E.
Qed.

Lemma rstrip_cut (s : string) :
  exists r, s = Str.rstrip s +:+ r /\ Str.forallb Chr.is_space r = true.
Proof.
  induction s as [|c s (r & Hr & Hs)]; simpl; [exists ""; auto|].
  destruct (Chr.is_space c && Str.is_empty (Str.rstrip s)) eqn:E.
  - apply andb_prop in E as [Ec Ee]. apply is_empty_true in Ee.
    rewrite Ee in Hr. simpl in Hr. subst s.
    exists (String c r). simpl. rewrite Ec, Hs. auto.
  - exists r. rewrite append_cons, <- Hr. auto.
Qed.

Lemma rstrip_last (s : string) (c : ascii) :
  last (Str.rstrip s) = Some c -> Chr.is_space c = false.
Proof.
  induction s as [|x s IH]; simpl; [discriminate|].
  destruct (Chr.is_space x && Str.is_empty (Str.rstrip s)) eqn:E;
    [discriminate|].
  simpl. destruct (Str.rstrip s) as [|y r] eqn:R; [|exact IH].
  intros [= <-]. now rewrite andb_true_r in E.
Qed.

Lemma rstrip_first (s : string) (c : ascii) :
  first (Str.rstrip s) = Some c -> first s = Some c.
Proof.
  destruct s as [|x s]; simpl; [discriminate|].
  destruct (Chr.is_space x && Str.is_empty (Str.rstrip s)); [discriminate|].
  auto.
Qed.

Lemma strip_trimmed (s : string) : trimmed (Str.strip s).
Proof.
  split; intros c H.
  - apply rstrip_first in H. now apply lstrip_first in H.
  - now apply rstrip_last in H.
Qed.


(** The digest the regular expression captures holds a colon. *)
Lemma match_digest_at_colon (s g : string) :
  Re.match_digest_at s = Some g -> Str.contains ":" g = true.
Proof.
  unfold Re.match_digest_at. intros H.
  apply bind_Some in H as (r0 & _ & H).
  apply bind_Some in H as (r1 & _ & H).
  destruct (Str.span Chr.is_word r1) as [w1 r2].
  destruct (Str.is_empty w1); [discriminate|].
  apply bind_Some in H as (r3 & _ & H).
  destruct (Str.span Chr.is_word r3) as [w2 r4].
  destruct (Str.is_empty w2); [discriminate|].
  apply bind_Some in H as (r5 & _ & [= <-]).
  rewrite contains_app. apply orb_true_r.
Qed.

Lemma search_digest_eq (s : string) :
  Re.search_digest s =
  match Re.match_digest_at s with
  | Some g => Some g
  | None =>
      match s with
      | EmptyString => None
      | String _ s' => Re.search_digest s'
      end
  end.
Proof. destruct s; reflexivity. Qed.

Lemma search_digest_colon (s g : string) :
  Re.search_digest s = Some g -> Str.contains ":" g = true.
Proof.
  induction s as [|c s IH]; rewrite search_digest_eq;
    destruct (Re.match_digest_at _) eqn:E;
    try discriminate; try exact IH;
    intros [= <-]; eapply match_digest_at_colon, E.
Qed.

(** ** The monad *)

Lemma bind_run {A B} (m : M A) (k : A -> M B) (st : state) :
  (m ≫= k) st =
  match m st with
  | (Ret a, st') => k a st'
  | (Raise e, st') => (Raise e, st')
  | (Exit code, st') => (Exit code, st')
  end.
Proof. reflexivity. Qed.

Lemma frames_sys_exit {A} (code : Z) : frames (@sys_exit A code).
Proof. intros st. reflexivity. Qed.

Lemma frames_ret {A} (a : A) : frames (mret a).
Proof. intros st. reflexivity. Qed.

Lemma frames_raise {A} (e : exn) : frames (@raise A e).
Proof. intros st. reflexivity. Qed.

Lemma frames_bind {A B} (m : M A) (k : A -> M B) :
  frames m -> (forall a, frames (k a)) -> frames (m ≫= k).
Proof.
  intros Hm Hk st. rewrite bind_run. specialize (Hm st).
  destruct (m st) as [[a|e|c] st']; simpl in *; [|exact Hm..].
  now rewrite Hk.
Qed.

Lemma frames_try {A} (m : M A) (h : exn -> option (M A)) :
  frames m -> (forall e k, h e = Some k -> frames k) ->
  frames (try_except m h).
Proof.
  intros Hm Hh st. unfold try_except. specialize (Hm st).
  destruct (m st) as [[a|e|c] st']; simpl in *; [exact Hm| |exact Hm].
  destruct (h e) as [k|] eqn:E; [|exact Hm].
  now rewrite (Hh _ _ E).
Qed.

Lemma frames_when (b : bool) (m : M unit) : frames m -> frames (when_ b m).
Proof. destruct b; [auto | intros _ st; reflexivity]. Qed.

Lemma frames_keeps {A B} (f : info -> B) (m : M A) : frames m -> keeps f m.
Proof. intros H st. now rewrite H. Qed.

Lemma keeps_bind {A B C} (f : info -> C) (m : M A) (k : A -> M B) :
  keeps f m -> (forall a, keeps f (k a)) -> keeps f (m ≫= k).
Proof.
  intros Hm Hk st. rewrite bind_run. specialize (Hm st).
  destruct (m st) as [[a|e|c] st']; simpl in *; [|exact Hm..].
  now rewrite Hk.
Qed.

Lemma post_bind {A B} (m : M A) (k : A -> M B) (P Q R E : state -> Prop) :
  post m P Q E -> (forall a, post (k a) Q R E) -> post (m ≫= k) P R E.
Proof.
  intros Hm Hk st HP. rewrite bind_run. specialize (Hm st HP).
  destruct (m st) as [[a|e|c] st']; [|exact Hm..].
  now apply Hk.
Qed.

Lemma post_weaken {A} (m : M A) (P P' Q Q' E E' : state -> Prop) :
  post m P Q E ->
  (forall st, P' st -> P st) -> (forall st, Q st -> Q' st) ->
  (forall st, E st -> E' st) -> post m P' Q' E'.
Proof.
  intros H HP HQ HE st HP'. specialize (H st (HP _ HP')).
  destruct (m st) as [[a|e|c] st']; auto.
Qed.

Lemma post_keeps {A B} (f : info -> B) (m : M A) (v : B) :
  keeps f m ->
  post m (fun st => f (image_info (self st)) = v)
         (fun st => f (image_info (self st)) = v)
         (fun st => f (image_info (self st)) = v).
Proof.
  intros H st Hv. specialize (H st).
  destruct (m st) as [[a|e|c] st']; simpl in *; congruence.
Qed.

Lemma keeps_try {A B} (f : info -> B) (m : M A) (h : exn -> option (M A)) :
  keeps f m -> (forall e k, h e = Some k -> keeps f k) ->
  keeps f (try_except m h).
Proof.
  intros Hm Hh st. unfold try_except. specialize (Hm st).
  destruct (m st) as [[a|e|c] st']; simpl in *; [exact Hm| |exact Hm].
  destruct (h e) as [k|] eqn:E; [|exact Hm].
  now rewrite (Hh _ _ E).
Qed.

Lemma keeps_when {B} (f : info -> B) (b : bool) (m : M unit) :
  keeps f m -> keeps f (when_ b m).
Proof. destruct b; [auto | intros _ st; reflexivity]. Qed.

(** ** Primitives leave [self] alone *)

Lemma frames_get_self : frames get_self.
Proof. intros st; reflexivity. Qed.

Lemma frames_get_info : frames get_info.
Proof. intros st; reflexivity. Qed.

Lemma frames_os_path_exists p : frames (os_path_exists p).
Proof. intros st; reflexivity. Qed.

Lemma frames_os_remove p : frames (os_remove p).
Proof. intros st; unfold os_remove; case_match; reflexivity. Qed.

Lemma frames_write_file p c : frames (write_file p c).
Proof. intros st; unfold write_file; case_match; reflexivity. Qed.

Lemma frames_read_file p : frames (read_file p).
Proof. intros st; unfold read_file; case_match; reflexivity. Qed.

Lemma frames_os_makedirs p : frames (os_makedirs p).
Proof. intros st; unfold os_makedirs; repeat case_match; reflexivity. Qed.

Lemma frames_shutil_move a b : frames (shutil_move a b).
Proof. intros st; unfold shutil_move; case_match; reflexivity. Qed.

Lemma frames_datetime_now : frames datetime_now.
Proof. intros st; reflexivity. Qed.

Lemma frames_spawn ev : frames (spawn ev).
Proof. intros st; unfold spawn; case_match; reflexivity. Qed.

Lemma frames_prompt_loop {A} (f : string -> decision A) : frames (prompt_loop f).
Proof. intros st; unfold prompt_loop; case_match; reflexivity. Qed.

Lemma frames_item1 l : frames (item1 l).
Proof. intros st; unfold item1; case_match; reflexivity. Qed.

Lemma frames_group1 m : frames (group1 m).
Proof. intros st; unfold group1; case_match; reflexivity. Qed.

Create HintDb frames.

#[export] Hint Resolve frames_ret frames_raise frames_sys_exit frames_get_self frames_get_info
  frames_os_path_exists frames_os_remove frames_write_file frames_read_file
  frames_os_makedirs frames_shutil_move frames_datetime_now frames_spawn
  frames_prompt_loop frames_item1 frames_group1 : frames.

(** One step of a proof that a method leaves [self], or a view of
    [self.image_info], alone: follow the structure of the method. *)
Ltac handler_cases :=
  let e := fresh "e" in
  let k := fresh "k" in
  let H := fresh "H" in
  intros e k H; destruct e as [|[]]; simpl in H;
  try discriminate; injection H as <-.

Ltac frames_step :=
  match goal with
  | |- frames (_ ≫= _) => apply frames_bind; [|intros ?]
  | |- frames (try_except _ _) => apply frames_try; [|handler_cases]
  | |- frames (when_ _ _) => apply frames_when
  | |- frames (match ?x with _ => _ end) => destruct x
  | |- frames _ => solve [auto with frames]
  end.

Ltac keeps_step :=
  match goal with
  | |- keeps _ (_ ≫= _) => apply keeps_bind; [|intros ?]
  | |- keeps _ (try_except _ _) => apply keeps_try; [|handler_cases]
  | |- keeps _ (when_ _ _) => apply keeps_when
  | |- keeps _ (match ?x with _ => _ end) => destruct x
  | |- keeps _ _ => solve [apply frames_keeps; auto with frames]
  | |- keeps _ _ => solve [intros st; reflexivity]
  end.

Lemma frames_os_path_getsize p : frames (os_path_getsize p).
Proof. unfold os_path_getsize. repeat frames_step. Qed.

Lemma frames_subprocess_run argv : frames (subprocess_run argv).
Proof. apply frames_spawn. Qed.

Lemma frames_subprocess_run_check argv : frames (subprocess_run_check argv).
Proof. unfold subprocess_run_check. repeat frames_step. Qed.

#[export] Hint Resolve frames_os_path_getsize frames_subprocess_run
  frames_subprocess_run_check : frames.

Lemma frames_create_config_template : frames create_config_template.
Proof. unfold create_config_template. auto with frames. Qed.

Lemma frames_config_get d o f : frames (config_get d o f).
Proof. intros st; unfold config_get; case_match; reflexivity. Qed.

Lemma frames_config_read p : frames (config_read p).
Proof. unfold config_read. repeat frames_step. Qed.

Lemma frames_check_image_update_body : frames check_image_update_body.
Proof. unfold check_image_update_body. repeat frames_step. Qed.

Lemma frames_check_image_update : frames check_image_update.
Proof.
  unfold check_image_update, except_Exception.
  pose proof frames_check_image_update_body. repeat frames_step.
Qed.

Lemma frames_create_tar_package : frames create_tar_package.
Proof. unfold create_tar_package. repeat frames_step. Qed.

Lemma frames_compress_to_zip : frames compress_to_zip.
Proof. unfold compress_to_zip, except_Exception. repeat frames_step. Qed.

Lemma frames_transfer_zip_file : frames transfer_zip_file.
Proof. unfold transfer_zip_file, except_Exception. repeat frames_step. Qed.

Lemma frames_clean_temp_files : frames clean_temp_files.
Proof. unfold clean_temp_files. repeat frames_step. Qed.

Lemma frames_check_container_usage : frames check_container_usage.
Proof. unfold check_container_usage. repeat frames_step. Qed.

Lemma frames_schedule_cleanup : frames schedule_cleanup.
Proof. unfold schedule_cleanup, except_Exception. repeat frames_step. Qed.

#[export] Hint Resolve frames_create_config_template frames_config_read
  frames_config_get frames_check_image_update frames_create_tar_package
  frames_compress_to_zip frames_transfer_zip_file frames_clean_temp_files
  frames_check_container_usage frames_schedule_cleanup : frames.

Lemma frames_clean_image : frames clean_image.
Proof.
  unfold clean_image, except_CalledProcessError. repeat frames_step.
Qed.

Lemma frames_ask_image : frames ask_image.
Proof. apply frames_prompt_loop. Qed.

#[export] Hint Resolve frames_clean_image frames_ask_image : frames.

(** ** Clean-up of the temporary files *)

Lemma with_files_id (f : gmap string content -> gmap string content) (st : state) :
  f (files (env st)) = files (env st) -> with_env (with_files f) st = st.
Proof.
  destruct st as [m [fs ? ? ? ? ?]]; unfold with_env, with_files; simpl.
  intros ->. reflexivity.
Qed.

(** [if os.path.exists(p): os.remove(p)] never raises and deletes [p]. *)
Lemma guarded_remove (p : string) (st : state) :
  (b ← os_path_exists p; when_ b (os_remove p)) st
  = (Ret tt, with_env (with_files (delete p)) st).
Proof.
  rewrite bind_run.
  change (os_path_exists p st)
    with (Ret (bool_decide (is_Some (files (env st) !! p))), st).
  cbv iota beta. destruct (files (env st) !! p) eqn:E.
  - rewrite bool_decide_eq_true_2 by eauto.
    unfold when_, os_remove. now rewrite E.
  - rewrite bool_decide_eq_false_2 by (intros [? ?]; congruence).
    unfold when_. rewrite with_files_id; [reflexivity|].
    now apply delete_id.
Qed.

Lemma guarded_remove_then {A} (p : string) (k : M A) (st : state) :
  (b ← os_path_exists p; when_ b (os_remove p) ;; k) st
  = k (with_env (with_files (delete p)) st).
Proof.
  pose proof (guarded_remove p st) as H. rewrite bind_run in H.
  rewrite bind_run.
  destruct (os_path_exists p st) as [[b|e|c] st1]; [|discriminate..].
  rewrite bind_run. now rewrite H.
Qed.

Lemma clean_temp_files_eq (st : state) :
  clean_temp_files st =
  (Ret tt,
   with_env (with_files (fun fs =>
     delete (zip_name (image_info (self st)))
            (delete (tar_name (image_info (self st))) fs))) st).
Proof.
  unfold clean_temp_files. rewrite bind_run. cbn [get_info].
  rewrite guarded_remove_then, guarded_remove. reflexivity.
Qed.

(** C6: in every state of the file system [clean_temp_files] returns
    normally; afterwards neither the tar file nor the zip file exists,
    every other file is as it was, nothing but the files changed, and a
    second clean-up changes nothing. *)
Theorem clean_temp_files_removes_both (st : state) :
  let i := image_info (self st) in
  let st' := snd (clean_temp_files st) in
  fst (clean_temp_files st) = Ret tt
  /\ (forall p : string,
        files (env st') !! p =
        if bool_decide (p = tar_name i \/ p = zip_name i) then None
        else files (env st) !! p)
  /\ self st' = self st
  /\ stdin (env st') = stdin (env st)
  /\ trace (env st') = trace (env st)
  /\ clean_temp_files st' = (Ret tt, st').
Proof.
  cbv zeta. rewrite !clean_temp_files_eq. cbn [fst snd].
  cbn [self env with_env with_files files stdin trace].
  set (t := tar_name (image_info (self st))).
  set (z := zip_name (image_info (self st))).
  repeat split.
  - intros p. rewrite !lookup_delete.
    destruct (decide (z = p)) as [Hz|Hz], (decide (t = p)) as [Ht|Ht],
      (bool_decide_reflect (p = t \/ p = z)) as [H|H];
      try reflexivity; exfalso; intuition congruence.
  - f_equal. apply with_files_id. cbn [self env with_env with_files files].
    apply map_eq. intros p. rewrite !lookup_delete.
    destruct (decide (z = p)), (decide (t = p)); reflexivity.
Qed.

(** ** Parsing the image name *)

Lemma sub_class_sanitized (s : string) :
  sanitized_from s (Str.sub_class (fun c => negb (Chr.name_char c)) s).
Proof.
  split; [apply map_length|].
  intros k c H. unfold Str.sub_class. rewrite map_get, H. simpl.
  now destruct (Chr.name_char c).
Qed.

Lemma parse_image_input_colon (name tag : string) (st : state) :
  Str.contains ":" name = false ->
  parse_image_input (name +:+ ":" +:+ tag) st
  = (Ret tt, with_self (with_info (parsed name (Some tag))) st).
Proof.
  intros Hn. unfold parse_image_input.
  assert (Hc : Str.contains ":" (name +:+ ":" +:+ tag) = true).
  { rewrite contains_app. simpl. apply orb_true_r. }
  destruct (split1_cut _ _ Hc) as (a & b & Hs & Heq & Ha).
  destruct (cut_unique _ _ _ _ _ Heq Hn Ha) as [<- <-].
  rewrite Hc, Hs. reflexivity.
Qed.

Lemma parse_image_input_plain (s : string) (st : state) :
  Str.contains ":" s = false ->
  parse_image_input s st = (Ret tt, with_self (with_info (parsed s None)) st).
Proof. intros Hn. unfold parse_image_input. rewrite Hn. reflexivity. Qed.

(** C3: [parse_image_input] always returns.  An input with a colon is cut
    at its first colon: the tag is what follows it, the name is what
    precedes it; an input without a colon is the name, and the tag stays
    what it was, which is "latest" for the record [__init__] builds.  In
    both cases the name is stored with every character outside
    [[a-zA-Z0-9_./-]] replaced by an underscore. *)
Theorem parse_image_input_first_colon (image_input : string) (st : state) :
  let i := image_info (self st) in
  let i' := image_info (self (snd (parse_image_input image_input st))) in
  fst (parse_image_input image_input st) = Ret tt
  /\ (if Str.contains ":" image_input
      then exists name tag,
             image_input = name +:+ ":" +:+ tag
             /\ Str.contains ":" name = false
             /\ sanitized_from name (original_name i')
             /\ original_tag i' = tag
      else sanitized_from image_input (original_name i')
           /\ original_tag i' = original_tag i)
  /\ (if Str.contains ":" image_input then True
      else forall w,
        original_tag
          (image_info (self (snd (parse_image_input image_input (start w)))))
        = "latest")
  /\ (forall c, Chr.name_char c =
        Str.contains c
          "abcdefghijklmnopqrstuvwxyzABCDEFGHIJKLMNOPQRSTUVWXYZ0123456789_./-").
Proof.
  cbv zeta. destruct (Str.contains ":" image_input) eqn:Hc.
  - destruct (split1_cut _ _ Hc) as (a & b & _ & -> & Ha).
    change (a +:+ String ":" b) with (a +:+ ":" +:+ b).
    rewrite (parse_image_input_colon _ _ _ Ha).
    repeat split; [|apply name_char_class].
    exists a, b. repeat split; [assumption| apply map_length |].
    apply sub_class_sanitized.
  - rewrite (parse_image_input_plain _ _ Hc).
    repeat split; [apply map_length | apply sub_class_sanitized | |
                   apply name_char_class].
    intros w. now rewrite (parse_image_input_plain _ _ Hc).
Qed.

(** ** The reference that is pulled *)

(** C4: with a mirror selected, an image name without a slash is
    pulled as [<mirror>/library/<name>] and one with a slash as
    [<mirror>/<name>]; with no mirror the name is used as it is. *)
Theorem get_pull_reference_forms (i : info) :
  (forall m, mirror i = Some m -> m <> "" ->
     Str.contains "/" (original_name i) = false ->
     get_pull_reference i = m +:+ "/library/" +:+ original_name i)
  /\ (forall m, mirror i = Some m -> m <> "" ->
     Str.contains "/" (original_name i) = true ->
     get_pull_reference i = m +:+ "/" +:+ original_name i)
  /\ (mirror i = None -> get_pull_reference i = original_name i).
Proof.
  unfold get_pull_reference. repeat split.
  - intros m -> Hm ->. apply truthy_true in Hm. now rewrite Hm.
  - intros m -> Hm ->. apply truthy_true in Hm. now rewrite Hm.
  - now intros ->.
Qed.

(** ** The version check *)

Lemma spawn_completed (ev : event) (st : state) rc out fs :
  respond (env st) (trace (env st)) ev (files (env st)) = Completed rc out fs ->
  spawn ev st =
  (Ret (rc, out), with_env (fun w => with_files (fun _ => fs) (log ev w)) st).
Proof. intros H. unfold spawn. now rewrite H. Qed.

(** What the body compares can never be equal: the local side is one
    piece of a split at colons, the remote side holds a colon. *)
Lemma digests_differ (out_local out_remote l r : string) :
  Str.split ":" out_local !! 1%nat = Some l ->
  Re.search_digest out_remote = Some r ->
  String.eqb l r = false.
Proof.
  intros Hl Hr. apply String.eqb_neq. intros ->.
  apply search_digest_colon in Hr.
  pose proof (split_pieces ":" out_local) as Hp.
  rewrite Forall_lookup in Hp. specialize (Hp _ _ Hl). simpl in Hp.
  congruence.
Qed.

Lemma check_image_update_body_true (st : state) (b : bool) :
  fst (check_image_update_body st) = Ret b -> b = true.
Proof.
  unfold check_image_update_body. rewrite bind_run. cbn [get_info].
  rewrite bind_run.
  destruct (subprocess_run _ st) as [[[rc out]|e|c] st1]; [|discriminate..].
  cbn [fst snd]. destruct (negb (rc =? 0)); [now intros [= <-]|].
  rewrite bind_run.
  destruct (subprocess_run _ st1) as [[[rc2 out2]|e|c] st2]; [|discriminate..].
  cbn [fst snd]. destruct (negb (rc2 =? 0)); [now intros [= <-]|].
  rewrite bind_run. unfold item1.
  destruct (Str.split ":" (Str.strip out) !! 1%nat) as [l|] eqn:El;
    [|discriminate].
  cbn [mret M_ret]. rewrite bind_run. unfold group1.
  destruct (Re.search_digest out2) as [r|] eqn:Er; [|discriminate].
  cbn [mret M_ret fst]. rewrite (digests_differ _ _ _ _ El Er).
  now intros [= <-].
Qed.

(** The check never answers "up to date". *)
Lemma check_image_update_never_false (st : state) :
  fst (check_image_update st) <> Ret false.
Proof.
  unfold check_image_update, try_except.
  pose proof (check_image_update_body_true st) as H.
  destruct (check_image_update_body st) as [[b|e|c] st1]; cbn [fst] in *.
  - rewrite (H b eq_refl). discriminate.
  - destruct e as [|err]; cbn; discriminate.
  - discriminate.
Qed.

Lemma check_image_update_catches (st : state) (err : error) :
  fst (check_image_update_body st) = Raise (Exception err) ->
  check_image_update st = (Ret true, snd (check_image_update_body st)).
Proof.
  unfold check_image_update, try_except.
  destruct (check_image_update_body st) as [[b|e|c] st1]; cbn [fst snd];
    [discriminate| |discriminate].
  now intros [= ->].
Qed.

(** When both commands succeed and both digests can be read, the check
    answers by comparing them as strings. *)
Lemma check_image_update_compares (st : state) out fs out' fs' l r :
  let i := image_info (self st) in
  let w := env st in
  respond w (trace w) (Run (inspect_cmd i)) (files w) = Completed 0 out fs ->
  respond w (trace w ++ [Run (inspect_cmd i)]) (Run (manifest_cmd i)) fs
    = Completed 0 out' fs' ->
  Str.split ":" (Str.strip out) !! 1%nat = Some l ->
  Re.search_digest out' = Some r ->
  fst (check_image_update st) = Ret (negb (String.eqb l r)).
Proof.
  cbv zeta. intros H H' Hl Hr.
  unfold check_image_update, try_except, check_image_update_body.
  rewrite bind_run. cbn [get_info]. rewrite bind_run.
  unfold subprocess_run. rewrite (spawn_completed _ _ _ _ _ H).
  cbn [fst snd negb Z.eqb]. rewrite bind_run.
  erewrite spawn_completed by exact H'. cbn [fst snd negb Z.eqb].
  rewrite bind_run. unfold item1. rewrite Hl. cbn [mret M_ret].
  rewrite bind_run. unfold group1. rewrite Hr. reflexivity.
Qed.

(** C7: when the local inspect exits non-zero, when the manifest inspect
    exits non-zero, and when anything raised inside the check is an
    [Exception], [check_image_update] returns [True]; no [Exception]
    leaves it. *)
Theorem check_image_update_degrades (st : state) :
  let i := image_info (self st) in
  let w := env st in
  (forall rc out fs,
     respond w (trace w) (Run (inspect_cmd i)) (files w) = Completed rc out fs ->
     rc <> 0 -> fst (check_image_update st) = Ret true)
  /\ (forall out fs rc' out' fs',
     respond w (trace w) (Run (inspect_cmd i)) (files w) = Completed 0 out fs ->
     respond w (trace w ++ [Run (inspect_cmd i)]) (Run (manifest_cmd i)) fs
       = Completed rc' out' fs' ->
     rc' <> 0 -> fst (check_image_update st) = Ret true)
  /\ (forall err,
     fst (check_image_update_body st) = Raise (Exception err) ->
     fst (check_image_update st) = Ret true)
  /\ (forall err, fst (check_image_update st) <> Raise (Exception err)).
Proof.
  cbv zeta. repeat split.
  - intros rc out fs H Hrc.
    unfold check_image_update, try_except, check_image_update_body.
    rewrite bind_run. cbn [get_info]. rewrite bind_run.
    unfold subprocess_run. rewrite (spawn_completed _ _ _ _ _ H). cbn [fst].
    apply Z.eqb_neq in Hrc. now rewrite Hrc.
  - intros out fs rc' out' fs' H H' Hrc.
    unfold check_image_update, try_except, check_image_update_body.
    rewrite bind_run. cbn [get_info]. rewrite bind_run.
    unfold subprocess_run. rewrite (spawn_completed _ _ _ _ _ H). cbn [fst negb Z.eqb].
    rewrite bind_run. erewrite spawn_completed by exact H'. cbn [fst].
    apply Z.eqb_neq in Hrc. now rewrite Hrc.
  - intros err H. now rewrite (check_image_update_catches _ _ H).
  - intros err. unfold check_image_update, try_except.
    destruct (check_image_update_body st) as [[b|e|c] st1]; cbn [fst];
      [discriminate| |discriminate].
    destruct e as [|err']; cbn; discriminate.
Qed.

Lemma check_image_update_degrades_witness :
  fst (check_image_update Sample.not_local) = Ret true
  /\ fst (check_image_update Sample.offline) = Ret true
  /\ fst (check_image_update Sample.garbled) = Ret true.
Proof.
  split; [|split].
  - apply (proj1 (check_image_update_degrades Sample.not_local)
             1 "" (files (env Sample.not_local)));
      [reflexivity | discriminate].
  - apply (proj1 (proj2 (check_image_update_degrades Sample.offline))
             (Sample.line "sha256:0a1b2c3d") (files (env Sample.offline))
             1 "" (files (env Sample.offline)));
      [reflexivity | reflexivity | discriminate].
  - apply (proj1 (proj2 (proj2 (check_image_update_degrades Sample.garbled)))
             IndexError).
    vm_compute. reflexivity.
Defined.

(** C2, on a machine where the local image id and the remote manifest
    digest are both sha256:0a1b2c3d: the check compares "0a1b2c3d" with
    "sha256:0a1b2c3d", answers that an update is needed, and [pull_image]
    pulls. *)
Theorem check_image_update_same_digest_pulls :
  let st := Sample.up_to_date in
  let i := image_info (self st) in
  respond (env st) [] (Run (inspect_cmd i)) (files (env st))
    = Completed 0 (Sample.line "sha256:0a1b2c3d") (files (env st))
  /\ respond (env st) [Run (inspect_cmd i)] (Run (manifest_cmd i)) (files (env st))
    = Completed 0 (Sample.manifest "sha256:0a1b2c3d") (files (env st))
  /\ Str.split ":" (Str.strip (Sample.line "sha256:0a1b2c3d")) !! 1%nat
     = Some "0a1b2c3d"
  /\ Re.search_digest (Sample.manifest "sha256:0a1b2c3d")
     = Some "sha256:0a1b2c3d"
  /\ fst (check_image_update st) = Ret true
  /\ new_events st (snd (pull_image st))
     = [Run (inspect_cmd i); Run (manifest_cmd i);
        Popen [DOCKER_CLI; "pull"; "--platform"; "linux/amd64"; "nginx:latest"]].
Proof. vm_compute. repeat split. Qed.

(** ** Removing the image *)

Lemma spawn_trace (ev : event) (st : state) :
  trace (env (snd (spawn ev st))) = trace (env st) ++ [ev].
Proof. unfold spawn. case_match; reflexivity. Qed.

Lemma check_container_usage_events (st : state) :
  new_events st (snd (check_container_usage st))
  = [Run [DOCKER_CLI; "ps"; "-a"; "-q"; "--filter";
          "ancestor=" +:+ pulled_ref (image_info (self st))]].
Proof.
  unfold new_events, check_container_usage. rewrite bind_run. cbn [get_info].
  rewrite bind_run. unfold subprocess_run.
  pose proof (spawn_trace (Run [DOCKER_CLI; "ps"; "-a"; "-q"; "--filter";
          "ancestor=" +:+ pulled_ref (image_info (self st))]) st) as H.
  destruct (spawn _ st) as [[r|e|c] st1]; cbn [snd mret M_ret] in *;
    rewrite H; apply drop_app_length.
Qed.

Lemma clean_image_used (st : state) :
  fst (check_container_usage st) = Ret true ->
  clean_image st = (Ret tt, snd (check_container_usage st)).
Proof.
  unfold clean_image. rewrite bind_run.
  destruct (check_container_usage st) as [[b|e|c] st1]; cbn [fst snd];
    [|discriminate..].
  now intros [= ->].
Qed.

Lemma clean_image_rmi_fails (st : state) rc out fs :
  let st1 := snd (check_container_usage st) in
  let rmi := Run [DOCKER_CLI; "rmi"; pulled_ref (image_info (self st))] in
  fst (check_container_usage st) = Ret false ->
  respond (env st1) (trace (env st1)) rmi (files (env st1)) = Completed rc out fs ->
  rc <> 0 ->
  clean_image st =
  schedule_cleanup (with_env (fun w => with_files (fun _ => fs) (log rmi w)) st1).
Proof.
  cbv zeta. unfold clean_image. rewrite bind_run.
  pose proof (frames_check_container_usage st) as Hs.
  destruct (check_container_usage st) as [[b|e|c] st1]; cbn [fst snd] in *;
    [|discriminate..].
  intros [= ->] H Hrc. rewrite bind_run. cbn [get_info]. rewrite Hs.
  unfold try_except, subprocess_run_check. rewrite bind_run.
  rewrite (spawn_completed _ _ _ _ _ H). cbn [fst].
  apply Z.eqb_neq in Hrc. rewrite Hrc. reflexivity.
Qed.

Lemma check_container_usage_trace (st : state) :
  trace (env (snd (check_container_usage st)))
  = trace (env st)
    ++ [Run [DOCKER_CLI; "ps"; "-a"; "-q"; "--filter";
             "ancestor=" +:+ pulled_ref (image_info (self st))]].
Proof.
  unfold check_container_usage. rewrite bind_run. cbn [get_info].
  rewrite bind_run. unfold subprocess_run.
  pose proof (spawn_trace (Run [DOCKER_CLI; "ps"; "-a"; "-q"; "--filter";
          "ancestor=" +:+ pulled_ref (image_info (self st))]) st) as H.
  destruct (spawn _ st) as [[r|e|c] st1]; cbn [snd mret M_ret] in *; exact H.
Qed.

(** [clean_image], path by path. *)
Lemma clean_image_cases (st : state) :
  let st1 := snd (check_container_usage st) in
  let rmi := Run [DOCKER_CLI; "rmi"; pulled_ref (image_info (self st))] in
  clean_image st =
  match fst (check_container_usage st) with
  | Ret true => (Ret tt, st1)
  | Ret false =>
      match respond (env st1) (trace (env st1)) rmi (files (env st1)) with
      | Completed rc out fs =>
          if rc =? 0 then (Ret tt, after_cmd rmi fs st1)
          else schedule_cleanup (after_cmd rmi fs st1)
      | Interrupted fs => (Raise KeyboardInterrupt, after_cmd rmi fs st1)
      | NotStarted => (Raise (Exception OSError), with_env (log rmi) st1)
      end
  | Raise e => (Raise e, st1)
  | Exit c => (Exit c, st1)
  end.
Proof.
  cbv zeta. unfold clean_image. rewrite bind_run.
  pose proof (frames_check_container_usage st) as Hs.
  destruct (check_container_usage st) as [[[]|e|c] st1]; cbn [fst snd] in *;
    try reflexivity.
  rewrite bind_run. cbn [get_info]. rewrite Hs.
  unfold try_except, subprocess_run_check. rewrite bind_run.
  unfold spawn, after_cmd.
  destruct (respond _ _ _ _) as [rc out fs|fs|]; cbn [fst]; try reflexivity.
  destruct (rc =? 0); reflexivity.
Qed.

(** The commands of [clean_image] when it does not get to
    [schedule_cleanup]: the usage query, and the removal if it was
    tried. *)
Lemma two_events (t : list event) (a b : event) :
  drop (length t) ((t ++ [a]) ++ [b]) = [a; b].
Proof. rewrite <- app_assoc. apply drop_app_length. Qed.

Lemma not_scheduled_two (a b : list string) : ~ scheduled [Run a; Run b].
Proof.
  intros (ref & time & Hin). apply list_elem_of_In in Hin.
  destruct Hin as [H|[H|[]]]; discriminate.
Qed.

Lemma not_scheduled_one (a : list string) : ~ scheduled [Run a].
Proof.
  intros (ref & time & Hin). apply list_elem_of_In in Hin.
  destruct Hin as [H|[]]; discriminate.
Qed.

(** C1 as the code has it: when a container references the image,
    [clean_image] runs the usage query and nothing else, so the image is
    neither removed nor booked for removal.  When no container references
    it, the immediate [rmi] is run: if it exits non-zero, the rest of
    [clean_image] is [schedule_cleanup]; if it exits with 0, nothing more
    is run.  A removal is booked with [at] during [clean_image] only on
    that one path: no container references the image and [rmi] exited
    non-zero.  The last part gives [clean_image] on every path:
    [schedule_cleanup] is reached on that path and on no other. *)
Theorem clean_image_keeps_image_in_use (st : state) :
  let i := image_info (self st) in
  let st1 := snd (check_container_usage st) in
  let ps := Run [DOCKER_CLI; "ps"; "-a"; "-q"; "--filter";
                 "ancestor=" +:+ pulled_ref i] in
  let rmi := Run [DOCKER_CLI; "rmi"; pulled_ref i] in
  (fst (check_container_usage st) = Ret true ->
     clean_image st = (Ret tt, st1)
     /\ new_events st (snd (clean_image st)) = [ps])
  /\ (forall rc out fs,
     fst (check_container_usage st) = Ret false ->
     respond (env st1) (trace (env st1)) rmi (files (env st1))
       = Completed rc out fs ->
     rc <> 0 ->
     clean_image st =
     schedule_cleanup
       (with_env (fun w => with_files (fun _ => fs) (log rmi w)) st1))
  /\ (forall out fs,
     fst (check_container_usage st) = Ret false ->
     respond (env st1) (trace (env st1)) rmi (files (env st1))
       = Completed 0 out fs ->
     clean_image st = (Ret tt, after_cmd rmi fs st1)
     /\ new_events st (snd (clean_image st)) = [ps; rmi])
  /\ (scheduled (new_events st (snd (clean_image st))) ->
     fst (check_container_usage st) = Ret false
     /\ exists rc out fs,
          respond (env st1) (trace (env st1)) rmi (files (env st1))
            = Completed rc out fs
          /\ rc <> 0)
  /\ clean_image st =
     match fst (check_container_usage st) with
     | Ret true => (Ret tt, st1)
     | Ret false =>
         match respond (env st1) (trace (env st1)) rmi (files (env st1)) with
         | Completed rc out fs =>
             if rc =? 0 then (Ret tt, after_cmd rmi fs st1)
             else schedule_cleanup (after_cmd rmi fs st1)
         | Interrupted fs => (Raise KeyboardInterrupt, after_cmd rmi fs st1)
         | NotStarted => (Raise (Exception OSError), with_env (log rmi) st1)
         end
     | Raise e => (Raise e, st1)
     | Exit c => (Exit c, st1)
     end.
Proof.
  cbv zeta. split; [|split; [|split; [|split; [|apply clean_image_cases]]]].
  - intros H. rewrite (clean_image_used _ H). split; [reflexivity|].
    apply check_container_usage_events.
  - intros rc out fs. apply clean_image_rmi_fails.
  - intros out fs Hu H. pose proof (clean_image_cases st) as E.
    cbv zeta in E. rewrite Hu, H in E. cbn [Z.eqb] in E. rewrite E.
    split; [reflexivity|]. unfold new_events, after_cmd.
    cbn [snd env with_env with_files log trace].
    rewrite check_container_usage_trace. apply two_events.
  - pose proof (clean_image_cases st) as E. cbv zeta in E.
    pose proof (check_container_usage_events st) as Hps.
    pose proof (check_container_usage_trace st) as Ht.
    destruct (fst (check_container_usage st)) as [[]|e|c];
      try (rewrite E; cbn [snd]; rewrite Hps; intros H;
           now apply not_scheduled_one in H).
    destruct (respond _ _ _ _) as [rc out fs|fs|] eqn:Er.
    + destruct (rc =? 0) eqn:Erc.
      * rewrite E. unfold new_events, after_cmd.
        cbn [snd env with_env with_files log trace].
        rewrite Ht, two_events. intros H. now apply not_scheduled_two in H.
      * intros _. split; [reflexivity|]. exists rc, out, fs.
        split; [reflexivity|]. now apply Z.eqb_neq.
    + rewrite E. unfold new_events, after_cmd.
      cbn [snd env with_env with_files log trace].
      rewrite Ht, two_events. intros H. now apply not_scheduled_two in H.
    + rewrite E. unfold new_events.
      cbn [snd env with_env with_files log trace].
      rewrite Ht, two_events. intros H. now apply not_scheduled_two in H.
Qed.

Lemma clean_image_keeps_image_in_use_witness :
  new_events Sample.in_use (snd (clean_image Sample.in_use))
  = [Run [DOCKER_CLI; "ps"; "-a"; "-q"; "--filter"; "ancestor=nginx:latest"]]
  /\ new_events Sample.stuck (snd (clean_image Sample.stuck))
  = [Run [DOCKER_CLI; "ps"; "-a"; "-q"; "--filter"; "ancestor=nginx:latest"];
     Run [DOCKER_CLI; "rmi"; "nginx:latest"];
     Shell (at_command "nginx:latest" "07:05 2024-03-10")]
  /\ new_events Sample.unused (snd (clean_image Sample.unused))
  = [Run [DOCKER_CLI; "ps"; "-a"; "-q"; "--filter"; "ancestor=nginx:latest"];
     Run [DOCKER_CLI; "rmi"; "nginx:latest"]].
Proof.
  split; [|split].
  - apply (proj1 (clean_image_keeps_image_in_use Sample.in_use)).
    reflexivity.
  - rewrite (proj1 (proj2 (clean_image_keeps_image_in_use Sample.stuck)) 1 ""
               (files (env Sample.stuck)));
      [reflexivity | reflexivity | reflexivity | discriminate].
  - apply (proj1 (proj2 (proj2 (clean_image_keeps_image_in_use Sample.unused)))
             "" (files (env Sample.unused))); reflexivity.
Defined.

(** C1 as stated fails: a container uses the image, and [clean_image]
    books no removal. *)
Lemma clean_image_in_use_books_nothing :
  ~ (fst (check_container_usage Sample.in_use) = Ret true ->
     ~ removal_tried (new_events Sample.in_use (snd (clean_image Sample.in_use)))
     /\ scheduled (new_events Sample.in_use (snd (clean_image Sample.in_use)))).
Proof.
  intros H. destruct (H eq_refl) as [_ (ref & time & Hin)].
  assert (E : new_events Sample.in_use (snd (clean_image Sample.in_use))
              = [Run [DOCKER_CLI; "ps"; "-a"; "-q"; "--filter";
                      "ancestor=nginx:latest"]]) by reflexivity.
  rewrite E in Hin. apply list_elem_of_singleton in Hin. discriminate.
Qed.

(** ** What the steps of [run] leave alone *)

Lemma keeps_handle_config {B} (f : info -> B) : keeps f handle_config.
Proof. unfold handle_config. repeat keeps_step. Qed.

Lemma keeps_select_architecture : keeps identity select_architecture.
Proof. unfold select_architecture. repeat keeps_step. Qed.

Lemma keeps_select_mirror : keeps identity select_mirror.
Proof. unfold select_mirror. repeat keeps_step. Qed.

Lemma keeps_pull_image : keeps identity pull_image.
Proof. unfold pull_image. repeat keeps_step. Qed.

Lemma keeps_rename_image : keeps identity rename_image.
Proof.
  unfold rename_image, except_CalledProcessError. repeat keeps_step.
Qed.

Lemma generate_filenames_eq (st : state) :
  generate_filenames st
  = (Ret tt,
     with_self (with_info (named (clock (env st) (trace (env st))))) st).
Proof. reflexivity. Qed.

Lemma post_frames {A} (m : M A) (Q : state -> Prop) :
  frames m -> (forall st st', self st' = self st -> Q st -> Q st') ->
  post m Q Q Q.
Proof.
  intros Hm HQ st H. specialize (Hm st).
  destruct (m st) as [[a|e|c] st']; cbn [snd] in Hm; eauto.
Qed.

Lemma post_any {A} (m : M A) :
  post m (fun _ => True) (fun _ => True) (fun _ => True).
Proof. intros st _. now destruct (m st) as [[a|e|c] st']. Qed.

(** [run] on a command line the parser accepts is the [try] statement. *)
Lemma run_args (image : option string) (st : state) :
  run (Args image) st
  = try_except (pipeline image)
      (fun e =>
         match e with
         | KeyboardInterrupt => Some (clean_temp_files ;; sys_exit 130)
         | Exception _ => Some (clean_temp_files ;; sys_exit 1)
         end) st.
Proof. reflexivity. Qed.

(** [run] ends where [pipeline] ends, as far as [self] goes. *)
Lemma run_self (image : option string) (st : state) :
  self (snd (run (Args image) st)) = self (snd (pipeline image st)).
Proof.
  rewrite run_args. unfold try_except.
  destruct (pipeline image st) as [[a|e|c] st1]; [reflexivity| |reflexivity].
  destruct e as [|err]; cbn [snd];
    rewrite bind_run; rewrite clean_temp_files_eq; reflexivity.
Qed.

Lemma bind_assoc_run {A B C} (m : M A) (f : A -> M B) (g : B -> M C)
    (st : state) :
  ((m ≫= f) ≫= g) st = (m ≫= (fun a => f a ≫= g)) st.
Proof. rewrite !bind_run. now destruct (m st) as [[a|e|c] st1]. Qed.

Lemma bind_ext_run {A B} (m : M A) (f g : A -> M B) (st : state) :
  (forall a st1, f a st1 = g a st1) -> (m ≫= f) st = (m ≫= g) st.
Proof. intros H. rewrite !bind_run. now destruct (m st) as [[a|e|c] st1]. Qed.

(** [pipeline] is [naming] followed by [delivery]. *)
Lemma pipeline_split (image : option string) (st : state) :
  pipeline image st = (naming image ;; delivery) st.
Proof.
  unfold pipeline, naming, delivery. symmetry.
  do 6 (rewrite bind_assoc_run; apply bind_ext_run; clear st; intros _ st).
  reflexivity.
Qed.

Lemma frames_delivery : frames delivery.
Proof. unfold delivery. repeat frames_step. Qed.

(** Once the names are generated, [self] stays as it is to the end of
    [run]. *)
Lemma run_self_named (image : option string) (st : state) :
  fst (naming image st) = Ret tt ->
  self (snd (run (Args image) st)) = self (snd (naming image st)).
Proof.
  intros H. rewrite run_self, pipeline_split, bind_run.
  destruct (naming image st) as [[[]|e|c] st1]; try discriminate.
  apply frames_delivery.
Qed.

Lemma post_step_keeps {A} (m : M A) (v : string * string * (string * string)) :
  keeps identity m ->
  post m (fun st => identity (image_info (self st)) = v)
         (fun st => identity (image_info (self st)) = v) (fun _ => True).
Proof.
  intros Hk. eapply post_weaken; [apply (post_keeps identity m v Hk)|..];
    auto.
Qed.

(** [naming] for an input with a colon: the name and the tag are those
    of the input, and the file names are made of them. *)
Lemma naming_generates (name tag : string) :
  Str.contains ":" name = false ->
  post (naming (Some (name +:+ ":" +:+ tag)))
       (fun _ => True) (generated name tag) (fun _ => True).
Proof.
  intros Hn. unfold naming.
  set (known := fun st => exists t z, parsed_as name tag t z st).
  apply post_bind with (Q := fun _ => True); [apply post_any|].
  intros _. apply post_bind with (Q := known).
  { intros st _. replace (Str.truthy (name +:+ ":" +:+ tag)) with true
      by (now destruct name).
    rewrite (parse_image_input_colon _ _ _ Hn).
    eexists _, _. reflexivity. }
  assert (Hstep : forall m : M unit, keeps identity m ->
            post m known known (fun _ => True)).
  { intros m Hm st (t & z & H).
    pose proof (post_step_keeps m _ Hm st H) as Hp.
    destruct (m st) as [[a|e|c] st1]; [|exact I..]. now exists t, z. }
  intros _. apply post_bind with (Q := known);
    [apply Hstep, keeps_select_architecture|].
  intros _. apply post_bind with (Q := known);
    [apply Hstep, keeps_select_mirror|].
  intros _. apply post_bind with (Q := known);
    [apply Hstep, keeps_pull_image|].
  intros _. apply post_bind with (Q := known).
  { apply Hstep. pose proof keeps_rename_image. repeat keeps_step. assumption. }
  intros _ st (t & z & H). rewrite generate_filenames_eq.
  unfold parsed_as, identity, generated in *. cbn.
  injection H as H1 H2 _. repeat split; [assumption..|].
  exists (clock (env st) (trace (env st))). split; reflexivity.
Qed.

(** C10: an input with a colon is stored with the text after its first
    colon as the tag, character for character.  [generate_filenames]
    puts the stored tag as it is between the name and the architecture of
    both file names.  In [run], whose pipeline is [naming] followed by
    [delivery], nothing between the two touches the tag: once the names
    are generated they are [<name>_<tag>_<arch>_<timestamp>.tar] and
    [.zip] with the very tag of the input, and they stay so to the end of
    [run]. *)
Theorem tag_is_kept_verbatim (image_input : string) (st : state) :
  Str.contains ":" image_input = true ->
  exists name tag,
    image_input = name +:+ ":" +:+ tag
    /\ Str.contains ":" name = false
    /\ fst (parse_image_input image_input st) = Ret tt
    /\ original_tag
         (image_info (self (snd (parse_image_input image_input st)))) = tag
    /\ (forall st1,
          original_tag (image_info (self st1)) = tag ->
          let i := image_info (self st1) in
          let i' := image_info (self (snd (generate_filenames st1))) in
          let base :=
            Str.sub_class Chr.colon_or_slash (original_name i)
            +:+ "_" +:+ tag +:+ "_" +:+ arch i +:+ "_"
            +:+ Date.stamp (clock (env st1) (trace (env st1))) in
          fst (generate_filenames st1) = Ret tt
          /\ original_tag i' = tag
          /\ tar_name i' = base +:+ ".tar"
          /\ zip_name i' = base +:+ ".zip")
    /\ (forall st0,
          pipeline (Some image_input) st0
          = (naming (Some image_input) ;; delivery) st0)
    /\ (fst (naming (Some image_input) st) = Ret tt ->
        let i' := image_info (self (snd (run (Args (Some image_input)) st))) in
        original_tag i' = tag
        /\ exists d,
             let base :=
               Str.sub_class Chr.colon_or_slash (original_name i')
               +:+ "_" +:+ tag +:+ "_" +:+ arch i' +:+ "_"
               +:+ Date.stamp d in
             tar_name i' = base +:+ ".tar"
             /\ zip_name i' = base +:+ ".zip").
Proof.
  intros Hc. destruct (split1_cut _ _ Hc) as (name & tag & _ & -> & Hn).
  change (name +:+ String ":" tag) with (name +:+ ":" +:+ tag).
  exists name, tag. split; [reflexivity|]. split; [assumption|].
  rewrite (parse_image_input_colon _ _ _ Hn). split; [reflexivity|].
  split; [reflexivity|]. split; [|split].
  - intros st1 Ht. cbv zeta. rewrite generate_filenames_eq.
    cbn [fst snd self with_self with_info image_info named original_tag
         tar_name zip_name]. unfold base_name. rewrite Ht. repeat split.
  - intros st0. apply pipeline_split.
  - intros Hr. cbv zeta. rewrite (run_self_named _ _ Hr).
    pose proof (naming_generates name tag Hn st I) as Hp.
    destruct (naming _ st) as [[[]|e|c] st1]; try discriminate.
    cbn [snd]. destruct Hp as (_ & Ht & d & H1 & H2).
    split; [exact Ht|]. exists d. unfold base_name in H1, H2.
    rewrite Ht in H1, H2. split; assumption.
Qed.

Lemma tag_is_kept_verbatim_witness :
  fst (naming (Some "registry:5000/team/app:v1") Sample.first_pull) = Ret tt
  /\ exists name tag,
    "registry:5000/team/app:v1" = name +:+ ":" +:+ tag
    /\ Str.contains ":" name = false
    /\ fst (parse_image_input "registry:5000/team/app:v1" Sample.first_pull)
       = Ret tt
    /\ original_tag
         (image_info (self (snd (parse_image_input "registry:5000/team/app:v1"
                                    Sample.first_pull)))) = tag
    /\ (forall st1,
          original_tag (image_info (self st1)) = tag ->
          let i := image_info (self st1) in
          let i' := image_info (self (snd (generate_filenames st1))) in
          let base :=
            Str.sub_class Chr.colon_or_slash (original_name i)
            +:+ "_" +:+ tag +:+ "_" +:+ arch i +:+ "_"
            +:+ Date.stamp (clock (env st1) (trace (env st1))) in
          fst (generate_filenames st1) = Ret tt
          /\ original_tag i' = tag
          /\ tar_name i' = base +:+ ".tar"
          /\ zip_name i' = base +:+ ".zip")
    /\ (forall st0,
          pipeline (Some "registry:5000/team/app:v1") st0
          = (naming (Some "registry:5000/team/app:v1") ;; delivery) st0)
    /\ (fst (naming (Some "registry:5000/team/app:v1") Sample.first_pull)
        = Ret tt ->
        let i' := image_info (self (snd (run (Args (Some "registry:5000/team/app:v1"))
                                          Sample.first_pull))) in
        original_tag i' = tag
        /\ exists d,
             let base :=
               Str.sub_class Chr.colon_or_slash (original_name i')
               +:+ "_" +:+ tag +:+ "_" +:+ arch i' +:+ "_"
               +:+ Date.stamp d in
             tar_name i' = base +:+ ".tar"
             /\ zip_name i' = base +:+ ".zip").
Proof.
  split; [vm_compute; reflexivity|].
  apply (tag_is_kept_verbatim "registry:5000/team/app:v1" Sample.first_pull).
  reflexivity.
Defined.

(** The tag of that run, with its slashes and colon, in the file names. *)
Example tag_with_separators_in_file_names :
  let i' := image_info (self (snd (run (Args (Some "registry:5000/team/app:v1"))
                                     Sample.first_pull))) in
  original_name i' = "registry"
  /\ original_tag i' = "5000/team/app:v1"
  /\ tar_name i' = "registry_5000/team/app:v1_amd64_20240309_070500.tar"
  /\ zip_name i' = "registry_5000/team/app:v1_amd64_20240309_070500.zip".
Proof. vm_compute. repeat split. Qed.

(** ** The file names *)

Lemma generate_filenames_pattern (st : state) :
  let i' := image_info (self (snd (generate_filenames st))) in
  fst (generate_filenames st) = Ret tt
  /\ tar_name i' = base_name i' (clock (env st) (trace (env st))) +:+ ".tar"
  /\ zip_name i' = base_name i' (clock (env st) (trace (env st))) +:+ ".zip".
Proof. rewrite generate_filenames_eq. repeat split. Qed.

Lemma safe_name_no_separator (name : string) :
  Str.contains "/" (Str.sub_class Chr.colon_or_slash name) = false
  /\ Str.contains ":" (Str.sub_class Chr.colon_or_slash name) = false.
Proof.
  split; apply contains_map_false; intros x;
    destruct (Chr.colon_or_slash x) eqn:E; try discriminate;
    intros ->; discriminate.
Qed.

(** The time stamp is made of digits and one underscore. *)
Lemma uint_no_slash (d : Decimal.uint) :
  Str.contains "/" (NilEmpty.string_of_uint d) = false.
Proof. induction d; simpl; auto. Qed.

Lemma dec_no_slash (n : nat) : Str.contains "/" (Str.dec n) = false.
Proof.
  unfold Str.dec, NilZero.string_of_uint.
  destruct (Nat.to_uint n) eqn:E; try reflexivity;
    rewrite <- E; apply uint_no_slash.
Qed.

Lemma pad2_no_slash (n : nat) : Str.contains "/" (Str.pad2 n) = false.
Proof.
  unfold Str.pad2. destruct (Nat.ltb n 10);
    rewrite ?contains_app, dec_no_slash; reflexivity.
Qed.

Lemma stamp_no_slash (d : datetime) : Str.contains "/" (Date.stamp d) = false.
Proof.
  unfold Date.stamp.
  now rewrite !contains_app, dec_no_slash, !pad2_no_slash.
Qed.

(** The generated names are flat when neither the tag nor the
    architecture holds a slash. *)
Lemma generate_filenames_flat (st : state) :
  let i := image_info (self st) in
  let i' := image_info (self (snd (generate_filenames st))) in
  Str.contains "/" (original_tag i) = false ->
  Str.contains "/" (arch i) = false ->
  Str.contains "/" (tar_name i') = false
  /\ Str.contains "/" (zip_name i') = false.
Proof.
  cbv zeta. intros Ht Ha. rewrite generate_filenames_eq.
  cbn [snd self with_self with_info image_info named tar_name zip_name].
  unfold base_name.
  rewrite !contains_app, Ht, Ha, stamp_no_slash.
  now rewrite (proj1 (safe_name_no_separator _)).
Qed.

(** C5, on a run for [nginx] with architecture 3: the architecture is
    [arm/v7], both generated names hold its slash, and saving the image
    under such a name fails. *)
Theorem generate_filenames_arm_v7_separator :
  let r := run (Args (Some "nginx")) Sample.armv7 in
  let i' := image_info (self (snd r)) in
  arch i' = "arm/v7"
  /\ tar_name i' = "nginx_latest_arm/v7_20240309_070500.tar"
  /\ zip_name i' = "nginx_latest_arm/v7_20240309_070500.zip"
  /\ Str.contains "/" (tar_name i') = true
  /\ Str.contains "/" (zip_name i') = true
  /\ Str.basename (tar_name i') = "v7_20240309_070500.tar"
  /\ fst r = Exit (1).
Proof. vm_compute. repeat split. Qed.

(** ** The top level *)

Lemma run_interrupted (image : option string) (st : state) :
  fst (pipeline image st) = Raise KeyboardInterrupt ->
  run (Args image) st
  = (Exit (130), snd (clean_temp_files (snd (pipeline image st)))).
Proof.
  rewrite ?run_args; unfold try_except.
  destruct (pipeline image st) as [[a|e|c] st1]; cbn [fst snd];
    [discriminate| |discriminate].
  intros [= ->]. rewrite bind_run, clean_temp_files_eq. reflexivity.
Qed.

Lemma run_failed (image : option string) (st : state) (err : error) :
  fst (pipeline image st) = Raise (Exception err) ->
  run (Args image) st
  = (Exit (1), snd (clean_temp_files (snd (pipeline image st)))).
Proof.
  rewrite ?run_args; unfold try_except.
  destruct (pipeline image st) as [[a|e|c] st1]; cbn [fst snd];
    [discriminate| |discriminate].
  intros [= ->]. rewrite bind_run, clean_temp_files_eq. reflexivity.
Qed.

(** [sys.exit] inside the pipeline goes through [run]. *)
Lemma run_exit (image : option string) (st : state) (code : Z) :
  fst (pipeline image st) = Exit (code) ->
  run (Args image) st = pipeline image st.
Proof.
  rewrite ?run_args; unfold try_except.
  destruct (pipeline image st) as [[a|e|c] st1]; cbn [fst snd];
    [discriminate..|reflexivity].
Qed.


Lemma cleaned_files (st : state) (p : string) :
  p = tar_name (image_info (self st)) \/ p = zip_name (image_info (self st)) ->
  files (env (snd (clean_temp_files st))) !! p = None.
Proof.
  rewrite clean_temp_files_eq. cbn [snd env with_env with_files files].
  rewrite !lookup_delete. intros [-> | ->].
  - destruct (decide (_ = _)); [reflexivity|].
    destruct (decide (_ = _)); [reflexivity | congruence].
  - destruct (decide (_ = _)); [reflexivity | congruence].
Qed.

(** C8: whatever exception the pipeline raises, [run] cleans the
    temporary files and ends the process with a status that is not 0:
    130 for [KeyboardInterrupt], 1 for every other exception.  The
    clean-up itself returns, and afterwards neither temporary file
    exists. *)
Theorem run_cleans_up_and_exits (image : option string) (st : state)
    (e : exn) :
  let st1 := snd (pipeline image st) in
  let st' := snd (run (Args image) st) in
  let i := image_info (self st1) in
  let status := match e with KeyboardInterrupt => 130 | Exception _ => 1 end in
  fst (pipeline image st) = Raise e ->
  run (Args image) st = (Exit status, snd (clean_temp_files st1))
  /\ fst (clean_temp_files st1) = Ret tt
  /\ files (env st') !! tar_name i = None
  /\ files (env st') !! zip_name i = None
  /\ exit_status (fst (run (Args image) st)) = status
  /\ status <> 0.
Proof.
  cbv zeta. intros H.
  assert (E : run (Args image) st
              = (Exit (match e with KeyboardInterrupt => 130
                                  | Exception _ => 1 end),
                 snd (clean_temp_files (snd (pipeline image st))))).
  { destruct e as [|err];
      [apply run_interrupted, H | eapply run_failed, H]. }
  rewrite E. cbn [fst snd].
  repeat split; try (apply cleaned_files; auto).
  - now rewrite clean_temp_files_eq.
  - destruct e; discriminate.
Qed.

Lemma run_cleans_up_and_exits_witness :
  (fst (pipeline (Some "nginx") Sample.interrupted) = Raise KeyboardInterrupt
   /\ is_Some (files (env (snd (pipeline (Some "nginx") Sample.interrupted)))
                 !! "nginx_latest_amd64_20240309_070500.tar")
   /\ exit_status (fst (run (Args (Some "nginx")) Sample.interrupted)) = 130
   /\ files (env (snd (run (Args (Some "nginx")) Sample.interrupted)))
        !! "nginx_latest_amd64_20240309_070500.tar" = None)
  /\ (fst (pipeline (Some "nginx") Sample.pull_fails)
      = Raise (Exception RuntimeError)
      /\ exit_status (fst (run (Args (Some "nginx")) Sample.pull_fails)) = 1).
Proof.
  split; [split; [reflexivity | split; [eexists; reflexivity | split]]
         | split; [reflexivity|]].
  - apply (run_cleans_up_and_exits (Some "nginx") Sample.interrupted
             KeyboardInterrupt eq_refl).
  - apply (run_cleans_up_and_exits (Some "nginx") Sample.interrupted
             KeyboardInterrupt eq_refl).
  - apply (run_cleans_up_and_exits (Some "nginx") Sample.pull_fails
             (Exception RuntimeError) eq_refl).
Defined.

(** ** The configuration file *)

Lemma os_path_exists_eq (p : string) (st : state) :
  os_path_exists p st = (Ret (bool_decide (is_Some (files (env st) !! p))), st).
Proof. reflexivity. Qed.

Lemma handle_config_missing (st : state) :
  files (env st) !! CONFIG_FILE = None ->
  handle_config st
  = (Exit (0),
     with_env (with_files (insert CONFIG_FILE (Ini config_template))) st).
Proof.
  intros H. unfold handle_config. rewrite bind_run, os_path_exists_eq, H.
  rewrite bool_decide_eq_false_2 by (intros [? ?]; discriminate).
  reflexivity.
Qed.




Lemma config_read_ini (st : state) (d : gmap string string) :
  files (env st) !! CONFIG_FILE = Some (Ini d) ->
  handle_config st
  = (path ← config_get d "remote_path" "/tmp/docker-images";
     set_remote_path path ;;
     entry ← config_get d "registry_mirrors" "";
     set_registry_mirrors (mirror_list entry)) st.
Proof.
  intros H. unfold handle_config. rewrite bind_run, os_path_exists_eq, H.
  rewrite bool_decide_eq_true_2 by eauto.
  cbn [negb when_]. rewrite bind_run. cbn [mret M_ret].
  unfold config_read, read_file. rewrite (bind_run _ _ st), bind_run, H.
  reflexivity.
Qed.

Lemma handle_config_present (st : state) (d : gmap string string)
    (path entry : string) :
  files (env st) !! CONFIG_FILE = Some (Ini d) ->
  Config.get d "remote_path" "/tmp/docker-images" = inr path ->
  Config.get d "registry_mirrors" "" = inr entry ->
  handle_config st
  = (Ret tt,
     with_self (fun m =>
       {| remote_path := path;
          registry_mirrors := mirror_list entry;
          image_info := image_info m |}) st).
Proof.
  intros H Hp He. rewrite (config_read_ini _ _ H).
  unfold config_get. rewrite Hp, He. reflexivity.
Qed.

(** An option that cannot be interpolated ends [handle_config]: the
    staging path before anything is stored, the mirror entry after the
    staging path was. *)
Lemma handle_config_bad_path (st : state) (d : gmap string string) (e : error) :
  files (env st) !! CONFIG_FILE = Some (Ini d) ->
  Config.get d "remote_path" "/tmp/docker-images" = inl e ->
  handle_config st = (Raise (Exception e), st).
Proof.
  intros H Hp. rewrite (config_read_ini _ _ H).
  unfold config_get. rewrite Hp. reflexivity.
Qed.

Lemma handle_config_bad_entry (st : state) (d : gmap string string)
    (path : string) (e : error) :
  files (env st) !! CONFIG_FILE = Some (Ini d) ->
  Config.get d "remote_path" "/tmp/docker-images" = inr path ->
  Config.get d "registry_mirrors" "" = inl e ->
  handle_config st
  = (Raise (Exception e),
     with_self (fun m =>
       {| remote_path := path;
          registry_mirrors := registry_mirrors m;
          image_info := image_info m |}) st).
Proof.
  intros H Hp He. rewrite (config_read_ini _ _ H).
  unfold config_get. rewrite Hp, He. reflexivity.
Qed.

(** Stripping every piece and dropping the empty ones. *)
Lemma mirror_list_eq (s : string) :
  mirror_list s
  = List.filter Str.truthy (List.map Str.strip (Str.split "," s)).
Proof.
  unfold mirror_list. induction (Str.split "," s) as [|p l IH];
    [reflexivity|].
  cbn [List.map List.filter]. destruct (Str.truthy (Str.strip p));
    cbn [List.map]; now rewrite IH.
Qed.

Lemma mirror_list_clean (s : string) :
  Forall (fun m => m <> "" /\ trimmed m) (mirror_list s).
Proof.
  rewrite mirror_list_eq. apply Forall_forall. intros m Hm.
  apply list_elem_of_In, filter_In in Hm as [Hin Ht]. split; [now apply truthy_true|].
  apply in_map_iff in Hin as (p & <- & _). apply strip_trimmed.
Qed.

(** [ConfigParser] on values as CPython reads them. *)
Example interpolation_samples :
  let d : gmap string string :=
    {[ "remote_path" := "%(base)s/stage"; "base" := "/srv";
       "registry_mirrors" := "https://m1.example/%%7Euser, %(BASE)s";
       "percent" := "100%"; "open" := "%(base"; "format" := "%(base)d";
       "empty" := "%()s"; "unknown" := "%(nowhere)s";
       "loop" := "%(loop)s" ]} in
  Config.get d "remote_path" "/tmp/docker-images" = inr "/srv/stage"
  /\ Config.get d "registry_mirrors" "" = inr "https://m1.example/%7Euser, /srv"
  /\ Config.get d "staging" "/tmp/docker-images" = inr "/tmp/docker-images"
  /\ Config.get d "percent" "" = inl InterpolationSyntaxError
  /\ Config.get d "open" "" = inl InterpolationSyntaxError
  /\ Config.get d "format" "" = inl InterpolationSyntaxError
  /\ Config.get d "empty" "" = inl InterpolationSyntaxError
  /\ Config.get d "unknown" "" = inl InterpolationMissingOptionError
  /\ Config.get d "loop" "" = inl InterpolationDepthError
  /\ Config.get (Sample.nested "100%%") "a1" "" = inr "100%"
  /\ Config.get (Sample.nested "%(a11)s") "a1" "" = inl InterpolationDepthError.
Proof. vm_compute. repeat split. Qed.



(** ** The mirror that is selected *)

Lemma get_pull_reference_forms_witness :
  get_pull_reference Sample.official = "https://m1.example/library/nginx"
  /\ get_pull_reference Sample.namespaced = "https://m1.example/team/app"
  /\ get_pull_reference (image_info Sample.pulled) = "nginx".
Proof.
  split; [|split].
  - refine (proj1 (get_pull_reference_forms Sample.official)
              "https://m1.example" eq_refl _ eq_refl).
    discriminate.
  - refine (proj1 (proj2 (get_pull_reference_forms Sample.namespaced))
              "https://m1.example" eq_refl _ eq_refl).
    discriminate.
  - exact (proj2 (proj2 (get_pull_reference_forms (image_info Sample.pulled)))
             eq_refl).
Defined.

(** A prompt loop returns only what its decision function accepted. *)
Lemma input_until_accepts {A} (f : string -> decision A)
    (keys rest : list keyboard) (a : A) :
  input_until f keys = (Ret a, rest) -> exists s, f s = Done (Ret a).
Proof.
  induction keys as [|[s|] keys IH]; cbn [input_until]; try discriminate.
  destruct (f s) as [|r] eqn:E; [exact IH|].
  intros [= -> _]. eauto.
Qed.

Lemma mirror_choice_picks (mirrors : list string) (line m : string) :
  mirror_choice mirrors line = Done (Ret (Some m)) -> m ∈ mirrors.
Proof.
  unfold mirror_choice. repeat case_match; try discriminate.
  intros [= <-]. eapply list_elem_of_lookup_2; eassumption.
Qed.

(** [select_mirror] leaves the mirror alone or stores one of the
    configured mirrors. *)
Lemma select_mirror_picks (st : state) :
  let st' := snd (select_mirror st) in
  mirror (image_info (self st')) = mirror (image_info (self st))
  \/ exists m, mirror (image_info (self st')) = Some m
               /\ m ∈ registry_mirrors (self st).
Proof.
  cbv zeta. unfold select_mirror. rewrite bind_run. cbn [get_self].
  destruct (registry_mirrors (self st)) as [|m0 ms] eqn:Em; [now left|].
  rewrite bind_run. unfold prompt_loop.
  destruct (input_until _ (stdin (env st))) as [[[m|]|e|c] rest] eqn:E;
    cbn [snd]; try now left.
  right. exists m. split; [reflexivity|].
  apply input_until_accepts in E as [s Hs].
  eapply mirror_choice_picks, Hs.
Qed.

(** The mirrors read from the configuration are never empty, so a
    selected mirror is a non-empty string. *)
Lemma configured_mirror_not_empty (entry m : string) :
  m ∈ mirror_list entry -> m <> "".
Proof.
  intros H. pose proof (mirror_list_clean entry) as Hc.
  rewrite Forall_forall in Hc. now apply Hc.
Qed.

(** * Further properties *)

(** ** Decimal numbers *)

Lemma uint_digits (d : Decimal.uint) :
  Str.forallb Chr.is_digit09 (NilEmpty.string_of_uint d) = true.
Proof. induction d; simpl; auto. Qed.

Lemma dec_digits (n : nat) : Str.forallb Chr.is_digit09 (Str.dec n) = true.
Proof.
  unfold Str.dec, NilZero.string_of_uint.
  destruct (Nat.to_uint n) eqn:E; try reflexivity;
    rewrite <- E; apply uint_digits.
Qed.

Lemma dec_not_empty (n : nat) : Str.is_empty (Str.dec n) = false.
Proof.
  unfold Str.dec, NilZero.string_of_uint.
  destruct (Nat.to_uint n); reflexivity.
Qed.

Lemma int_acc_uint (d : Decimal.uint) (acc : nat) :
  Str.int_acc (Z.of_nat acc) (NilEmpty.string_of_uint d)
  = Some (Z.of_nat (Nat.of_uint_acc d acc)).
Proof.
  revert acc. induction d; intros acc; cbn [NilEmpty.string_of_uint Str.int_acc Nat.of_uint_acc];
    [reflexivity|..];
    match goal with
    | |- context [Chr.is_digit09 ?c] =>
        change (Chr.is_digit09 c) with true; cbv iota
    end;
    rewrite <- IHd; f_equal; rewrite Nat.tail_mul_spec;
    match goal with
    | |- context [Chr.code ?c] =>
        let v := eval vm_compute in (Z.of_nat (Chr.code c - 48)) in
        change (Z.of_nat (Chr.code c - 48)) with v
    end; lia.
Qed.

Lemma int_acc_dec (n : nat) : Str.int_acc 0 (Str.dec n) = Some (Z.of_nat n).
Proof.
  unfold Str.dec, NilZero.string_of_uint.
  pose proof (Unsigned.of_to n) as H. unfold Nat.of_uint in H.
  destruct (Nat.to_uint n) eqn:E;
    try (rewrite <- E, (int_acc_uint _ 0); rewrite E; now rewrite H).
  cbn in H. subst n. reflexivity.
Qed.

(** [int(str(n))] is [n], unless [str(n)] has too many digits. *)
Lemma int_dec (n : nat) :
  Str.int (Str.dec n)
  = if Str.within_digit_limit (Str.dec n) then Some (Z.of_nat n) else None.
Proof. unfold Str.int. now rewrite dec_not_empty, int_acc_dec. Qed.

Lemma forallb_weaken (p q : ascii -> bool) (s : string) :
  (forall c, p c = true -> q c = true) ->
  Str.forallb p s = true -> Str.forallb q s = true.
Proof.
  intros Hpq. induction s as [|c s IH]; [reflexivity|].
  cbn [Str.forallb]. intros [Hc Hs]%andb_prop.
  now rewrite (Hpq _ Hc), IH.
Qed.

Lemma isdigit_dec (n : nat) : Str.isdigit (Str.dec n) = true.
Proof.
  unfold Str.isdigit, Str.truthy. rewrite dec_not_empty. cbn [negb andb].
  apply (forallb_weaken Chr.is_digit09); [|apply dec_digits].
  intros c Hc. unfold Chr.is_digit. now rewrite Hc.
Qed.

Lemma dec_not_n (n : nat) : String.eqb (Str.dec n) "n" = false.
Proof.
  apply String.eqb_neq. intros H. pose proof (dec_digits n) as Hd.
  rewrite H in Hd. discriminate.
Qed.

(** ** The prompts *)

Lemma input_until_skip {A} (f : string -> decision A) (bad : list string)
    (rest : list keyboard) :
  Forall (fun s => f s = Again) bad ->
  input_until f ((Line <$> bad) ++ rest) = input_until f rest.
Proof.
  induction 1 as [|s bad Hs _ IH]; [reflexivity|].
  cbn [fmap list_fmap app input_until]. now rewrite Hs.
Qed.

Lemma input_until_suffix {A} (f : string -> decision A) (keys : list keyboard) :
  snd (input_until f keys) `suffix_of` keys.
Proof.
  induction keys as [|[s|] keys IH]; cbn [input_until].
  - reflexivity.
  - destruct (f s); cbn [snd]; [now apply suffix_cons_r|].
    apply suffix_cons_r. reflexivity.
  - apply suffix_cons_r. reflexivity.
Qed.

Lemma arch_map_known (k a : string) :
  arch_map !! k = Some a -> a ∈ known_archs.
Proof.
  unfold arch_map, known_archs.
  rewrite !lookup_insert_Some, lookup_singleton_Some.
  intros [[_ <-]|[_ [[_ <-]|[_ [_ <-]]]]]; set_solver.
Qed.

(** X1: when [select_architecture] returns, the architecture is one of
    the three the menu offers and nothing else in [self.image_info] has
    changed; when it does not return, [self] is as it was.  It runs no
    command, touches no file and only reads typed lines. *)
Theorem select_architecture_offers_three (st : state) :
  let st' := snd (select_architecture st) in
  let i := image_info (self st) in
  let i' := image_info (self st') in
  match fst (select_architecture st) with
  | Ret _ => arch i' ∈ known_archs
             /\ identity i' = identity i
             /\ mirror i' = mirror i /\ pulled_ref i' = pulled_ref i
  | _ => self st' = self st
  end
  /\ files (env st') = files (env st)
  /\ trace (env st') = trace (env st)
  /\ consumed st st'.
Proof.
  cbv zeta. unfold select_architecture, consumed. rewrite bind_run.
  unfold prompt_loop.
  pose proof (input_until_suffix
    (fun line => match arch_map !! Str.strip line with
                 | Some a => Done (Ret a) | None => @Again string end)
    (stdin (env st))) as Hsuf.
  destruct (input_until _ (stdin (env st))) as [[a|e|c] rest] eqn:E;
    cbn [fst snd] in *; repeat split; try exact Hsuf.
  apply input_until_accepts in E as [s Hs].
  destruct (arch_map !! Str.strip s) as [a'|] eqn:Ea; [|discriminate].
  injection Hs as <-. eapply arch_map_known, Ea.
Qed.

(** X2: [select_architecture] asks again after every line that is not 1,
    2 or 3 (white space around it aside) and takes the first line that
    is; the lines after that one stay unread. *)
Theorem select_architecture_skips_invalid (st : state)
    (bad : list string) (good a : string) (rest : list keyboard) :
  stdin (env st) = (Line <$> bad) ++ Line good :: rest ->
  Forall (fun s => arch_map !! Str.strip s = None) bad ->
  arch_map !! Str.strip good = Some a ->
  let st' := snd (select_architecture st) in
  fst (select_architecture st) = Ret tt
  /\ arch (image_info (self st')) = a
  /\ stdin (env st') = rest.
Proof.
  intros Hin Hbad Hgood. cbv zeta.
  unfold select_architecture. rewrite bind_run. unfold prompt_loop.
  rewrite Hin, input_until_skip.
  - cbn [input_until]. rewrite Hgood. repeat split.
  - eapply Forall_impl; [exact Hbad|]. cbv beta. now intros s ->.
Qed.

Lemma select_architecture_skips_invalid_witness :
  let st := Sample.at_menu [Line "amd64"; Line ""; Line "4"; Line " 2 ";
                            Line "3"] in
  fst (select_architecture st) = Ret tt
  /\ arch (image_info (self (snd (select_architecture st)))) = "arm64"
  /\ stdin (env (snd (select_architecture st))) = [Line "3"].
Proof.
  apply (select_architecture_skips_invalid
           (Sample.at_menu [Line "amd64"; Line ""; Line "4"; Line " 2 ";
                            Line "3"])
           ["amd64"; ""; "4"] " 2 " "arm64" [Line "3"]).
  - reflexivity.
  - repeat constructor.
  - reflexivity.
Defined.

Lemma mirror_choice_number (mirrors : list string) (line m : string) (k : nat) :
  mirrors !! k = Some m ->
  Str.lower (Str.strip line) = Str.dec (S k) ->
  mirror_choice mirrors line
  = if Str.within_digit_limit (Str.dec (S k)) then Done (Ret (Some m))
    else Done (Raise (Exception ValueError)).
Proof.
  intros Hk Hl. unfold mirror_choice. rewrite Hl, dec_not_n, isdigit_dec, int_dec.
  destruct (Str.within_digit_limit _); [|reflexivity].
  replace (Z.of_nat (S k) - 1) with (Z.of_nat k) by lia.
  rewrite Nat2Z.id, Hk.
  apply lookup_lt_Some in Hk.
  replace (0 <=? Z.of_nat k) with true by (symmetry; apply Z.leb_le; lia).
  replace (Z.of_nat k <? Z.of_nat (length mirrors)) with true
    by (symmetry; apply Z.ltb_lt; lia).
  reflexivity.
Qed.

(** X3: the number shown in the menu selects the mirror at that place:
    typing [k+1] (in any case, white space around it aside) stores the
    mirror at index [k] of the configured list.  Only a number of more
    digits than [int] converts is refused: [ValueError]. *)
Theorem select_mirror_menu_number (st : state) (line m : string) (k : nat)
    (rest : list keyboard) :
  registry_mirrors (self st) !! k = Some m ->
  stdin (env st) = Line line :: rest ->
  Str.lower (Str.strip line) = Str.dec (S k) ->
  let st' := snd (select_mirror st) in
  if Str.within_digit_limit (Str.dec (S k))
  then fst (select_mirror st) = Ret tt
       /\ mirror (image_info (self st')) = Some m
       /\ stdin (env st') = rest
  else select_mirror st
       = (Raise (Exception ValueError), with_env (with_stdin rest) st).
Proof.
  intros Hk Hin Hl. cbv zeta. unfold select_mirror.
  rewrite bind_run. cbn [get_self].
  destruct (registry_mirrors (self st)) as [|m0 ms] eqn:Em; [discriminate|].
  rewrite bind_run. unfold prompt_loop. rewrite Hin. cbn [input_until].
  rewrite (mirror_choice_number _ _ _ _ Hk Hl).
  destruct (Str.within_digit_limit _); repeat split.
Qed.

Lemma select_mirror_menu_number_witness :
  let st := Sample.at_menu [Line " 2 "; Line "1"] in
  fst (select_mirror st) = Ret tt
  /\ mirror (image_info (self (snd (select_mirror st))))
     = Some "https://m2.example"
  /\ stdin (env (snd (select_mirror st))) = [Line "1"].
Proof.
  apply (select_mirror_menu_number (Sample.at_menu [Line " 2 "; Line "1"])
           " 2 " "https://m2.example" 1 [Line "1"]); reflexivity.
Defined.

(** X4: a number outside the menu, 0 or more than there are mirrors, is
    not an error as long as [int] converts it: the line is dropped and
    the question is asked again.  A number of more digits than [int]
    converts is [ValueError]. *)
Theorem select_mirror_out_of_range (st : state) (line : string) (n : nat)
    (rest : list keyboard) :
  registry_mirrors (self st) <> [] ->
  stdin (env st) = Line line :: rest ->
  Str.lower (Str.strip line) = Str.dec n ->
  n = 0%nat \/ (length (registry_mirrors (self st)) < n)%nat ->
  select_mirror st
  = if Str.within_digit_limit (Str.dec n)
    then select_mirror (with_env (with_stdin rest) st)
    else (Raise (Exception ValueError), with_env (with_stdin rest) st).
Proof.
  intros Hne Hin Hl Hn. unfold select_mirror. rewrite !bind_run.
  cbn [get_self self with_env].
  destruct (registry_mirrors (self st)) as [|m0 ms] eqn:Em; [contradiction|].
  rewrite !bind_run. unfold prompt_loop. rewrite Hin.
  cbn [input_until stdin env with_env with_stdin].
  unfold mirror_choice at 1. rewrite Hl, dec_not_n, isdigit_dec, int_dec.
  destruct (Str.within_digit_limit _); [|reflexivity].
  replace ((0 <=? Z.of_nat n - 1) && (Z.of_nat n - 1 <? Z.of_nat (length (m0 :: ms))))
    with false.
  - destruct (input_until _ rest) as [r rest']. reflexivity.
  - symmetry. apply andb_false_iff. destruct Hn as [-> | Hn].
    + left. reflexivity.
    + right. apply Z.ltb_ge. lia.
Qed.

Lemma select_mirror_out_of_range_witness :
  select_mirror (Sample.at_menu [Line "0"; Line "3"; Line "1"])
  = select_mirror (Sample.at_menu [Line "3"; Line "1"])
  /\ select_mirror (Sample.at_menu [Line "3"; Line "1"])
     = select_mirror (Sample.at_menu [Line "1"]).
Proof.
  split.
  - apply (select_mirror_out_of_range
             (Sample.at_menu [Line "0"; Line "3"; Line "1"]) "0" 0
             [Line "3"; Line "1"]); [discriminate|reflexivity|reflexivity|].
    left. reflexivity.
  - apply (select_mirror_out_of_range
             (Sample.at_menu [Line "3"; Line "1"]) "3" 3
             [Line "1"]); [discriminate|reflexivity|reflexivity|].
    right. cbn. lia.
Defined.

(** The longest number [int] converts, and one digit more. *)
Example int_limit_samples :
  Str.isdigit (Sample.ones 4301) = true
  /\ Str.within_digit_limit (Sample.ones 4300) = true
  /\ Str.int (Sample.ones 4301) = None
  /\ select_mirror (Sample.at_menu [Line (Sample.ones 4301); Line "1"])
     = (Raise (Exception ValueError), Sample.at_menu [Line "1"]).
Proof. vm_compute. repeat split. Qed.

Lemma int_acc_nondigit (s : string) (acc : Z) :
  Str.forallb Chr.is_digit09 s = false -> Str.int_acc acc s = None.
Proof.
  revert acc. induction s as [|c s IH]; intros acc; [discriminate|].
  cbn [Str.forallb Str.int_acc]. destruct (Chr.is_digit09 c); [|reflexivity].
  cbn [andb]. apply IH.
Qed.

(** A superscript digit is none of 0-9. *)
Lemma superscript_not_decimal (c : ascii) :
  Chr.is_superscript c = true -> Chr.is_digit09 c = false.
Proof. destruct c as [[] [] [] [] [] [] [] []]; vm_compute; congruence. Qed.

Lemma superscript_among (s : string) :
  Str.existsb Chr.is_superscript s = true ->
  Str.forallb Chr.is_digit09 s = false.
Proof.
  induction s as [|c s IH]; [discriminate|].
  cbn [Str.existsb Str.forallb]. intros [H|H]%orb_prop.
  - now rewrite (superscript_not_decimal _ H).
  - rewrite (IH H). apply andb_false_r.
Qed.

(** X5: a line of digits as [str.isdigit] sees them, one of which is a
    superscript one, two or three, makes [int] fail: [select_mirror]
    raises [ValueError] instead of asking again, and [self] is as it
    was. *)
Theorem select_mirror_superscript_raises (st : state) (line : string)
    (rest : list keyboard) :
  registry_mirrors (self st) <> [] ->
  stdin (env st) = Line line :: rest ->
  Str.isdigit (Str.lower (Str.strip line)) = true ->
  Str.existsb Chr.is_superscript (Str.lower (Str.strip line)) = true ->
  select_mirror st
  = (Raise (Exception ValueError), with_env (with_stdin rest) st).
Proof.
  intros Hne Hin Hd Hn. apply superscript_among in Hn.
  unfold select_mirror. rewrite bind_run.
  cbn [get_self].
  destruct (registry_mirrors (self st)) as [|m0 ms] eqn:Em; [contradiction|].
  rewrite bind_run. unfold prompt_loop. rewrite Hin. cbn [input_until].
  unfold mirror_choice. rewrite Hd.
  destruct (String.eqb _ "n") eqn:En.
  - apply String.eqb_eq in En. rewrite En in Hd. discriminate.
  - unfold Str.int. rewrite (int_acc_nondigit _ _ Hn).
    destruct (Str.is_empty _); [reflexivity|].
    now destruct (Str.within_digit_limit _).
Qed.

Lemma select_mirror_superscript_raises_witness :
  select_mirror (Sample.at_menu [Line (String (ascii_of_nat 178) ""); Line "1"])
  = (Raise (Exception ValueError), Sample.at_menu [Line "1"])
  /\ select_mirror
       (Sample.at_menu [Line (String "1" (String (ascii_of_nat 185) "")); Line "1"])
     = (Raise (Exception ValueError), Sample.at_menu [Line "1"]).
Proof.
  split.
  - apply (select_mirror_superscript_raises
             (Sample.at_menu [Line (String (ascii_of_nat 178) ""); Line "1"])
             (String (ascii_of_nat 178) "") [Line "1"]);
      [discriminate | reflexivity..].
  - apply (select_mirror_superscript_raises
             (Sample.at_menu [Line (String "1" (String (ascii_of_nat 185) ""));
                              Line "1"])
             (String "1" (String (ascii_of_nat 185) "")) [Line "1"]);
      [discriminate | reflexivity..].
Defined.

(** X6: [n], in either case and with white space around it, declines:
    [select_mirror] returns with [self] as it was. *)
Theorem select_mirror_declined (st : state) (line : string)
    (rest : list keyboard) :
  stdin (env st) = Line line :: rest ->
  Str.lower (Str.strip line) = "n" ->
  fst (select_mirror st) = Ret tt
  /\ self (snd (select_mirror st)) = self st
  /\ (registry_mirrors (self st) <> [] ->
      stdin (env (snd (select_mirror st))) = rest).
Proof.
  intros Hin Hl. unfold select_mirror. rewrite bind_run. cbn [get_self].
  destruct (registry_mirrors (self st)) as [|m0 ms] eqn:Em;
    [repeat split; contradiction|].
  rewrite bind_run. unfold prompt_loop. rewrite Hin. cbn [input_until].
  unfold mirror_choice. rewrite Hl. repeat split.
Qed.

Lemma select_mirror_declined_witness :
  let st := Sample.at_menu [Line (Sample.line " N "); Line "1"] in
  fst (select_mirror st) = Ret tt
  /\ self (snd (select_mirror st)) = self st
  /\ (registry_mirrors (self st) <> [] ->
      stdin (env (snd (select_mirror st))) = [Line "1"]).
Proof.
  apply (select_mirror_declined
           (Sample.at_menu [Line (Sample.line " N "); Line "1"])
           (Sample.line " N ") [Line "1"]); reflexivity.
Defined.

Lemma input_until_from {A} (f : string -> decision A)
    (keys rest : list keyboard) (a : A) :
  input_until f keys = (Ret a, rest) ->
  exists s, Line s ∈ keys /\ f s = Done (Ret a).
Proof.
  induction keys as [|[s|] keys IH]; cbn [input_until]; try discriminate.
  destruct (f s) as [|r] eqn:E.
  - intros H. destruct (IH H) as (s' & Hin & Hs). exists s'. split; [|exact Hs].
    now apply list_elem_of_further.
  - intros [= -> _]. exists s. split; [apply list_elem_of_here | exact E].
Qed.

(** X7: the name [ask_image] returns is a typed line stripped of white
    space, and it is never empty: blank lines are asked again. *)
Theorem ask_image_not_empty (st : state) (s : string) :
  fst (ask_image st) = Ret s ->
  s <> "" /\ trimmed s
  /\ (exists line, Line line ∈ stdin (env st) /\ s = Str.strip line)
  /\ self (snd (ask_image st)) = self st.
Proof.
  unfold ask_image, prompt_loop.
  destruct (input_until _ (stdin (env st))) as [[a|e|c] rest] eqn:E;
    cbn [fst snd]; try discriminate.
  intros [= ->]. apply input_until_from in E as (line & Hin & Hl).
  destruct (Str.truthy (Str.strip line)) eqn:Ht; [|discriminate].
  injection Hl as <-. repeat split.
  - now apply truthy_true.
  - apply strip_trimmed.
  - apply strip_trimmed.
  - eauto.
Qed.

Lemma ask_image_not_empty_witness :
  let st := Sample.at_menu [Line ""; Line "   "; Line " nginx:1.25 "] in
  "nginx:1.25" <> "" /\ trimmed "nginx:1.25"
  /\ (exists line, Line line ∈ stdin (env st) /\ "nginx:1.25" = Str.strip line)
  /\ self (snd (ask_image st)) = self st.
Proof.
  apply (ask_image_not_empty
           (Sample.at_menu [Line ""; Line "   "; Line " nginx:1.25 "])
           "nginx:1.25").
  reflexivity.
Defined.

(** ** A mirror entry that names no mirror *)

Lemma lstrip_blank (s : string) :
  Str.forallb Chr.is_space s = true -> Str.lstrip s = "".
Proof.
  induction s as [|c s IH]; [reflexivity|].
  cbn [Str.forallb Str.lstrip]. intros [-> Hs]%andb_prop. now apply IH.
Qed.

Lemma append_nil_r (s : string) : s +:+ "" = s.
Proof.
  induction s as [|c s IH]; [reflexivity|]. now rewrite append_cons, IH.
Qed.

Lemma strip_blank (s : string) :
  Str.forallb Chr.is_space s = true <-> Str.strip s = "".
Proof.
  unfold Str.strip. split.
  - intros H. now rewrite lstrip_blank.
  - intros H. destruct (rstrip_cut (Str.lstrip s)) as (r & Hr & Hrs).
    rewrite H, append_nil in Hr.
    destruct (Str.lstrip s) as [|c t] eqn:El.
    + destruct (lstrip_cut s) as (l & Hl & Hls). rewrite El in Hl.
      now rewrite Hl, append_nil_r.
    + pose proof (lstrip_first s c) as Hf. rewrite El in Hf.
      specialize (Hf eq_refl). subst r. cbn in Hrs.
      rewrite Hf in Hrs. discriminate.
Qed.

Lemma split_blank (s : string) :
  Str.forallb blank s = true <->
  Forall (fun p => Str.forallb Chr.is_space p = true) (Str.split "," s).
Proof.
  induction s as [|c s IH]; cbn [Str.forallb Str.split].
  - split; [repeat constructor | reflexivity].
  - unfold blank at 1. destruct (Ascii.eqb c ",") eqn:Ec.
    + rewrite orb_true_r. cbn [andb]. rewrite IH. split.
      * intros H. constructor; [reflexivity | exact H].
      * intros H. now inversion H.
    + rewrite orb_false_r.
      pose proof (split_nonempty "," s) as Hne.
      destruct (Str.split "," s) as [|h t]; [contradiction|]. split.
      * intros [Hc Hs]%andb_prop. apply IH in Hs. inversion Hs; subst.
        constructor; [cbn; now rewrite Hc | assumption].
      * intros H. inversion H as [|? ? Hh Ht]; subst. cbn in Hh.
        apply andb_prop in Hh as [Hc Hh]. rewrite Hc. cbn [andb].
        apply IH. now constructor.
Qed.

Lemma mirror_list_blank (s : string) :
  Str.forallb blank s = true <-> mirror_list s = [].
Proof.
  rewrite split_blank. unfold mirror_list.
  induction (Str.split "," s) as [|p l IH]; cbn [List.filter List.map].
  - split; [reflexivity | constructor].
  - destruct (Str.truthy (Str.strip p)) eqn:Et; cbn [List.map].
    + split; [|discriminate]. intros H. inversion H as [|? ? Hp _]; subst.
      apply strip_blank in Hp. rewrite Hp in Et. discriminate.
    + rewrite <- IH. split.
      * intros H. now inversion H.
      * intros H. constructor; [|exact H]. apply strip_blank.
        now destruct (Str.strip p).
Qed.

(** X8: the mirror list is empty exactly when the mirror entry, as
    [ConfigParser] gives it (the empty default when it is missing), is
    empty or made of commas and white space only; [select_mirror] then
    asks nothing and leaves the mirror alone. *)
Theorem blank_mirror_entry_asks_nothing (st : state) (d : gmap string string)
    (path entry : string) :
  files (env st) !! CONFIG_FILE = Some (Ini d) ->
  Config.get d "remote_path" "/tmp/docker-images" = inr path ->
  Config.get d "registry_mirrors" "" = inr entry ->
  let st1 := snd (handle_config st) in
  (Str.forallb blank entry = true <-> registry_mirrors (self st1) = [])
  /\ (Str.forallb blank entry = true ->
      select_mirror st1 = (Ret tt, st1)
      /\ stdin (env st1) = stdin (env st)
      /\ mirror (image_info (self st1)) = mirror (image_info (self st))).
Proof.
  intros H Hp He. cbv zeta. rewrite (handle_config_present st d _ _ H Hp He).
  cbn [snd self with_self registry_mirrors env image_info]. split.
  - apply mirror_list_blank.
  - intros Hb. apply mirror_list_blank in Hb.
    unfold select_mirror. rewrite bind_run. cbn [get_self self with_self registry_mirrors].
    rewrite Hb. repeat split.
Qed.

Lemma blank_mirror_entry_asks_nothing_witness :
  let st := start (Sample.world_with {[ CONFIG_FILE := Ini Sample.no_mirrors ]}
                     [] [Line "1"]) in
  let st1 := snd (handle_config st) in
  (Str.forallb blank " , ,, " = true <-> registry_mirrors (self st1) = [])
  /\ (Str.forallb blank " , ,, " = true ->
      select_mirror st1 = (Ret tt, st1)
      /\ stdin (env st1) = stdin (env st)
      /\ mirror (image_info (self st1)) = mirror (image_info (self st))).
Proof.
  apply (blank_mirror_entry_asks_nothing
           (start (Sample.world_with {[ CONFIG_FILE := Ini Sample.no_mirrors ]}
                     [] [Line "1"]))
           Sample.no_mirrors "/srv/stage" " , ,, "); reflexivity.
Defined.

(** ** Methods that never end the process *)

Lemma no_exit_ret {A} (a : A) : no_exit (mret a).
Proof. intros st c. discriminate. Qed.

Lemma no_exit_raise {A} (e : exn) : no_exit (@raise A e).
Proof. intros st c. discriminate. Qed.

Lemma no_exit_bind {A B} (m : M A) (k : A -> M B) :
  no_exit m -> (forall a, no_exit (k a)) -> no_exit (m ≫= k).
Proof.
  intros Hm Hk st c. rewrite bind_run. specialize (Hm st).
  destruct (m st) as [[a|e|c'] st']; cbn [fst] in *;
    [apply Hk | discriminate | exfalso; now apply (Hm c')].
Qed.

Lemma no_exit_try {A} (m : M A) (h : exn -> option (M A)) :
  no_exit m -> (forall e k, h e = Some k -> no_exit k) ->
  no_exit (try_except m h).
Proof.
  intros Hm Hh st c. unfold try_except. specialize (Hm st).
  destruct (m st) as [[a|e|c'] st']; cbn [fst] in *;
    [discriminate | | exfalso; now apply (Hm c')].
  destruct (h e) as [k|] eqn:E; [|discriminate]. now apply (Hh _ _ E).
Qed.

Lemma no_exit_when (b : bool) (m : M unit) : no_exit m -> no_exit (when_ b m).
Proof. destruct b; [auto | intros _ st c; discriminate]. Qed.

Lemma no_exit_prompt_loop {A} (f : string -> decision A) :
  (forall s c, f s <> Done (Exit c)) -> no_exit (prompt_loop f).
Proof.
  intros Hf st c. unfold prompt_loop.
  assert (H : forall keys, fst (input_until f keys) <> Exit c).
  { induction keys as [|[s|] keys IH]; cbn [input_until]; try discriminate.
    destruct (f s) as [|r] eqn:E; [exact IH|]. cbn [fst]. intros ->.
    now apply (Hf s c). }
  specialize (H (stdin (env st))).
  destruct (input_until f (stdin (env st))) as [r rest]. exact H.
Qed.

Ltac no_exit_prim :=
  let st := fresh "st" in
  let c := fresh "c" in
  intros st c; cbv beta zeta delta [get_self get_info modify_self modify_info
    set_original_name set_original_tag set_arch set_mirror set_tar_name
    set_zip_name set_pulled_ref set_remote_path set_registry_mirrors
    os_path_exists os_remove write_file read_file os_makedirs shutil_move
    datetime_now spawn item1 group1 raise];
  repeat case_match; cbn [fst]; discriminate.

Lemma no_exit_get_self : no_exit get_self.
Proof. no_exit_prim. Qed.

Lemma no_exit_get_info : no_exit get_info.
Proof. no_exit_prim. Qed.

Lemma no_exit_modify_self f : no_exit (modify_self f).
Proof. no_exit_prim. Qed.

Lemma no_exit_os_path_exists p : no_exit (os_path_exists p).
Proof. no_exit_prim. Qed.

Lemma no_exit_os_remove p : no_exit (os_remove p).
Proof. no_exit_prim. Qed.

Lemma no_exit_write_file p c : no_exit (write_file p c).
Proof. no_exit_prim. Qed.

Lemma no_exit_read_file p : no_exit (read_file p).
Proof. no_exit_prim. Qed.

Lemma no_exit_os_makedirs p : no_exit (os_makedirs p).
Proof. no_exit_prim. Qed.

Lemma no_exit_shutil_move a b : no_exit (shutil_move a b).
Proof. no_exit_prim. Qed.

Lemma no_exit_datetime_now : no_exit datetime_now.
Proof. no_exit_prim. Qed.

Lemma no_exit_spawn ev : no_exit (spawn ev).
Proof. no_exit_prim. Qed.

Lemma no_exit_item1 l : no_exit (item1 l).
Proof.
  unfold item1. case_match; [apply no_exit_ret | apply no_exit_raise].
Qed.

Lemma no_exit_group1 m : no_exit (group1 m).
Proof.
  unfold group1. case_match; [apply no_exit_ret | apply no_exit_raise].
Qed.

Create HintDb no_exit.

#[export] Hint Resolve no_exit_ret no_exit_raise no_exit_get_self
  no_exit_get_info no_exit_modify_self no_exit_os_path_exists
  no_exit_os_remove no_exit_write_file no_exit_read_file no_exit_os_makedirs
  no_exit_shutil_move no_exit_datetime_now no_exit_spawn no_exit_item1
  no_exit_group1 : no_exit.

Ltac no_exit_step :=
  match goal with
  | |- no_exit (_ ≫= _) => apply no_exit_bind; [|intros ?]
  | |- no_exit (try_except _ _) => apply no_exit_try; [|handler_cases]
  | |- no_exit (when_ _ _) => apply no_exit_when
  | |- no_exit (prompt_loop _) =>
      apply no_exit_prompt_loop; intros ? ?; try unfold mirror_choice;
      repeat case_match; discriminate
  | |- no_exit (match ?x with _ => _ end) => destruct x
  | |- no_exit _ => solve [auto with no_exit]
  | |- no_exit _ =>
      solve [unfold subprocess_run, subprocess_run_check, os_path_getsize,
               set_original_name, set_original_tag, set_arch, set_mirror,
               set_tar_name, set_zip_name, set_pulled_ref, set_remote_path,
               set_registry_mirrors, modify_info;
             repeat first [ apply no_exit_bind; [|intros ?]
                          | match goal with
                            | |- no_exit (match ?x with _ => _ end) => destruct x
                            end
                          | solve [auto with no_exit] ]]
  end.

Lemma no_exit_parse_image_input s : no_exit (parse_image_input s).
Proof.
  unfold parse_image_input. repeat no_exit_step. Qed.

Lemma no_exit_select_architecture : no_exit select_architecture.
Proof.
  unfold select_architecture. repeat no_exit_step. Qed.

Lemma no_exit_select_mirror : no_exit select_mirror.
Proof.
  unfold select_mirror. repeat no_exit_step. Qed.

Lemma no_exit_check_image_update : no_exit check_image_update.
Proof.
  unfold check_image_update, check_image_update_body, except_Exception.
  repeat no_exit_step.
Qed.

#[export] Hint Resolve no_exit_check_image_update : no_exit.

Lemma no_exit_pull_image : no_exit pull_image.
Proof.
  unfold pull_image. repeat no_exit_step. Qed.

Lemma no_exit_rename_image : no_exit rename_image.
Proof.
  unfold rename_image, except_CalledProcessError. repeat no_exit_step. Qed.

Lemma no_exit_generate_filenames : no_exit generate_filenames.
Proof.
  unfold generate_filenames. repeat no_exit_step. Qed.

Lemma no_exit_create_tar_package : no_exit create_tar_package.
Proof.
  unfold create_tar_package. repeat no_exit_step. Qed.

Lemma no_exit_compress_to_zip : no_exit compress_to_zip.
Proof.
  unfold compress_to_zip, except_Exception. repeat no_exit_step. Qed.

Lemma no_exit_transfer_zip_file : no_exit transfer_zip_file.
Proof.
  unfold transfer_zip_file, except_Exception. repeat no_exit_step. Qed.

Lemma no_exit_clean_temp_files : no_exit clean_temp_files.
Proof.
  unfold clean_temp_files. repeat no_exit_step. Qed.

Lemma no_exit_check_container_usage : no_exit check_container_usage.
Proof.
  unfold check_container_usage. repeat no_exit_step. Qed.

Lemma no_exit_schedule_cleanup : no_exit schedule_cleanup.
Proof.
  unfold schedule_cleanup, except_Exception. repeat no_exit_step. Qed.

#[export] Hint Resolve no_exit_check_container_usage
  no_exit_schedule_cleanup : no_exit.

Lemma no_exit_clean_image : no_exit clean_image.
Proof.
  unfold clean_image, except_CalledProcessError. repeat no_exit_step. Qed.

Lemma no_exit_ask_image : no_exit ask_image.
Proof.
  unfold ask_image. repeat no_exit_step. Qed.

#[export] Hint Resolve no_exit_parse_image_input no_exit_select_architecture
  no_exit_select_mirror no_exit_pull_image no_exit_rename_image
  no_exit_generate_filenames no_exit_create_tar_package
  no_exit_compress_to_zip no_exit_transfer_zip_file no_exit_clean_temp_files
  no_exit_clean_image no_exit_ask_image : no_exit.

(** ** How [run] ends *)

Lemma no_exit_config_get d o f : no_exit (config_get d o f).
Proof.
  unfold config_get. case_match; [apply no_exit_raise | apply no_exit_ret].
Qed.

#[export] Hint Resolve no_exit_config_get : no_exit.

Lemma handle_config_exit (st : state) (c : Z) :
  fst (handle_config st) = Exit c ->
  c = 0 /\ files (env st) !! CONFIG_FILE = None.
Proof.
  destruct (files (env st) !! CONFIG_FILE) as [x|] eqn:E.
  - intros H. exfalso. revert H. unfold handle_config.
    rewrite bind_run, os_path_exists_eq, E.
    rewrite bool_decide_eq_true_2 by eauto. cbn [negb when_].
    rewrite bind_run. cbn [mret M_ret].
    match goal with
    | |- fst (?m st) = Exit c -> False =>
        assert (Hne : no_exit m); [|apply Hne]
    end.
    unfold config_read. repeat no_exit_step.
  - rewrite (handle_config_missing _ E). now intros [= <-].
Qed.

Lemma pipeline_exit (image : option string) (st : state) (c : Z) :
  fst (pipeline image st) = Exit c ->
  c = 0 /\ files (env st) !! CONFIG_FILE = None.
Proof.
  unfold pipeline. rewrite bind_run.
  pose proof (handle_config_exit st) as Hh.
  destruct (handle_config st) as [[[]|e|c'] st1]; cbn [fst] in *;
    [|discriminate|intros [= <-]; now apply Hh].
  intros H. exfalso. revert H.
  match goal with
  | |- fst (?m st1) = Exit c -> False =>
      assert (Hne : no_exit m); [|apply Hne]
  end.
  repeat no_exit_step.
Qed.

Lemma run_args_outcome (image : option string) (st : state) :
  fst (run (Args image) st) = Ret tt
  \/ fst (run (Args image) st) = Exit 0
  \/ fst (run (Args image) st) = Exit 1
  \/ fst (run (Args image) st) = Exit 130.
Proof.
  rewrite run_args. unfold try_except.
  pose proof (pipeline_exit image st) as Hx.
  destruct (pipeline image st) as [[[]|e|c] st1]; cbn [fst] in *.
  - now left.
  - destruct e as [|err]; rewrite bind_run, clean_temp_files_eq; cbn; auto.
  - destruct (Hx c eq_refl) as [-> _]. auto.
Qed.

Lemma run_args_exits_zero (image : option string) (st : state) :
  fst (run (Args image) st) = Exit 0 <-> files (env st) !! CONFIG_FILE = None.
Proof.
  split.
  - rewrite run_args. unfold try_except.
    pose proof (pipeline_exit image st) as Hx.
    destruct (pipeline image st) as [[[]|e|c] st1]; cbn [fst] in *.
    + discriminate.
    + destruct e as [|err]; rewrite bind_run, clean_temp_files_eq; cbn;
        discriminate.
    + intros _. now apply (Hx c).
  - intros H. rewrite (run_exit image st 0).
    + unfold pipeline. now rewrite bind_run, (handle_config_missing _ H).
    + unfold pipeline. now rewrite bind_run, (handle_config_missing _ H).
Qed.

(** X9: [run] never ends in an uncaught exception: it returns, or it
    ends the process with status 0, 1, 2 or 130; with status 2 exactly
    when the parser refuses the command line, and then nothing has
    changed. *)
Theorem run_never_raises (argv : command_line) (st : state) :
  (fst (run argv st) = Ret tt
   \/ fst (run argv st) = Exit 0
   \/ fst (run argv st) = Exit 1
   \/ fst (run argv st) = Exit 2
   \/ fst (run argv st) = Exit 130)
  /\ (fst (run argv st) = Exit 2 <-> argv = Refused)
  /\ (argv = Refused -> snd (run argv st) = st).
Proof.
  destruct argv as [| |image].
  - repeat split; auto; discriminate.
  - repeat split; auto 6.
  - split; [|split; [split|]]; try discriminate.
    + destruct (run_args_outcome image st) as [H|[H|[H|H]]]; auto 6.
    + destruct (run_args_outcome image st) as [H|[H|[H|H]]]; rewrite H;
        discriminate.
Qed.

(** X10: [run] ends with status 0 before the end of the pipeline exactly
    when the help was asked for, or the parser accepted the command line
    and there is no configuration file. *)
Theorem run_exits_zero_iff_no_config (argv : command_line) (st : state) :
  fst (run argv st) = Exit 0 <->
  argv = Help
  \/ (exists image, argv = Args image)
     /\ files (env st) !! CONFIG_FILE = None.
Proof.
  destruct argv as [| |image].
  - split; [now left | reflexivity].
  - split; [discriminate|]. intros [|[[image ?] _]]; discriminate.
  - rewrite run_args_exits_zero. split.
    + intros H. right. split; [now exists image | exact H].
    + intros [|[_ H]]; [discriminate | exact H].
Qed.

Lemma pipeline_cleans (image : option string) :
  post (pipeline image) (fun _ => True) no_temp_files (fun _ => True).
Proof.
  unfold pipeline.
  do 11 (apply post_bind with (Q := fun _ => True); [apply post_any|intros _]).
  intros st _.
  pose proof (cleaned_files st _ (or_introl eq_refl)) as Ht.
  pose proof (cleaned_files st _ (or_intror eq_refl)) as Hz.
  rewrite clean_temp_files_eq in *. now split.
Qed.

(** X11: on a command line the parser accepts, and with a configuration
    file in place, [run] leaves neither temporary file behind, however it
    ends. *)
Theorem run_leaves_no_temp_files (image : option string) (st : state) :
  is_Some (files (env st) !! CONFIG_FILE) ->
  no_temp_files (snd (run (Args image) st)).
Proof.
  intros [x Hx]. rewrite ?run_args; unfold try_except.
  pose proof (pipeline_cleans image st I) as Hp.
  pose proof (pipeline_exit image st) as He.
  destruct (pipeline image st) as [[[]|e|c] st1]; cbn [fst snd] in *.
  - exact Hp.
  - destruct e as [|err]; rewrite bind_run;
      pose proof (cleaned_files st1 _ (or_introl eq_refl)) as Ht;
      pose proof (cleaned_files st1 _ (or_intror eq_refl)) as Hz;
      rewrite clean_temp_files_eq in *; now split.
  - destruct (He c eq_refl) as [_ Hn]. congruence.
Qed.

Lemma run_leaves_no_temp_files_witness :
  no_temp_files (snd (run (Args (Some "nginx")) Sample.first_pull))
  /\ no_temp_files (snd (run (Args (Some "nginx")) Sample.interrupted))
  /\ no_temp_files (snd (run (Args (Some "nginx")) Sample.broken_config)).
Proof.
  split; [|split].
  - apply (run_leaves_no_temp_files (Some "nginx") Sample.first_pull).
    eexists. reflexivity.
  - apply (run_leaves_no_temp_files (Some "nginx") Sample.interrupted).
    eexists. reflexivity.
  - apply (run_leaves_no_temp_files (Some "nginx") Sample.broken_config).
    eexists. reflexivity.
Defined.

(** ** The mirror that [run] ends with *)

Lemma frames_keeps_self {A B} (f : manager -> B) (m : M A) :
  frames m -> keeps_self f m.
Proof. intros H st. now rewrite H. Qed.

Lemma keeps_self_bind {A B C} (f : manager -> C) (m : M A) (k : A -> M B) :
  keeps_self f m -> (forall a, keeps_self f (k a)) -> keeps_self f (m ≫= k).
Proof.
  intros Hm Hk st. rewrite bind_run. specialize (Hm st).
  destruct (m st) as [[a|e|c] st']; simpl in *; [|exact Hm..].
  now rewrite Hk.
Qed.

Lemma keeps_self_try {A B} (f : manager -> B) (m : M A)
    (h : exn -> option (M A)) :
  keeps_self f m -> (forall e k, h e = Some k -> keeps_self f k) ->
  keeps_self f (try_except m h).
Proof.
  intros Hm Hh st. unfold try_except. specialize (Hm st).
  destruct (m st) as [[a|e|c] st']; simpl in *; [exact Hm| |exact Hm].
  destruct (h e) as [k|] eqn:E; [|exact Hm].
  now rewrite (Hh _ _ E).
Qed.

Lemma keeps_self_when {B} (f : manager -> B) (b : bool) (m : M unit) :
  keeps_self f m -> keeps_self f (when_ b m).
Proof. destruct b; [auto | intros _ st; reflexivity]. Qed.

Ltac keeps_self_step :=
  match goal with
  | |- keeps_self _ (_ ≫= _) => apply keeps_self_bind; [|intros ?]
  | |- keeps_self _ (try_except _ _) => apply keeps_self_try; [|handler_cases]
  | |- keeps_self _ (when_ _ _) => apply keeps_self_when
  | |- keeps_self _ (match ?x with _ => _ end) => destruct x
  | |- keeps_self _ _ => solve [apply frames_keeps_self; auto with frames]
  | |- keeps_self _ _ => solve [intros ?; reflexivity]
  end.

Lemma post_keeps_self {A B} (f : manager -> B) (m : M A) (Q : state -> Prop) :
  keeps_self f m ->
  (forall st st', f (self st') = f (self st) -> Q st -> Q st') ->
  post m Q Q Q.
Proof.
  intros Hm HQ st H. specialize (Hm st).
  destruct (m st) as [[a|e|c] st']; cbn [snd] in Hm; eauto.
Qed.

Lemma handle_config_returns (st : state) :
  fst (handle_config st) = Ret tt ->
  exists d path entry,
    files (env st) !! CONFIG_FILE = Some (Ini d)
    /\ Config.get d "remote_path" "/tmp/docker-images" = inr path
    /\ Config.get d "registry_mirrors" "" = inr entry.
Proof.
  destruct (files (env st) !! CONFIG_FILE) as [[d| | |]|] eqn:E;
    try (rewrite (handle_config_missing _ E); discriminate);
    try (unfold handle_config; rewrite bind_run, os_path_exists_eq, E;
         rewrite bool_decide_eq_true_2 by eauto; cbn [negb when_];
         rewrite bind_run; cbn [mret M_ret];
         unfold config_read, read_file; rewrite !bind_run, E; discriminate).
  destruct (Config.get d "remote_path" "/tmp/docker-images") as [e|path] eqn:Hp.
  { rewrite (handle_config_bad_path _ _ _ E Hp). discriminate. }
  destruct (Config.get d "registry_mirrors" "") as [e|entry] eqn:He.
  { rewrite (handle_config_bad_entry _ _ _ _ E Hp He). discriminate. }
  intros _. now exists d, path, entry.
Qed.

(** Before a mirror is asked for: none is set, and the configured ones
    are not empty. *)
Lemma mirror_ok_of_view (st st' : state) :
  mirrors_view (self st') = mirrors_view (self st) ->
  mirror_ok (self st) -> mirror_ok (self st').
Proof. unfold mirrors_view, mirror_ok. now intros [= -> ->]. Qed.

Lemma pipeline_mirror (image : option string) :
  post (pipeline image)
       (fun st => mirror (image_info (self st)) = None)
       (fun st => mirror_ok (self st))
       (fun st => mirror_ok (self st)).
Proof.
  set (ready := fun st : state =>
    mirror (image_info (self st)) = None
    /\ Forall (fun x => x <> "") (registry_mirrors (self st))).
  assert (Hready : forall st, ready st -> mirror_ok (self st)).
  { intros st [H _]. unfold mirror_ok. now rewrite H. }
  assert (Hview : forall st st',
            mirrors_view (self st') = mirrors_view (self st) ->
            ready st -> ready st').
  { unfold mirrors_view, ready. now intros st st' [= -> ->]. }
  unfold pipeline.
  apply post_bind with (Q := ready).
  { intros st H. pose proof (keeps_handle_config mirror st) as Hk.
    pose proof (handle_config_returns st) as Hr.
    destruct (handle_config st) as [[[]|e|c] st1] eqn:E; cbn [fst snd] in *;
      try (unfold mirror_ok; now rewrite Hk, H).
    destruct (Hr eq_refl) as (d & path & entry & Hd & Hp & He).
    rewrite (handle_config_present _ _ _ _ Hd Hp He) in E. injection E as <-.
    split; [exact H|]. cbn [self with_self registry_mirrors].
    eapply Forall_impl; [apply mirror_list_clean|]. now intros x [Hx _]. }
  intros _. apply post_bind with (Q := ready).
  { eapply post_weaken;
      [apply (post_keeps_self mirrors_view _ ready)| | |]; eauto.
    unfold parse_image_input, ask_image. repeat keeps_self_step. }
  intros _. apply post_bind with (Q := ready).
  { eapply post_weaken;
      [apply (post_keeps_self mirrors_view _ ready)| | |]; eauto.
    unfold select_architecture. repeat keeps_self_step. }
  intros _. apply post_bind with (Q := fun st => mirror_ok (self st)).
  { intros st [Hm Hr]. pose proof (select_mirror_picks st) as Hp.
    assert (Hk : keeps_self registry_mirrors select_mirror)
      by (unfold select_mirror; repeat keeps_self_step).
    specialize (Hk st). cbv zeta in Hp.
    assert (Hok : mirror_ok (self (snd (select_mirror st)))).
    { unfold mirror_ok. destruct Hp as [-> | (m & -> & Hin)].
      - now rewrite Hm.
      - rewrite Hk. split; [exact Hin|].
        rewrite Forall_forall in Hr. now apply Hr. }
    now destruct (select_mirror st) as [[[]|e|c] st1]. }
  assert (Hstep : forall (m : M unit), keeps_self mirrors_view m ->
            post m (fun st => mirror_ok (self st))
                   (fun st => mirror_ok (self st))
                   (fun st => mirror_ok (self st))).
  { intros m Hm. apply (post_keeps_self mirrors_view); [exact Hm|].
    apply mirror_ok_of_view. }
  intros _. apply post_bind with (Q := fun st => mirror_ok (self st)).
  { apply Hstep. unfold pull_image. repeat keeps_self_step. }
  intros _. apply post_bind with (Q := fun st => mirror_ok (self st)).
  { apply Hstep. unfold rename_image, except_CalledProcessError.
    repeat keeps_self_step. }
  intros _. apply post_bind with (Q := fun st => mirror_ok (self st)).
  { apply Hstep. unfold generate_filenames. repeat keeps_self_step. }
  do 4 (intros _; apply post_bind with (Q := fun st => mirror_ok (self st));
        [apply Hstep; apply frames_keeps_self; auto with frames|]).
  intros _. apply Hstep. apply frames_keeps_self. auto with frames.
Qed.

(** X12: whatever is typed and however [run] ends, the mirror it ends
    with is none, or one of the mirrors read from the configuration and
    not the empty string. *)
Theorem run_mirror_is_configured (argv : command_line) (st : state) :
  mirror (image_info (self st)) = None ->
  mirror_ok (self (snd (run argv st))).
Proof.
  intros H. destruct argv as [| |image].
  - change (run Help st) with (@Exit unit 0, st). unfold mirror_ok.
    cbn [snd]. now rewrite H.
  - change (run Refused st) with (@Exit unit 2, st). unfold mirror_ok.
    cbn [snd]. now rewrite H.
  - rewrite run_self. pose proof (pipeline_mirror image st H) as Hp.
    now destruct (pipeline image st) as [[[]|e|c] st1].
Qed.

Lemma run_mirror_is_configured_witness :
  mirror (image_info (self (snd (run (Args (Some "nginx")) Sample.mirrored_pull))))
  = Some "https://m2.example"
  /\ mirror_ok (self (snd (run (Args (Some "nginx")) Sample.mirrored_pull))).
Proof.
  split; [reflexivity|].
  apply (run_mirror_is_configured (Args (Some "nginx")) Sample.mirrored_pull).
  reflexivity.
Defined.

(** ** Pulling and renaming *)

Lemma no_exit_check_image_update_body : no_exit check_image_update_body.
Proof. unfold check_image_update_body. repeat no_exit_step. Qed.

Lemma check_image_update_outcome (st : state) :
  fst (check_image_update st) = Ret true
  \/ fst (check_image_update st) = Raise KeyboardInterrupt.
Proof.
  unfold check_image_update, try_except.
  pose proof (check_image_update_body_true st) as Hb.
  pose proof (no_exit_check_image_update_body st) as Hx.
  destruct (check_image_update_body st) as [[b|e|c] st1]; cbn [fst] in *.
  - left. now rewrite (Hb b eq_refl).
  - destruct e as [|err]; [now right | now left].
  - now destruct (Hx c).
Qed.

(** X13: whatever the two queries print, [check_image_update] answers
    [True] (unless it is interrupted): it never reports the local image
    as up to date.  It leaves [self] alone. *)
Theorem check_image_update_always_true (st : state) :
  (fst (check_image_update st) = Ret true
   \/ fst (check_image_update st) = Raise KeyboardInterrupt)
  /\ self (snd (check_image_update st)) = self st.
Proof.
  split; [apply check_image_update_outcome | apply frames_check_image_update].
Qed.

Lemma pull_image_cases (st : state) :
  let i := image_info (self st) in
  let st' := snd (pull_image st) in
  match fst (pull_image st) with
  | Ret _ => self st' = with_info (repulled (pull_ref i)) (self st)
             /\ list.last (trace (env st')) = Some (pull_cmd i)
  | _ => self st' = self st
  end.
Proof.
  cbv zeta. unfold pull_image. rewrite bind_run.
  pose proof (check_image_update_outcome st) as Ho.
  pose proof (frames_check_image_update st) as Hs.
  destruct (check_image_update st) as [[b|e|c] st1]; cbn [fst snd] in *;
    [|exact Hs..].
  destruct Ho as [[= ->]|]; [|discriminate]. cbn [negb].
  rewrite bind_run. cbn [get_info]. rewrite bind_run, Hs.
  pose proof (frames_spawn (pull_cmd (image_info (self st))) st1) as Hf.
  pose proof (spawn_trace (pull_cmd (image_info (self st))) st1) as Ht.
  unfold pull_cmd, pull_ref in *.
  destruct (spawn _ st1) as [[[rc out]|e|c] st2]; cbn [fst snd] in *;
    [|congruence..].
  destruct (negb (rc =? 0)); cbn [fst snd raise]; [congruence|].
  cbn. rewrite Hf, Hs, Ht. split; [reflexivity | apply last_snoc].
Qed.

(** X14: [pull_image] never skips the pull.  When it returns, the last
    command run is the pull of [<reference>:<tag>] for the chosen
    platform and that reference is stored as [pulled_ref], nothing else
    of [self] having changed; when it does not return, [self] is as it
    was. *)
Theorem pull_image_always_pulls (st : state) :
  let i := image_info (self st) in
  let st' := snd (pull_image st) in
  match fst (pull_image st) with
  | Ret _ =>
      list.last (trace (env st'))
      = Some (Popen [DOCKER_CLI; "pull"; "--platform"; "linux/" +:+ arch i;
                     get_pull_reference i +:+ ":" +:+ original_tag i])
      /\ pulled_ref (image_info (self st'))
         = get_pull_reference i +:+ ":" +:+ original_tag i
      /\ identity (image_info (self st')) = identity i
      /\ arch (image_info (self st')) = arch i
      /\ mirror (image_info (self st')) = mirror i
      /\ mirrors_view (self st') = mirrors_view (self st)
      /\ remote_path (self st') = remote_path (self st)
  | _ => self st' = self st
  end.
Proof.
  cbv zeta. pose proof (pull_image_cases st) as H. cbv zeta in H.
  destruct (fst (pull_image st)); [|exact H..].
  destruct H as [-> Hl]. repeat split. exact Hl.
Qed.

Lemma rename_image_unfold (st : state) :
  let i := image_info (self st) in
  mirror_set i = true ->
  rename_image st =
  match (subprocess_run_check [DOCKER_CLI; "tag"; pulled_ref i; original_ref i] ;;
         subprocess_run_check [DOCKER_CLI; "rmi"; pulled_ref i]) st with
  | (Ret _, st') => (Ret tt, with_self (with_info (repulled (original_ref i))) st')
  | (Raise e, st') => (Raise e, st')
  | (Exit c, st') => (Exit c, st')
  end.
Proof.
  cbv zeta. intros Hm. unfold rename_image. rewrite bind_run. cbn [get_info].
  rewrite Hm. cbn [negb]. rewrite bind_run. unfold try_except, original_ref.
  match goal with
  | |- context [@mbind M _ _ _ ?k ?m st] =>
      destruct (@mbind M _ _ _ k m st) as [[[]|e|c] st1]
  end; [reflexivity| |reflexivity].
  destruct e as [|[]]; reflexivity.
Qed.

(** X15: with a mirror in use, when [docker tag] exits non-zero
    [rename_image] raises [CalledProcessError] at once: the mirror tag is
    not removed, and [pulled_ref] still names the mirror reference. *)
Theorem rename_image_stops_at_failed_tag (st : state) rc out fs :
  let i := image_info (self st) in
  let w := env st in
  mirror_set i = true ->
  respond w (trace w) (tag_cmd i) (files w) = Completed rc out fs ->
  rc <> 0 ->
  rename_image st
  = (Raise (Exception CalledProcessError), after_cmd (tag_cmd i) fs st).
Proof.
  cbv zeta. intros Hm H Hrc. rewrite (rename_image_unfold st Hm).
  rewrite bind_run. unfold subprocess_run_check at 1. rewrite bind_run.
  unfold tag_cmd in H. rewrite (spawn_completed _ _ _ _ _ H). cbn [fst].
  apply Z.eqb_neq in Hrc. now rewrite Hrc.
Qed.

Lemma rename_image_stops_at_failed_tag_witness :
  fst (rename_image Sample.tag_refused) = Raise (Exception CalledProcessError)
  /\ new_events Sample.tag_refused (snd (rename_image Sample.tag_refused))
     = [Run [DOCKER_CLI; "tag"; "https://m1.example/library/nginx:latest";
             "nginx:latest"]]
  /\ pulled_ref (image_info (self (snd (rename_image Sample.tag_refused))))
     = "https://m1.example/library/nginx:latest".
Proof.
  rewrite (rename_image_stops_at_failed_tag Sample.tag_refused 1 ""
             (files (env Sample.tag_refused)));
    [repeat split | reflexivity | reflexivity | discriminate].
Defined.

(** X16: with a mirror in use, when [docker tag] and [docker rmi] both
    exit with 0, [rename_image] has run exactly these two commands, in
    this order, and [pulled_ref] is [<name>:<tag>]. *)
Theorem rename_image_restores_name (st : state) out fs out' fs' :
  let i := image_info (self st) in
  let w := env st in
  mirror_set i = true ->
  respond w (trace w) (tag_cmd i) (files w) = Completed 0 out fs ->
  respond w (trace w ++ [tag_cmd i]) (untag_cmd i) fs = Completed 0 out' fs' ->
  rename_image st
  = (Ret tt,
     with_self (with_info (repulled (original_ref i)))
       (after_cmd (untag_cmd i) fs' (after_cmd (tag_cmd i) fs st))).
Proof.
  cbv zeta. intros Hm H H'. rewrite (rename_image_unfold st Hm).
  rewrite bind_run. unfold subprocess_run_check at 1. rewrite bind_run.
  unfold tag_cmd in H. rewrite (spawn_completed _ _ _ _ _ H).
  cbn [fst negb Z.eqb mret M_ret]. unfold subprocess_run_check.
  rewrite bind_run. unfold untag_cmd in H'.
  erewrite spawn_completed by exact H'. reflexivity.
Qed.

Lemma rename_image_restores_name_witness :
  fst (rename_image Sample.renaming) = Ret tt
  /\ new_events Sample.renaming (snd (rename_image Sample.renaming))
     = [Run [DOCKER_CLI; "tag"; "https://m1.example/library/nginx:latest";
             "nginx:latest"];
        Run [DOCKER_CLI; "rmi"; "https://m1.example/library/nginx:latest"]]
  /\ pulled_ref (image_info (self (snd (rename_image Sample.renaming))))
     = "nginx:latest".
Proof.
  rewrite (rename_image_restores_name Sample.renaming
             "" (files (env Sample.renaming))
             "" (files (env Sample.renaming)));
    [repeat split | reflexivity..].
Defined.

Lemma get_pull_reference_no_mirror (i : info) :
  mirror_set i = false -> get_pull_reference i = original_name i.
Proof.
  unfold mirror_set, get_pull_reference.
  destruct (mirror i) as [m|]; [|reflexivity]. now intros ->.
Qed.

Lemma pipeline_canonical (image : option string) :
  post (pipeline image) (fun _ => True) canonical (fun _ => True).
Proof.
  unfold pipeline.
  do 4 (apply post_bind with (Q := fun _ => True); [apply post_any|intros _]).
  apply post_bind
    with (Q := fun st => pulled_ref (image_info (self st))
                         = pull_ref (image_info (self st))).
  { intros st _. pose proof (pull_image_cases st) as H. cbv zeta in H.
    destruct (pull_image st) as [[[]|e|c] st1]; cbn [fst snd] in *; [|exact I..].
    destruct H as [-> _]. reflexivity. }
  intros _. apply post_bind with (Q := canonical).
  { intros st H. rewrite bind_run. cbn [get_info].
    destruct (mirror_set (image_info (self st))) eqn:Em; cbn [when_].
    - rewrite (rename_image_unfold st Em).
      match goal with
      | |- context [@mbind M _ _ _ ?k ?m st] =>
          assert (Hf : frames (@mbind M _ _ _ k m)) by repeat frames_step;
          specialize (Hf st);
          destruct (@mbind M _ _ _ k m st) as [[[]|e|c] st1]
      end; [|exact I..].
      cbn [snd] in Hf. unfold canonical. cbn. now rewrite Hf.
    - cbn [mret M_ret]. unfold canonical, original_ref. rewrite H.
      unfold pull_ref.
      now rewrite (get_pull_reference_no_mirror _ Em). }
  intros _. apply post_bind with (Q := canonical).
  { intros st H. rewrite generate_filenames_eq. exact H. }
  assert (Hstep : forall m : M unit, frames m ->
            post m canonical canonical (fun _ => True)).
  { intros m Hm. eapply post_weaken;
      [apply (post_frames m canonical Hm)|..]; auto.
    intros st st' Hs. unfold canonical. now rewrite Hs. }
  do 4 (intros _; apply post_bind with (Q := canonical);
        [apply Hstep; auto with frames|]).
  intros _. apply Hstep. auto with frames.
Qed.

(** X17: when [run] returns, [pulled_ref] is [<name>:<tag>]: the image
    that was saved goes by its canonical name, whether or not a mirror
    was used. *)
Theorem run_ends_with_canonical_name (argv : command_line) (st : state) :
  fst (run argv st) = Ret tt ->
  let i' := image_info (self (snd (run argv st))) in
  pulled_ref i' = original_name i' +:+ ":" +:+ original_tag i'.
Proof.
  destruct argv as [| |image]; try discriminate.
  intros H. cbv zeta. rewrite run_self.
  pose proof (pipeline_canonical image st I) as Hp.
  revert H. rewrite ?run_args; unfold try_except.
  destruct (pipeline image st) as [[[]|e|c] st1]; cbn [fst snd] in *;
    [intros _; exact Hp| |discriminate].
  destruct e as [|err]; rewrite bind_run, clean_temp_files_eq; discriminate.
Qed.

Lemma run_ends_with_canonical_name_witness :
  let i' := image_info (self (snd (run (Args (Some "nginx")) Sample.mirrored_pull))) in
  pulled_ref i' = original_name i' +:+ ":" +:+ original_tag i'.
Proof.
  apply (run_ends_with_canonical_name (Args (Some "nginx")) Sample.mirrored_pull).
  vm_compute. reflexivity.
Defined.

(** ** Saving, wrapping and moving the archive *)

(** X18: [create_tar_package] returns only when [docker save] exited
    with 0 and the tar file is there afterwards; a non-zero exit is
    [CalledProcessError], and an exit with 0 that left no file is
    [FileNotFoundError]. *)
Theorem create_tar_package_outcome (st : state) rc out fs :
  let i := image_info (self st) in
  let w := env st in
  respond w (trace w) (save_cmd i) (files w) = Completed rc out fs ->
  create_tar_package st
  = (if negb (rc =? 0) then Raise (Exception CalledProcessError)
     else if bool_decide (is_Some (fs !! tar_name i)) then Ret tt
     else Raise (Exception FileNotFoundError),
     after_cmd (save_cmd i) fs st).
Proof.
  cbv zeta. intros H. unfold create_tar_package. rewrite bind_run.
  cbn [get_info]. rewrite bind_run. unfold subprocess_run_check.
  rewrite bind_run. unfold save_cmd in H.
  rewrite (spawn_completed _ _ _ _ _ H). cbn [fst].
  destruct (negb (rc =? 0)); [reflexivity|]. cbn [mret M_ret].
  unfold os_path_getsize, read_file. rewrite bind_run.
  cbn [after_cmd env with_env with_files log files].
  destruct (fs !! tar_name (image_info (self st))) eqn:E.
  - rewrite bool_decide_eq_true_2 by eauto. reflexivity.
  - rewrite bool_decide_eq_false_2 by (intros [? ?]; discriminate).
    reflexivity.
Qed.

Lemma create_tar_package_outcome_witness :
  fst (create_tar_package Sample.saving) = Ret tt
  /\ fst (create_tar_package Sample.save_writes_nothing)
     = Raise (Exception FileNotFoundError)
  /\ fst (create_tar_package Sample.save_fails)
     = Raise (Exception CalledProcessError).
Proof.
  split; [|split].
  - rewrite (create_tar_package_outcome Sample.saving 0 ""
      (<[tar_name (image_info Sample.pulled) := Data "image"]>
         (files (env Sample.saving)))); reflexivity.
  - rewrite (create_tar_package_outcome Sample.save_writes_nothing 0 "" ∅);
      reflexivity.
  - rewrite (create_tar_package_outcome Sample.save_fails 1 ""
      (files (env Sample.save_fails))); reflexivity.
Defined.

Lemma write_file_eq (p : string) (c : content) (st : state) :
  p <> "" ->
  write_file p c st = (Ret tt, with_env (with_files (insert p c)) st).
Proof. intros H. unfold write_file. now destruct p. Qed.

Lemma with_files_compose (f g : gmap string content -> gmap string content)
    (st : state) :
  with_env (with_files g) (with_env (with_files f) st)
  = with_env (with_files (fun fs => g (f fs))) st.
Proof. reflexivity. Qed.

Lemma with_files_ext (f g : gmap string content -> gmap string content)
    (st : state) :
  f (files (env st)) = g (files (env st)) ->
  with_env (with_files f) st = with_env (with_files g) st.
Proof. intros H. unfold with_env, with_files. now rewrite H. Qed.

(** X19: with the tar file in place, [compress_to_zip] returns and the
    zip file holds one member, the tar file under its base name; no other
    file changes, and the tar file stays. *)
Theorem compress_to_zip_wraps_tar (st : state) (c : content) :
  let i := image_info (self st) in
  files (env st) !! tar_name i = Some c ->
  zip_name i <> "" ->
  tar_name i <> zip_name i ->
  compress_to_zip st
  = (Ret tt,
     with_env (with_files
       (insert (zip_name i) (ZipOne (Str.basename (tar_name i)) c))) st).
Proof.
  cbv zeta. intros Ht Hz Hne. unfold compress_to_zip. rewrite bind_run.
  cbn [get_info]. unfold try_except. rewrite bind_run.
  rewrite write_file_eq by exact Hz. rewrite bind_run.
  unfold read_file at 1. cbn [env with_env with_files files].
  rewrite lookup_insert_ne by congruence. rewrite Ht.
  rewrite bind_run, (write_file_eq _ _ _ Hz).
  unfold os_path_getsize, read_file. rewrite bind_run.
  cbn [env with_env with_files files]. rewrite lookup_insert_eq.
  cbn [mret M_ret]. f_equal. rewrite with_files_compose.
  apply with_files_ext. apply insert_insert_eq.
Qed.

Lemma compress_to_zip_wraps_tar_witness :
  fst (compress_to_zip Sample.saved) = Ret tt
  /\ files (env (snd (compress_to_zip Sample.saved)))
       !! "nginx_latest_amd64_20240309_070500.zip"
     = Some (ZipOne "nginx_latest_amd64_20240309_070500.tar" (Data "image"))
  /\ files (env (snd (compress_to_zip Sample.saved)))
       !! "nginx_latest_amd64_20240309_070500.tar"
     = Some (Data "image").
Proof.
  rewrite (compress_to_zip_wraps_tar Sample.saved (Data "image"));
    [repeat split | reflexivity | discriminate | discriminate].
Defined.











Lemma append_length (a b : string) :
  String.length (a +:+ b) = (String.length a + String.length b)%nat.
Proof.
  induction a as [|c a IH]; [reflexivity|].
  rewrite append_cons. cbn [String.length]. now rewrite IH.
Qed.






(** A whole run that stages into the working directory: it returns, and
    the archive is neither under its own name nor under the path it was
    to be moved to. *)
Example staging_here_delivers_nothing :
  let r := run (Args (Some "nginx")) Sample.staged_here in
  fst r = Ret tt
  /\ destination (self (snd r)) = "./nginx_latest_amd64_20240309_070500.zip"
  /\ files (env (snd r)) !! "nginx_latest_amd64_20240309_070500.zip" = None
  /\ files (env (snd r)) !! "./nginx_latest_amd64_20240309_070500.zip" = None.
Proof. vm_compute. repeat split. Qed.

(** ** Removing the image *)

Lemma strip_truthy (s : string) :
  Str.truthy (Str.strip s) = negb (Str.forallb Chr.is_space s).
Proof.
  destruct (Str.forallb Chr.is_space s) eqn:E.
  - apply strip_blank in E. now rewrite E.
  - destruct (Str.strip s) eqn:Es; [|reflexivity].
    apply strip_blank in Es. congruence.
Qed.

(** X24: [check_container_usage] looks at what [docker ps] prints and
    not at how it exits: the image counts as used exactly when the output
    holds a character that is not white space, also when the command
    failed. *)
Theorem check_container_usage_reads_output (st : state) rc out fs :
  let ps := Run [DOCKER_CLI; "ps"; "-a"; "-q"; "--filter";
                 "ancestor=" +:+ pulled_ref (image_info (self st))] in
  respond (env st) (trace (env st)) ps (files (env st)) = Completed rc out fs ->
  check_container_usage st
  = (Ret (negb (Str.forallb Chr.is_space out)), after_cmd ps fs st).
Proof.
  cbv zeta. intros H. unfold check_container_usage. rewrite bind_run.
  cbn [get_info]. rewrite bind_run. unfold subprocess_run.
  rewrite (spawn_completed _ _ _ _ _ H). cbn [snd mret M_ret].
  now rewrite strip_truthy.
Qed.

Lemma check_container_usage_reads_output_witness :
  fst (check_container_usage Sample.ps_fails) = Ret false
  /\ fst (check_container_usage Sample.in_use) = Ret true.
Proof.
  split.
  - rewrite (check_container_usage_reads_output Sample.ps_fails 1 ""
               (files (env Sample.ps_fails))); reflexivity.
  - rewrite (check_container_usage_reads_output Sample.in_use 0
               (Sample.line "3f2a9c1b77aa") (files (env Sample.in_use)));
      reflexivity.
Defined.

Lemma schedule_cleanup_outcome (st : state) :
  fst (schedule_cleanup st) = Ret tt
  \/ fst (schedule_cleanup st) = Raise KeyboardInterrupt.
Proof.
  unfold schedule_cleanup, try_except.
  match goal with
  | |- context [match ?b st with _ => _ end] =>
      assert (Hx : no_exit b) by repeat no_exit_step;
      specialize (Hx st); destruct (b st) as [[[]|e|c] st1]
  end; cbn [fst] in *; [now left| |now destruct (Hx c)].
  destruct e as [|err]; [now right | now left].
Qed.

(** X25: [schedule_cleanup] is never fatal: whatever [at] does, and
    whatever it prints, the method returns (unless it is interrupted) and
    [self] is as it was; it runs at most one command, the [at] job for
    [pulled_ref]. *)
Theorem schedule_cleanup_never_fails (st : state) :
  let st' := snd (schedule_cleanup st) in
  (fst (schedule_cleanup st) = Ret tt
   \/ fst (schedule_cleanup st) = Raise KeyboardInterrupt)
  /\ self st' = self st
  /\ (new_events st st' = []
      \/ exists time,
           new_events st st'
           = [Shell (at_command (pulled_ref (image_info (self st))) time)]).
Proof.
  cbv zeta. split; [apply schedule_cleanup_outcome|].
  split; [apply frames_schedule_cleanup|].
  unfold schedule_cleanup, try_except, new_events. rewrite bind_run.
  cbn [datetime_now]. rewrite bind_run. cbn [get_info].
  destruct (Date.plus_24h _) as [later|].
  - right. exists (Date.at_time later). rewrite bind_run.
    pose proof (spawn_trace (Shell (at_command
      (pulled_ref (image_info (self st))) (Date.at_time later))) st) as Ht.
    destruct (spawn _ st) as [[[rc out]|e|c] st1]; cbn [fst snd] in *.
    + destruct (rc =? 0); [|cbn; rewrite Ht; apply drop_app_length].
      rewrite bind_run. unfold group1.
      destruct (Re.search_job out); cbn; rewrite Ht; apply drop_app_length.
    + destruct e as [|err]; cbn; rewrite Ht; apply drop_app_length.
    + cbn. rewrite Ht. apply drop_app_length.
  - left. cbn. apply drop_all.
Qed.

(** X26: when no container uses the image and [docker rmi] exits with
    0, [clean_image] returns after these two commands: no removal is
    booked. *)
Theorem clean_image_removes_unused (st : state) out fs :
  let st1 := snd (check_container_usage st) in
  let rmi := Run [DOCKER_CLI; "rmi"; pulled_ref (image_info (self st))] in
  fst (check_container_usage st) = Ret false ->
  respond (env st1) (trace (env st1)) rmi (files (env st1))
    = Completed 0 out fs ->
  clean_image st = (Ret tt, after_cmd rmi fs st1).
Proof.
  cbv zeta. unfold clean_image. rewrite bind_run.
  pose proof (frames_check_container_usage st) as Hs.
  destruct (check_container_usage st) as [[b|e|c] st1]; cbn [fst snd] in *;
    [|discriminate..].
  intros [= ->] H. rewrite bind_run. cbn [get_info]. rewrite Hs.
  unfold try_except, subprocess_run_check. rewrite bind_run.
  now rewrite (spawn_completed _ _ _ _ _ H).
Qed.

Lemma clean_image_removes_unused_witness :
  fst (clean_image Sample.unused) = Ret tt
  /\ new_events Sample.unused (snd (clean_image Sample.unused))
     = [Run [DOCKER_CLI; "ps"; "-a"; "-q"; "--filter"; "ancestor=nginx:latest"];
        Run [DOCKER_CLI; "rmi"; "nginx:latest"]].
Proof.
  rewrite (clean_image_removes_unused Sample.unused ""
             (files (env Sample.unused)));
    [split; reflexivity | reflexivity | reflexivity].
Defined.

(** X27: a failing removal never aborts the run: [clean_image] does not
    raise [CalledProcessError], and it never ends the process. *)
Theorem clean_image_never_fails_on_rmi (st : state) :
  fst (clean_image st) <> Raise (Exception CalledProcessError)
  /\ (forall code, fst (clean_image st) <> Exit code).
Proof.
  split; [|apply no_exit_clean_image].
  unfold clean_image. rewrite bind_run.
  assert (Hc : fst (check_container_usage st)
               <> Raise (Exception CalledProcessError)).
  { unfold check_container_usage. rewrite bind_run. cbn [get_info].
    rewrite bind_run. unfold subprocess_run, spawn.
    repeat case_match; cbn [fst mret M_ret]; congruence. }
  destruct (check_container_usage st) as [[[]|e|c] st1]; cbn [fst] in *;
    [discriminate| |congruence|discriminate].
  rewrite bind_run. cbn [get_info]. unfold try_except, subprocess_run_check.
  rewrite bind_run. unfold spawn.
  destruct (respond _ _ _ _) as [rc out fs|fs|]; cbn; try discriminate.
  destruct (negb (rc =? 0)); cbn; [|discriminate].
  destruct (schedule_cleanup_outcome
              (with_env (fun w => with_files (fun _ => fs)
                 (log (Run [DOCKER_CLI; "rmi";
                            pulled_ref (image_info (self st1))]) w)) st1))
    as [H|H]; rewrite H; discriminate.
Qed.

(** ** The name and the file names *)

Lemma sub_class_all (cls : ascii -> bool) (p : ascii -> bool) (s : string) :
  p "_"%char = true -> (forall c, cls c = false -> p c = true) ->
  Str.forallb p (Str.sub_class cls s) = true.
Proof.
  intros Hu Hp. unfold Str.sub_class.
  induction s as [|c s IH]; [reflexivity|].
  cbn [Str.map Str.forallb]. rewrite IH, andb_true_r.
  destruct (cls c) eqn:E; [exact Hu|]. now apply Hp.
Qed.

Lemma forallb_contains (p : ascii -> bool) (c : ascii) (s : string) :
  Str.forallb p s = true -> p c = false -> Str.contains c s = false.
Proof.
  intros Hs Hc. induction s as [|x s IH]; [reflexivity|].
  cbn in *. apply andb_prop in Hs as [Hx Hs]. rewrite (IH Hs), orb_false_r.
  apply Ascii.eqb_neq. intros ->. congruence.
Qed.

(** X28: whatever is given to [parse_image_input], the name it stores
    holds only characters of [[a-zA-Z0-9_./-]]; in particular it holds no
    colon, with or without a tag in the input. *)
Theorem parsed_name_is_clean (image_input : string) (st : state) :
  let i' := image_info (self (snd (parse_image_input image_input st))) in
  Str.forallb Chr.name_char (original_name i') = true
  /\ Str.contains ":" (original_name i') = false.
Proof.
  cbv zeta.
  assert (H : forall s,
    Str.forallb Chr.name_char
      (Str.sub_class (fun c => negb (Chr.name_char c)) s) = true).
  { intros s. apply sub_class_all; [reflexivity|].
    intros c Hc. now apply negb_false_iff in Hc. }
  assert (E : exists s,
    original_name (image_info (self (snd (parse_image_input image_input st))))
    = Str.sub_class (fun c => negb (Chr.name_char c)) s).
  { destruct (Str.contains ":" image_input) eqn:Hc.
    - destruct (split1_cut _ _ Hc) as (a & b & _ & -> & Ha).
      change (a +:+ String ":" b) with (a +:+ ":" +:+ b).
      rewrite (parse_image_input_colon _ _ _ Ha). now exists a.
    - rewrite (parse_image_input_plain _ _ Hc). now exists image_input. }
  destruct E as [s ->]. split; [apply H|].
  eapply forallb_contains; [apply H | reflexivity].
Qed.

(** X29: when neither the tag nor the architecture holds a slash, the
    two generated names hold none: they are plain file names. *)
Theorem generated_names_are_flat (st : state) :
  let i := image_info (self st) in
  let i' := image_info (self (snd (generate_filenames st))) in
  Str.contains "/" (original_tag i) = false ->
  Str.contains "/" (arch i) = false ->
  Str.contains "/" (tar_name i') = false
  /\ Str.contains "/" (zip_name i') = false
  /\ Str.basename (tar_name i') = tar_name i'.
Proof.
  cbv zeta. intros Ht Ha.
  destruct (generate_filenames_flat st Ht Ha) as [H1 H2].
  repeat split; [exact H1 | exact H2 |].
  destruct (tar_name _) as [|c s]; [reflexivity|].
  cbn [Str.basename]. now rewrite H1.
Qed.

Lemma generated_names_are_flat_witness :
  let i' := image_info (self (snd (generate_filenames Sample.saving))) in
  Str.contains "/" (tar_name i') = false
  /\ Str.contains "/" (zip_name i') = false
  /\ Str.basename (tar_name i') = tar_name i'.
Proof.
  apply (generated_names_are_flat Sample.saving); reflexivity.
Defined.

Lemma append_inj_l (a a' b b' : string) :
  a +:+ b = a' +:+ b' -> String.length a = String.length a' ->
  a = a' /\ b = b'.
Proof.
  revert a'. induction a as [|c a IH]; intros [|c' a']; try discriminate.
  - auto.
  - rewrite !append_cons. intros [= -> H] [= Hl].
    destruct (IH _ H Hl) as [-> ->]. auto.
Qed.

Lemma append_inj_r (a a' b b' : string) :
  a +:+ b = a' +:+ b' -> String.length b = String.length b' ->
  a = a' /\ b = b'.
Proof.
  intros H Hl. apply append_inj_l; [exact H|].
  apply (f_equal String.length) in H. rewrite !append_length in H. lia.
Qed.

Lemma dec_inj (n m : nat) : Str.dec n = Str.dec m -> n = m.
Proof.
  intros H. pose proof (int_acc_dec n) as Hn. rewrite H, int_acc_dec in Hn.
  injection Hn as Hn. lia.
Qed.

Lemma int_acc_pad2 (n : nat) : Str.int_acc 0 (Str.pad2 n) = Some (Z.of_nat n).
Proof.
  unfold Str.pad2. destruct (Nat.ltb n 10); [|apply int_acc_dec].
  rewrite append_cons, append_nil. cbn [Str.int_acc].
  change (Chr.is_digit09 "0") with true. cbv iota.
  change (10 * 0 + Z.of_nat (Chr.code "0" - 48)) with 0. apply int_acc_dec.
Qed.

Lemma pad2_inj (n m : nat) : Str.pad2 n = Str.pad2 m -> n = m.
Proof.
  intros H. pose proof (int_acc_pad2 n) as Hn. rewrite H, int_acc_pad2 in Hn.
  injection Hn as Hn. lia.
Qed.

Lemma pad2_length (n : nat) : (n < 100)%nat -> String.length (Str.pad2 n) = 2%nat.
Proof.
  intros H. do 100 (destruct n as [|n]; [reflexivity|]). lia.
Qed.

Lemma stamp_inj (d1 d2 : datetime) :
  two_digit_fields d1 -> two_digit_fields d2 ->
  Date.stamp d1 = Date.stamp d2 -> d1 = d2.
Proof.
  intros (Hm1 & Hd1 & Hh1 & Hn1 & Hs1) (Hm2 & Hd2 & Hh2 & Hn2 & Hs2).
  unfold Date.stamp. intros H.
  apply append_inj_r in H as [Hy H];
    [|rewrite !append_length, !pad2_length by assumption; reflexivity].
  apply append_inj_l in H as [Hm H]; [|now rewrite !pad2_length].
  apply append_inj_l in H as [Hd H]; [|now rewrite !pad2_length].
  apply append_inj_l in H as [_ H]; [|reflexivity].
  apply append_inj_l in H as [Hh H]; [|now rewrite !pad2_length].
  apply append_inj_l in H as [Hn Hs]; [|now rewrite !pad2_length].
  apply dec_inj in Hy. apply pad2_inj in Hm, Hd, Hh, Hn, Hs.
  destruct d1, d2; cbn in *; congruence.
Qed.

(** X30: the time stamp tells two runs apart: for the same image, tag
    and architecture, names generated at two different times differ, the
    tar names as well as the zip names. *)
Theorem generated_names_differ_in_time (st1 st2 : state) :
  let d1 := clock (env st1) (trace (env st1)) in
  let d2 := clock (env st2) (trace (env st2)) in
  let i1 := image_info (self (snd (generate_filenames st1))) in
  let i2 := image_info (self (snd (generate_filenames st2))) in
  image_info (self st1) = image_info (self st2) ->
  two_digit_fields d1 -> two_digit_fields d2 ->
  d1 <> d2 ->
  tar_name i1 <> tar_name i2 /\ zip_name i1 <> zip_name i2.
Proof.
  cbv zeta. intros Hi H1 H2 Hne. rewrite !generate_filenames_eq.
  cbn [snd self with_self with_info image_info named tar_name zip_name].
  rewrite Hi. unfold base_name.
  split; intros E; apply Hne, stamp_inj; try assumption.
  - apply append_inj_r in E as [E _]; [|reflexivity].
    repeat (apply append_inj_l in E as [_ E]; [|reflexivity]). exact E.
  - apply append_inj_r in E as [E _]; [|reflexivity].
    repeat (apply append_inj_l in E as [_ E]; [|reflexivity]). exact E.
Qed.

Lemma generated_names_differ_in_time_witness :
  tar_name (image_info (self (snd (generate_filenames Sample.saving))))
  <> tar_name (image_info (self (snd (generate_filenames Sample.a_second_later))))
  /\ zip_name (image_info (self (snd (generate_filenames Sample.saving))))
  <> zip_name (image_info (self (snd (generate_filenames Sample.a_second_later)))).
Proof.
  apply (generated_names_differ_in_time Sample.saving Sample.a_second_later).
  - reflexivity.
  - cbv. repeat split; lia.
  - cbv. repeat split; lia.
  - discriminate.
Defined.
